(** * Pharo refactoring agent: a model of the orchestration core

  This development embeds the pure and stateful parts of
  [app/services/agent_service.py], [app/models.py], [app/config.py] and
  [app/routers/refactor.py] and proves the properties the specification
  states about them.

  Layout: the first half of the file holds the model (one module per
  source unit), the second half the lemmas and theorems. *)

From Stdlib Require Import NArith Lia Ascii String.
From stdpp Require Import gmap strings list fin_maps.

Local Open Scope N_scope.

(* ===================================================================== *)
(** ** Python [str]: sequences of Unicode code points                    *)
(* ===================================================================== *)

Module PyStr.

(** A Python string is a sequence of code points; the model keeps the
    code point of each character as a binary natural number. *)
Abbreviation pystr := (list N).

(** Source literals are ASCII; [py] reads one as a Python string. *)
Definition py (s : string) : pystr :=
  List.map N_of_ascii (list_ascii_of_string s).

(** [Py_UNICODE_ISLINEBREAK]: the characters [str.splitlines] breaks on. *)
Definition is_linebreak (c : N) : bool :=
  (c =? 10) || (c =? 11) || (c =? 12) || (c =? 13)
  || (c =? 28) || (c =? 29) || (c =? 30)
  || (c =? 133) || (c =? 8232) || (c =? 8233).

(** [Py_UNICODE_ISSPACE]: the characters [str.strip()] removes. *)
Definition is_space (c : N) : bool :=
  ((9 <=? c) && (c <=? 13)) || ((28 <=? c) && (c <=? 32))
  || (c =? 133) || (c =? 160) || (c =? 5760)
  || ((8192 <=? c) && (c <=? 8202))
  || (c =? 8232) || (c =? 8233) || (c =? 8239) || (c =? 8287)
  || (c =? 12288).

Definition CR : N := 13.
Definition LF : N := 10.

(** [str.splitlines()] (keepends false).  [line] is the text of the
    current line read so far; a carriage return followed directly by a
    line feed counts as one break; nothing is appended after the last
    break when the text ends there. *)
Fixpoint splitlines_from (line s : pystr) : list pystr :=
  match s with
  | [] => match line with [] => [] | _ :: _ => [line] end
  | c :: rest =>
      if is_linebreak c then
        line :: match rest with
                | c' :: rest' =>
                    if (c =? CR) && (c' =? LF)
                    then splitlines_from [] rest'
                    else splitlines_from [] rest
                | [] => []
                end
      else splitlines_from (line ++ [c]) rest
  end.

Definition splitlines (s : pystr) : list pystr := splitlines_from [] s.

(** [s.replace(old, new)] for a one-character [old]. *)
Definition replace (old : N) (new : pystr) (s : pystr) : pystr :=
  List.flat_map (fun c => if c =? old then new else [c]) s.

(** [sep.join(items)]. *)
Fixpoint join (sep : pystr) (items : list pystr) : pystr :=
  match items with
  | [] => []
  | x :: xs =>
      match xs with
      | [] => x
      | _ :: _ => x ++ sep ++ join sep xs
      end
  end.

(** [s.lstrip()], [s.rstrip()] and [s.strip()] without argument. *)
Fixpoint lstrip (s : pystr) : pystr :=
  match s with
  | [] => []
  | c :: rest => if is_space c then lstrip rest else s
  end.

Definition rstrip (s : pystr) : pystr := rev (lstrip (rev s)).

Definition strip (s : pystr) : pystr := rstrip (lstrip s).

(** [s.startswith(prefix)]. *)
Fixpoint startswith (s prefix : pystr) : bool :=
  match prefix, s with
  | [], _ => true
  | p :: ps, c :: cs => (c =? p) && startswith cs ps
  | _ :: _, [] => false
  end.

(** A text without line break, a text of white space only, and a text
    that neither starts nor ends with white space. *)
Definition no_break (s : pystr) : Prop :=
  Forall (fun c => is_linebreak c = false) s.

Definition blank (s : pystr) : bool := forallb is_space s.

Definition trimmed (s : pystr) : Prop :=
  (forall c r, s = c :: r -> is_space c = false)
  /\ (forall b d, s = b ++ [d] -> is_space d = false).

(** A terminator: a text that, at the end of a text, closes the line
    before it and opens no other. *)
Definition closes_line (tm : pystr) : Prop :=
  forall line, splitlines_from line tm = [line].

(** [s.split(sep)] for a one-character [sep].  [field] is the text of
    the current field read so far. *)
Fixpoint split_from (sep : N) (field s : pystr) : list pystr :=
  match s with
  | [] => [field]
  | c :: rest =>
      if c =? sep then field :: split_from sep [] rest
      else split_from sep (field ++ [c]) rest
  end.

Definition split (sep : N) (s : pystr) : list pystr := split_from sep [] s.

(** [s.count(c)] for a one-character [c]. *)
Definition count (c : N) (s : pystr) : nat :=
  length (List.filter (fun d => d =? c) s).

End PyStr.

Import PyStr.

(* ===================================================================== *)
(** ** The safe script encoder ([generate_compilation_script])           *)
(* ===================================================================== *)

Module Encoder.

Definition QUOTE : N := 39.

(** The separator of [", Character cr asString, ".join(...)]. *)
Definition SEP : pystr := Eval cbv in py ", Character cr asString, ".

Definition COMPILE_OPEN : pystr := Eval cbv in py " compile: (".
Definition COMPILE_CLOSE : pystr := Eval cbv in py ")".

(** [f"'{line.replace("'", "''")}'"] *)
Definition pharo_line (line : pystr) : pystr :=
  [QUOTE] ++ replace QUOTE [QUOTE; QUOTE] line ++ [QUOTE].

Definition generate_compilation_script (class_name code : pystr) : pystr :=
  match code with
  | [] => []
  | _ :: _ =>
      let lines := splitlines code in
      let pharo_lines := List.map pharo_line lines in
      let code_expression := join SEP pharo_lines in
      let full_script :=
        class_name ++ COMPILE_OPEN ++ code_expression ++ COMPILE_CLOSE in
      full_script
  end.

End Encoder.

Import Encoder.

(** *** A decoder for the generated expression

  The reading the remote runtime gives to the argument of [compile:]:
  a sequence of quoted literals joined by [SEP], where a quote inside a
  literal is written twice.  It is used to state the round trip only. *)

Module Decoder.

(** Reads the body of a literal after its opening quote, up to the quote
    that closes it; a doubled quote does not close the literal.  Returns
    the raw body (quotes still doubled) and the text after the literal. *)
Fixpoint literal_body (s : pystr) : option (pystr * pystr) :=
  match s with
  | [] => None
  | c :: rest =>
      if c =? QUOTE then
        match rest with
        | c' :: rest' =>
            if c' =? QUOTE then
              match literal_body rest' with
              | Some (body, after) => Some (QUOTE :: QUOTE :: body, after)
              | None => None
              end
            else Some ([], rest)
        | [] => Some ([], [])
        end
      else
        match literal_body rest with
        | Some (body, after) => Some (c :: body, after)
        | None => None
        end
  end.

(** Un-doubles every doubled quote of a raw literal body. *)
Fixpoint undouble (s : pystr) : pystr :=
  match s with
  | [] => []
  | c :: rest =>
      match rest with
      | c' :: rest' =>
          if (c =? QUOTE) && (c' =? QUOTE)
          then QUOTE :: undouble rest'
          else c :: undouble rest
      | [] => [c]
      end
  end.

(** [strip_prefix p s] is the text of [s] after [p], when [s] starts
    with [p]. *)
Fixpoint strip_prefix (p s : pystr) : option pystr :=
  match p, s with
  | [], _ => Some s
  | a :: p', b :: s' => if a =? b then strip_prefix p' s' else None
  | _ :: _, [] => None
  end.

(** [rest] does not go on with a quote. *)
Definition not_quote_next (rest : pystr) : Prop :=
  match rest with
  | [] => True
  | c :: _ => c <> QUOTE
  end.

(** The quoted segments of [s], which must be literals joined by [SEP]
    and closed by [COMPILE_CLOSE].  Every literal uses up at least one
    unit of [fuel]. *)
Fixpoint literals (fuel : nat) (s : pystr) : option (list pystr) :=
  match fuel with
  | O => None
  | S fuel' =>
      match s with
      | [] => None
      | q :: s' =>
          if q =? QUOTE then
            match literal_body s' with
            | None => None
            | Some (body, after) =>
                match strip_prefix SEP after with
                | Some more =>
                    match literals fuel' more with
                    | Some ls => Some (undouble body :: ls)
                    | None => None
                    end
                | None =>
                    if decide (after = COMPILE_CLOSE)
                    then Some [undouble body]
                    else None
                end
            end
          else None
      end
  end.

Definition decode (class_name script : pystr) : option (list pystr) :=
  match strip_prefix (class_name ++ COMPILE_OPEN) script with
  | Some args => literals (length args) args
  | None => None
  end.

End Decoder.

(** *** The textual shape of the compatibility contract

  [<ClassName> compile: ('line1', Character cr asString, 'line2', ...)]
  written out character by character, independently of
  [generate_compilation_script]. *)

Module Shape.

(** A line with every quote character written twice. *)
Fixpoint doubled (line : pystr) : pystr :=
  match line with
  | [] => []
  | c :: rest =>
      if c =? QUOTE then QUOTE :: QUOTE :: doubled rest
      else c :: doubled rest
  end.

(** ['line1', Character cr asString, 'line2', ...] for the lines
    [line1 :: more]. *)
Fixpoint arguments (line1 : pystr) (more : list pystr) : pystr :=
  [QUOTE] ++ doubled line1 ++ [QUOTE] ++
  match more with
  | [] => []
  | line2 :: more' =>
      py ", Character cr asString, " ++ arguments line2 more'
  end.

Definition compile_expression (class_name : pystr) (lines : list pystr) : pystr :=
  class_name ++ py " compile: (" ++
  match lines with
  | [] => []
  | line1 :: more => arguments line1 more
  end ++ py ")".

End Shape.

(* ===================================================================== *)
(** ** Exceptions and results                                            *)
(* ===================================================================== *)

Module Exc.

(** The part of Python's exception hierarchy the source depends on:
    [except Exception] handles every class below [Exception], and none
    of the four classes that derive from [BaseException] directly. *)
Inductive ExcClass :=
| ExceptionSubclass (name : string)
| CancelledError
| KeyboardInterrupt
| SystemExit
| GeneratorExit.

(** A raised exception: its class and [str(e)]. *)
Record PyExc := mkExc { exc_class : ExcClass; exc_str : pystr }.

(** [isinstance(e, Exception)] *)
Definition is_Exception (e : PyExc) : bool :=
  match exc_class e with
  | ExceptionSubclass _ => true
  | _ => false
  end.

(** What evaluating a Python expression gives: a value, or an exception
    on its way up. *)
Inductive Outcome (A : Type) :=
| Returns (a : A)
| Raises (e : PyExc).
Arguments Returns {A} a.
Arguments Raises {A} e.

Definition ValueError (msg : string) : PyExc :=
  mkExc (ExceptionSubclass "ValueError") (py msg).

End Exc.

Import Exc.

(* ===================================================================== *)
(** ** Settings ([app/config.py])                                        *)
(* ===================================================================== *)

Module Config.

(** The settings the agent service reads. *)
Record Settings := mkSettings {
  model_id : pystr;
  pharo_server_url : pystr;
  pharo_mcp_server_command : pystr;
  pharo_mcp_server_args : list pystr;
  pharo_mcp_server_cwd : pystr;
  pharo_mcp_timeout : Z;
  max_validation_iterations : Z
}.

(** The defaults of the class body. *)
Definition default_settings : Settings := {|
  model_id := py "gemini-3-pro-preview";
  pharo_server_url := py "http://localhost:8086";
  pharo_mcp_server_command := py "uv";
  pharo_mcp_server_args := [py "run"; py "pharo-smalltalk-interop-mcp-server"];
  pharo_mcp_server_cwd := [];
  pharo_mcp_timeout := 30;
  max_validation_iterations := 3
|}.

Definition COMMA : N := 44.

(** A value as a validator in mode [before] gets it: a string from the
    environment, or a value that is no string, here a list. *)
Inductive RawValue :=
| RawStr (s : pystr)
| RawList (items : list pystr).

(** [Settings.parse_cors_origins] *)
Definition parse_cors_origins (v : RawValue) : RawValue :=
  match v with
  | RawStr s => RawList (List.map (fun origin => strip origin) (split COMMA s))
  | RawList _ => v
  end.

(** [Settings.parse_cors_methods] *)
Definition parse_cors_methods (v : RawValue) : RawValue :=
  match v with
  | RawStr s => RawList (List.map (fun method => strip method) (split COMMA s))
  | RawList _ => v
  end.

(** [Settings.parse_cors_headers] *)
Definition parse_cors_headers (v : RawValue) : RawValue :=
  match v with
  | RawStr s => RawList (List.map (fun header => strip header) (split COMMA s))
  | RawList _ => v
  end.

End Config.

Import Config.

(* ===================================================================== *)
(** ** Request validation ([app/models.py])                              *)
(* ===================================================================== *)

Module Models.

Record RefactorRequest := mkRequest {
  class_name : pystr;
  method_name : pystr
}.

(** [RefactorRequest.validate_not_empty] *)
Definition validate_not_empty (v : pystr) : Outcome pystr :=
  match strip v with
  | [] => Raises (ValueError "Field cannot be empty or whitespace only")
  | _ :: _ => Returns (strip v)
  end.

(** One field: the [min_length=1] constraint of [Field], then the
    field validator, which runs after it. *)
Definition validate_field (v : pystr) : Outcome pystr :=
  if (length v <? 1)%nat
  then Raises (ValueError "String should have at least 1 character")
  else validate_not_empty v.

(** Building a [RefactorRequest] from the raw fields: every field is
    validated and the errors of all fields are reported together. *)
Definition RefactorRequest_validate (raw_class raw_method : pystr)
  : list PyExc + RefactorRequest :=
  match validate_field raw_class, validate_field raw_method with
  | Returns c, Returns m => inr (mkRequest c m)
  | Raises e1, Returns _ => inl [e1]
  | Returns _, Raises e2 => inl [e2]
  | Raises e1, Raises e2 => inl [e1; e2]
  end.

End Models.

(* ===================================================================== *)
(** ** The local tools ([save_context], [exit_validation_loop])          *)
(* ===================================================================== *)

Module Tools.

(** [tool_context.actions]: the escalate flag starts unset. *)
Record EventActions := mkActions { escalate : option bool }.

(** [tool_context.session]: the state dictionary shared by the stages
    of one run. *)
Record Session := mkSession { state : gmap string pystr }.

(** A tool context.  [None] in a field says that the object has no such
    attribute.  [agent_name] names the agent on whose behalf the tool
    is called; the tools do not read it. *)
Record ToolContext := mkToolContext {
  agent_name : string;
  actions : option EventActions;
  session : option Session
}.

(** [AgentService.save_context].  The argument is [None] for a falsy
    [tool_context]; the first component of the result is the argument
    after the call. *)
Definition save_context (tool_context : option ToolContext)
    (class_name method_name : pystr) : option ToolContext * pystr :=
  match tool_context with
  | Some tc =>
      match session tc with
      | Some ses =>
          let st := <["class_name" := class_name]> (state ses) in
          let st := <["method_name" := method_name]> st in
          (Some (mkToolContext (agent_name tc) (actions tc)
                   (Some (mkSession st))),
           py "Context saved. Class: " ++ class_name
             ++ py ", Method: " ++ method_name)
      | None =>
          (tool_context, py "Error: Could not save context (missing session).")
      end
  | None => (tool_context, py "Error: Could not save context (missing session).")
  end.

(** The [dict[str, str]] a tool returns, in insertion order. *)
Definition status_dict (status message : string) : list (string * pystr) :=
  [("status"%string, py status); ("message"%string, py message)].

(** [AgentService.exit_validation_loop] *)
Definition exit_validation_loop (tool_context : option ToolContext)
  : option ToolContext * list (string * pystr) :=
  match tool_context with
  | Some tc =>
      match actions tc with
      | Some _ =>
          (Some (mkToolContext (agent_name tc)
                   (Some (mkActions (Some true))) (session tc)),
           status_dict "approved" "Code validated. Exiting validation loop.")
      | None =>
          (tool_context,
           status_dict "error" "Failed to exit loop: tool_context missing.")
      end
  | None =>
      (tool_context,
       status_dict "error" "Failed to exit loop: tool_context missing.")
  end.

(** Whether the escalate flag of a tool context is set. *)
Definition escalated (tool_context : option ToolContext) : bool :=
  match tool_context with
  | Some tc =>
      match actions tc with
      | Some a => match escalate a with Some true => true | _ => false end
      | None => false
      end
  | None => false
  end.

End Tools.

(* ===================================================================== *)
(** ** The agents and their composition ([_create_pipeline])             *)
(* ===================================================================== *)

Module Agents.

(** The connection parameters [_init_toolset] hands to the tool set. *)
Record Toolset := mkToolset {
  command : pystr;
  args : list pystr;
  env_PHARO_SERVER_URL : pystr;
  cwd : pystr;
  timeout : Z
}.

Inductive Tool :=
| McpTool (toolset : Toolset)
| SaveContextTool
| ExitValidationLoopTool
| GenerateCompilationScriptTool.

(** An agent description.  [reads] lists the state keys the instruction
    template of an agent refers to in braces. *)
#[warnings="-register-all"]
Inductive Agent :=
| LlmAgent (name : string) (reads : list string) (tools : list Tool)
    (output_key : string)
| SequentialAgent (name : string) (sub_agents : list Agent)
| LoopAgent (name : string) (sub_agents : list Agent) (max_iterations : Z).

Definition make_toolset (settings : Settings) : Toolset := {|
  command := pharo_mcp_server_command settings;
  args := pharo_mcp_server_args settings;
  env_PHARO_SERVER_URL := pharo_server_url settings;
  cwd := pharo_mcp_server_cwd settings;
  timeout := pharo_mcp_timeout settings
|}.

Definition _create_reviewer_agent (toolset : Toolset) : Agent :=
  LlmAgent "ReviewerAgent" [] [McpTool toolset; SaveContextTool] "code_review".

Definition _create_initial_writer_agent : Agent :=
  LlmAgent "InitialWriterAgent" ["code_review"%string] [] "refactored_code".

Definition _create_validator_agent (toolset : Toolset) : Agent :=
  LlmAgent "ValidatorAgent" ["refactored_code"%string] [McpTool toolset]
    "validation_result".

Definition _create_refiner_agent : Agent :=
  LlmAgent "RefinerAgent"
    ["refactored_code"%string; "validation_result"%string]
    [ExitValidationLoopTool] "refactored_code".

Definition _create_release_agent (toolset : Toolset) : Agent :=
  LlmAgent "ReleaseAgent" ["class_name"%string; "refactored_code"%string]
    [McpTool toolset; GenerateCompilationScriptTool] "release_status".

(** [_create_pipeline], given the tool set [_init_toolset] returned. *)
Definition _create_pipeline (settings : Settings) (toolset : Toolset) : Agent :=
  let reviewer_agent := _create_reviewer_agent toolset in
  let initial_writer_agent := _create_initial_writer_agent in
  let validator_agent := _create_validator_agent toolset in
  let refiner_agent := _create_refiner_agent in
  let release_agent := _create_release_agent toolset in
  let validation_loop :=
    LoopAgent "ValidationLoop" [validator_agent; refiner_agent]
      (max_validation_iterations settings) in
  SequentialAgent "PharoRefactoringPipeline"
    [reviewer_agent; initial_writer_agent; validation_loop; release_agent].

(** [occurs a n]: an agent named [n] is [a] or one of its descendants. *)
Fixpoint occurs (a : Agent) (n : string) : bool :=
  match a with
  | LlmAgent m _ _ _ => String.eqb m n
  | SequentialAgent m subs =>
      String.eqb m n || existsb (fun s => occurs s n) subs
  | LoopAgent m subs _ =>
      String.eqb m n || existsb (fun s => occurs s n) subs
  end.

(** [in_loop_context a n]: the agent named [n] runs below a loop of the
    agent tree [a]. *)
Fixpoint in_loop_context (a : Agent) (n : string) : bool :=
  match a with
  | LlmAgent _ _ _ _ => false
  | SequentialAgent _ subs => existsb (fun s => in_loop_context s n) subs
  | LoopAgent _ subs _ => existsb (fun s => occurs s n) subs
  end.

(** The parts of an agent description; a composite agent has no
    instruction and no tools of its own. *)
Definition name_of (a : Agent) : string :=
  match a with
  | LlmAgent n _ _ _ => n
  | SequentialAgent n _ => n
  | LoopAgent n _ _ => n
  end.

Definition reads_of (a : Agent) : list string :=
  match a with LlmAgent _ reads _ _ => reads | _ => [] end.

Definition tools_of (a : Agent) : list Tool :=
  match a with LlmAgent _ _ tools _ => tools | _ => [] end.

(** The LLM agents of a tree, in the order of the lists of sub-agents. *)
Fixpoint llm_agents (a : Agent) : list Agent :=
  match a with
  | LlmAgent _ _ _ _ => [a]
  | SequentialAgent _ subs => flat_map llm_agents subs
  | LoopAgent _ subs _ => flat_map llm_agents subs
  end.

(** The state keys [save_context] writes. *)
Definition save_context_keys : list string :=
  ["class_name"%string; "method_name"%string].

Definition is_save_context (t : Tool) : bool :=
  match t with SaveContextTool => true | _ => false end.

(** The state keys the agents of [before] can have written: their
    output keys and, for an agent that holds [save_context], the keys of
    that tool. *)
Definition keys_written (before : list Agent) : list string :=
  flat_map (fun a =>
              match a with
              | LlmAgent _ _ tools output_key =>
                  output_key
                  :: (if existsb is_save_context tools
                      then save_context_keys else [])
              | _ => []
              end) before.

End Agents.

Import Agents.

(* ===================================================================== *)
(** ** Running a pipeline                                                *)
(* ===================================================================== *)

(** The classes [Agent], [SequentialAgent], [LoopAgent] and
    [InMemoryRunner] come from the agent framework the service imports;
    the repository holds their callers only.  This module gives them the
    behaviour the specification describes for Stage, Bounded Refinement
    Loop and Pipeline. *)

Module Adk.

Import Tools.

(** The states of the loop.  ITERATING is the state of a loop that goes
    on; a run records the state in which a loop ended. *)
Inductive LoopState := ITERATING | EXITED | CAPPED.

(** What a run leaves in its journal: every stage that was started, and
    how every loop ended. *)
Inductive RunEvent :=
| StageRan (name : string)
| LoopEnded (name : string) (st : LoopState) (iterations : nat).

(** The context of one run: the prompt, the blackboard, the run-scoped
    actions with the escalate flag, and the journal. *)
Record RunCtx := mkRunCtx {
  prompt : pystr;
  blackboard : gmap string pystr;
  run_actions : EventActions;
  journal : list RunEvent
}.

(** The tool calls a language model can make during its turn. *)
Inductive ToolCall :=
| CallRemote (operation : string) (arguments : list pystr)
| CallSaveContext (class_name method_name : pystr)
| CallExitValidationLoop
| CallGenerateCompilationScript (class_name code : pystr).

(** One turn of the language model behind a stage: the tools it calls, in
    order, and the text it ends with ([None]: no text), unless it fails. *)
Record Turn := mkTurn {
  calls : list ToolCall;
  produced : Outcome (option pystr)
}.

(** The language model is a black box: any function from the role, the
    prompt and the blackboard to a turn. *)
Definition Oracle : Type := string -> pystr -> gmap string pystr -> Turn.

(** A run step: the exception that aborted it, if any, and the context
    it leaves. *)
Definition Run : Type := RunCtx -> option PyExc * RunCtx.

Definition fresh (user_prompt : pystr) : RunCtx :=
  mkRunCtx user_prompt ∅ (mkActions None) [].

Definition log (ev : RunEvent) (ctx : RunCtx) : RunCtx :=
  mkRunCtx (prompt ctx) (blackboard ctx) (run_actions ctx) (journal ctx ++ [ev]).

Definition set_key (key : string) (value : pystr) (ctx : RunCtx) : RunCtx :=
  mkRunCtx (prompt ctx) (<[key := value]> (blackboard ctx)) (run_actions ctx)
    (journal ctx).

Definition escalate_flag (ctx : RunCtx) : bool :=
  match escalate (run_actions ctx) with
  | Some true => true
  | _ => false
  end.

Definition StageExecutionError (role : string) (msg : pystr) : PyExc :=
  mkExc (ExceptionSubclass "StageExecutionError") (py role ++ py ": " ++ msg).

Definition is_mcp (t : Tool) : bool :=
  match t with McpTool _ => true | _ => false end.
Definition is_save_context (t : Tool) : bool :=
  match t with SaveContextTool => true | _ => false end.
Definition is_exit_validation_loop (t : Tool) : bool :=
  match t with ExitValidationLoopTool => true | _ => false end.
Definition is_generate_compilation_script (t : Tool) : bool :=
  match t with GenerateCompilationScriptTool => true | _ => false end.

(** A stage can call the tools it was built with only. *)
Definition available (tools : list Tool) (c : ToolCall) : bool :=
  match c with
  | CallRemote _ _ => existsb is_mcp tools
  | CallSaveContext _ _ => existsb is_save_context tools
  | CallExitValidationLoop => existsb is_exit_validation_loop tools
  | CallGenerateCompilationScript _ _ =>
      existsb is_generate_compilation_script tools
  end.

(** The tool context a stage hands to its tools shares the session state
    and the actions of the run. *)
Definition tool_context_of (role : string) (ctx : RunCtx) : option ToolContext :=
  Some (mkToolContext role (Some (run_actions ctx))
          (Some (mkSession (blackboard ctx)))).

(** What a tool did to the shared objects is visible to the run. *)
Definition absorb (tc : option ToolContext) (ctx : RunCtx) : RunCtx :=
  match tc with
  | Some t =>
      mkRunCtx (prompt ctx)
        (match session t with Some s => state s | None => blackboard ctx end)
        (match actions t with Some a => a | None => run_actions ctx end)
        (journal ctx)
  | None => ctx
  end.

(** The effect of one tool call on the run.  The remote operations and
    the encoder leave the run context as it is. *)
Definition perform (role : string) (ctx : RunCtx) (c : ToolCall) : RunCtx :=
  match c with
  | CallSaveContext class_name method_name =>
      absorb (fst (save_context (tool_context_of role ctx) class_name method_name)) ctx
  | CallExitValidationLoop =>
      absorb (fst (exit_validation_loop (tool_context_of role ctx))) ctx
  | CallRemote _ _ => ctx
  | CallGenerateCompilationScript _ _ => ctx
  end.

Section WithOracle.

Variable oracle : Oracle.

(** Modelled from the spec: the Stage contract of the agent framework's
    [Agent] class, which is not part of the repository.  A stage renders
    its template (a key it reads must be on the blackboard), lets the
    language model take its turn with the stage's tools, and stores the
    text produced under the output key; any failure aborts the stage with
    an error that carries the role name. *)
Definition run_stage (role : string) (reads : list string)
    (tools : list Tool) (output_key : string) : Run := fun ctx =>
  let ctx := log (StageRan role) ctx in
  match List.find (fun k => bool_decide (blackboard ctx !! k = None)) reads with
  | Some k =>
      (Some (StageExecutionError role (py "MissingContext: " ++ py k)), ctx)
  | None =>
      let turn := oracle role (prompt ctx) (blackboard ctx) in
      if forallb (available tools) (calls turn) then
        let ctx := fold_left (perform role) (calls turn) ctx in
        match produced turn with
        | Raises e => (Some (StageExecutionError role (exc_str e)), ctx)
        | Returns None => (None, ctx)
        | Returns (Some text) => (None, set_key output_key text ctx)
        end
      else (Some (StageExecutionError role (py "tool not available")), ctx)
  end.

(** Modelled from the spec: the Pipeline contract of the agent
    framework's [SequentialAgent], which is not part of the repository.
    The steps run in order; the first failure aborts the rest. *)
Fixpoint run_sequence (steps : list Run) : Run := fun ctx =>
  match steps with
  | [] => (None, ctx)
  | step :: more =>
      match step ctx with
      | (Some e, ctx') => (Some e, ctx')
      | (None, ctx') => run_sequence more ctx'
      end
  end.

(** Modelled from the spec: the Bounded Refinement Loop state machine of
    the agent framework's [LoopAgent], which is not part of the
    repository.  While ITERATING the loop runs its body and increments the
    counter; the escalate flag is looked at after each full iteration and
    leads to EXITED; when the counter has reached the maximum the loop is
    CAPPED.  [remaining] is the maximum minus the counter. *)
Fixpoint run_loop (name : string) (body : Run) (remaining counter : nat)
  : Run := fun ctx =>
  match remaining with
  | O => (None, log (LoopEnded name CAPPED counter) ctx)
  | S remaining' =>
      match body ctx with
      | (Some e, ctx') => (Some e, ctx')
      | (None, ctx') =>
          if escalate_flag ctx'
          then (None, log (LoopEnded name EXITED (S counter)) ctx')
          else run_loop name body remaining' (S counter) ctx'
      end
  end.

(** Modelled from the spec: running an agent tree built from the agent
    framework's classes, each node by the contract above. *)
Fixpoint run_agent (a : Agent) : Run :=
  match a with
  | LlmAgent role reads tools output_key =>
      run_stage role reads tools output_key
  | SequentialAgent _ sub_agents =>
      run_sequence (List.map run_agent sub_agents)
  | LoopAgent name sub_agents max_iterations =>
      run_loop name (run_sequence (List.map run_agent sub_agents))
        (Z.to_nat max_iterations) 0
  end.

(** Modelled from the spec: [InMemoryRunner(agent).run_debug(prompt)] of
    the agent framework, which is not part of the repository.  The
    pipeline runs against a fresh blackboard; the result is the final
    context, or the error that aborted the run. *)
Definition run_debug (agent : Agent) (user_prompt : pystr) : Outcome RunCtx :=
  match run_agent agent (fresh user_prompt) with
  | (None, ctx) => Returns ctx
  | (Some e, _) => Raises e
  end.

End WithOracle.

(** *** What the stages are expected to do

    The language model is free to do anything; these predicates say what
    a turn looks like when a stage keeps to its role. *)

Definition is_remote (c : ToolCall) : bool :=
  match c with CallRemote _ _ => true | _ => false end.

Definition remote_only (cs : list ToolCall) : bool := forallb is_remote cs.

(** The reviewer records the identity first, may fetch the source, and
    produces a review. *)
Definition reviewer_does_its_part (turn : Turn) : Prop :=
  exists class_name method_name more review,
    calls turn = CallSaveContext class_name method_name :: more
    /\ remote_only more = true
    /\ produced turn = Returns (Some review).

(** The initial writer calls no tool and produces code. *)
Definition writer_does_its_part (turn : Turn) : Prop :=
  calls turn = [] /\ exists code, produced turn = Returns (Some code).

(** The validator asks for an improvement. *)
Definition validator_needs_improvement (turn : Turn) : Prop :=
  remote_only (calls turn) = true
  /\ exists text,
       produced turn = Returns (Some text)
       /\ startswith text (py "NEEDS IMPROVEMENT") = true.

(** The refiner leaves the loop on an approval and writes nothing then;
    otherwise it produces improved code. *)
Definition refiner_does_its_part (bb : gmap string pystr) (turn : Turn) : Prop :=
  match bb !! "validation_result" with
  | Some verdict =>
      if startswith verdict (py "APPROVED")
      then turn = mkTurn [CallExitValidationLoop] (Returns None)
      else calls turn = [] /\ exists code, produced turn = Returns (Some code)
  | None => True
  end.

(** How often the stage [role] was started, according to a journal. *)
Definition stage_runs (role : string) (j : list RunEvent) : nat :=
  length (List.filter
            (fun ev => match ev with
                       | StageRan r => String.eqb r role
                       | LoopEnded _ _ _ => false
                       end) j).

(** The journal of [n] iterations of the validation loop. *)
Fixpoint iterations (n : nat) : list RunEvent :=
  match n with
  | O => []
  | S n' => StageRan "ValidatorAgent" :: StageRan "RefinerAgent" :: iterations n'
  end.

(** The state the loop works in: the code and the class name are on the
    blackboard and nobody asked to leave the loop. *)
Definition ready (ctx : RunCtx) : Prop :=
  is_Some (blackboard ctx !! "refactored_code")
  /\ is_Some (blackboard ctx !! "class_name")
  /\ escalate_flag ctx = false.

(** [r] starts the stage [role] at most [b] times and only adds to the
    journal. *)
Definition starts_at_most (role : string) (b : nat) (r : Run) : Prop :=
  forall ctx, exists ext,
    journal (snd (r ctx)) = journal ctx ++ ext
    /\ (stage_runs role ext <= b)%nat.

(** A language model whose validator is never satisfied. *)
Definition stubborn_oracle : Oracle := fun role _ bb =>
  if String.eqb role "ReviewerAgent" then
    mkTurn [CallSaveContext (py "Calculator") (py "sum:with:");
            CallRemote "get_method_source" [py "Calculator"; py "sum:with:"]]
      (Returns (Some (py "Severity: LOW")))
  else if String.eqb role "InitialWriterAgent" then
    mkTurn [] (Returns (Some (py "sum: a with: b ^ a + b")))
  else if String.eqb role "ValidatorAgent" then
    mkTurn [] (Returns (Some (py "NEEDS IMPROVEMENT: rename a and b")))
  else if String.eqb role "RefinerAgent" then
    match bb !! "validation_result" with
    | Some verdict =>
        if startswith verdict (py "APPROVED")
        then mkTurn [CallExitValidationLoop] (Returns None)
        else mkTurn [] (Returns (Some (py "sum: left with: right ^ left + right")))
    | None => mkTurn [] (Returns None)
    end
  else
    mkTurn [CallGenerateCompilationScript (py "Calculator") (py "sum: left with: right");
            CallRemote "eval" []]
      (Returns (Some (py "RELEASED: sum:with:"))).

(** A language model whose validator is never satisfied either, but
    whose refiner leaves the loop all the same. *)
Definition hasty_oracle : Oracle := fun role p bb =>
  if String.eqb role "RefinerAgent"
  then mkTurn [CallExitValidationLoop] (Returns None)
  else stubborn_oracle role p bb.

End Adk.

(* ===================================================================== *)
(** ** [asyncio.Lock]                                                    *)
(* ===================================================================== *)

Module AsyncLock.

(** The future a waiting [acquire] is suspended on. *)
Inductive FutState := FutPending | FutResult | FutCancelled.

Record Waiter := mkWaiter { waiter_task : nat; waiter_fut : FutState }.

(** [_locked] and the queue [_waiters], oldest first. *)
Record Lock := mkLock { _locked : bool; _waiters : list Waiter }.

Definition new_lock : Lock := mkLock false [].

Definition locked (l : Lock) : bool := _locked l.

Definition fut_done (f : FutState) : bool :=
  match f with FutPending => false | _ => true end.

Definition fut_cancelled (f : FutState) : bool :=
  match f with FutCancelled => true | _ => false end.

(** The test at the head of [acquire]: the lock is free and nobody who is
    still interested waits for it. *)
Definition free_for_newcomer (l : Lock) : bool :=
  negb (_locked l) && forallb (fun w => fut_cancelled (waiter_fut w)) (_waiters l).

Definition take (l : Lock) : Lock := mkLock true (_waiters l).

Definition enqueue (t : nat) (l : Lock) : Lock :=
  mkLock (_locked l) (_waiters l ++ [mkWaiter t FutPending]).

Definition dequeue (t : nat) (l : Lock) : Lock :=
  mkLock (_locked l)
    (List.filter (fun w => negb (Nat.eqb (waiter_task w) t)) (_waiters l)).

(** [_wake_up_first]: the first waiter gets its result, unless its future
    is done already. *)
Definition _wake_up_first (l : Lock) : Lock :=
  match _waiters l with
  | [] => l
  | w :: ws =>
      if fut_done (waiter_fut w) then l
      else mkLock (_locked l) (mkWaiter (waiter_task w) FutResult :: ws)
  end.

(** [release] *)
Definition release (l : Lock) : Outcome Lock :=
  if _locked l
  then Returns (_wake_up_first (mkLock false (_waiters l)))
  else Raises (mkExc (ExceptionSubclass "RuntimeError") (py "Lock is not acquired.")).

(** The future of task [t] in the queue. *)
Definition fut_of (t : nat) (l : Lock) : option FutState :=
  match List.find (fun w => Nat.eqb (waiter_task w) t) (_waiters l) with
  | Some w => Some (waiter_fut w)
  | None => None
  end.

(** Cancelling a pending future. *)
Definition cancel_fut (t : nat) (l : Lock) : Lock :=
  mkLock (_locked l)
    (List.map (fun w => if Nat.eqb (waiter_task w) t
                        then mkWaiter t FutCancelled else w) (_waiters l)).

End AsyncLock.

Import AsyncLock.

(* ===================================================================== *)
(** ** The single-flight executor ([AgentService])                       *)
(* ===================================================================== *)

Module Executor.

Import Adk.

(** The values of the result dictionary. *)
Inductive PyVal :=
| VBool (b : bool)
| VStr (s : pystr)
| VResponse (r : RunCtx).

(** The outside world of the service: building the tool set and running
    a pipeline can each fail, with any exception. *)
Record Env := mkEnv {
  McpToolset : Toolset -> Outcome Toolset;
  runner_run_debug : Agent -> pystr -> Outcome RunCtx
}.

Record AgentService := mkService {
  settings : Settings;
  _toolset : option Toolset;
  _pipeline : option Agent;
  _lock : Lock
}.

(** [AgentService.__init__] *)
Definition new_service (settings : Settings) : AgentService :=
  mkService settings None None new_lock.

Definition with_lock (l : Lock) (svc : AgentService) : AgentService :=
  mkService (settings svc) (_toolset svc) (_pipeline svc) l.

(** [_init_toolset] *)
Definition _init_toolset (env : Env) (svc : AgentService)
  : Outcome Toolset * AgentService :=
  match _toolset svc with
  | Some ts => (Returns ts, svc)
  | None =>
      match McpToolset env (make_toolset (settings svc)) with
      | Returns ts =>
          (Returns ts, mkService (settings svc) (Some ts) (_pipeline svc) (_lock svc))
      | Raises e => (Raises e, svc)
      end
  end.

(** [get_pipeline], with [_create_pipeline] behind it. *)
Definition get_pipeline (env : Env) (svc : AgentService)
  : Outcome Agent * AgentService :=
  match _pipeline svc with
  | Some p => (Returns p, svc)
  | None =>
      match _init_toolset env svc with
      | (Returns ts, svc') =>
          let p := _create_pipeline (settings svc') ts in
          (Returns p, mkService (settings svc') (_toolset svc') (Some p) (_lock svc'))
      | (Raises e, svc') => (Raises e, svc')
      end
  end.

Definition make_prompt (class_name method_name : pystr) : pystr :=
  py "Review and refactor the method '" ++ method_name
  ++ py "' in class '" ++ class_name ++ py "'.".

Definition success_record (class_name method_name : pystr) (response : RunCtx)
  : gmap string PyVal :=
  <["result" := VResponse response]>
    (<["method_name" := VStr method_name]>
       (<["class_name" := VStr class_name]>
          (<["success" := VBool true]> ∅))).

Definition failure_record (class_name method_name : pystr) (e : PyExc)
  : gmap string PyVal :=
  <["error" := VStr (exc_str e)]>
    (<["method_name" := VStr method_name]>
       (<["class_name" := VStr class_name]>
          (<["success" := VBool false]> ∅))).

(** The [except Exception as e] clause: what it does with an exception
    raised in the [try] block. *)
Definition except_Exception (class_name method_name : pystr) (e : PyExc)
  : Outcome (gmap string PyVal) :=
  if is_Exception e
  then Returns (failure_record class_name method_name e)
  else Raises e.

(** Where a call stands when it gives up control inside the lock. *)
Inductive Progress :=
| AwaitingRun (pipeline : Agent) (user_prompt : pystr)
| Ended (result : Outcome (gmap string PyVal)).

(** The [try] block up to [await runner.run_debug(prompt)]. *)
Definition try_begin (env : Env) (class_name method_name : pystr)
    (svc : AgentService) : Progress * AgentService :=
  let prompt := make_prompt class_name method_name in
  match get_pipeline env svc with
  | (Returns pipeline, svc') => (AwaitingRun pipeline prompt, svc')
  | (Raises e, svc') => (Ended (except_Exception class_name method_name e), svc')
  end.

(** The [try] statement from the end of [run_debug] on. *)
Definition try_end (class_name method_name : pystr) (o : Outcome RunCtx)
  : Outcome (gmap string PyVal) :=
  match o with
  | Returns response => Returns (success_record class_name method_name response)
  | Raises e => except_Exception class_name method_name e
  end.

(** Leaving [async with self._lock]: the lock is released, and the
    result of the body goes on to the caller. *)
Definition leave_lock (result : Outcome (gmap string PyVal))
    (svc : AgentService) : Outcome (gmap string PyVal) * AgentService :=
  match release (_lock svc) with
  | Returns l => (result, with_lock l svc)
  | Raises e => (Raises e, svc)
  end.

(** [refactor_method], for a caller that gets the lock at once and runs
    undisturbed.  [None]: the lock is not free, the caller has to wait
    (module [System] follows it there). *)
Definition refactor_method (env : Env) (class_name method_name : pystr)
    (svc : AgentService)
  : option (Outcome (gmap string PyVal) * AgentService) :=
  if free_for_newcomer (_lock svc) then
    let svc := with_lock (take (_lock svc)) svc in
    match try_begin env class_name method_name svc with
    | (AwaitingRun pipeline prompt, svc') =>
        let o := runner_run_debug env pipeline prompt in
        Some (leave_lock (try_end class_name method_name o) svc')
    | (Ended result, svc') => Some (leave_lock result svc')
    end
  else None.

(** What the [try] block of [refactor_method] meets: the response of the
    pipeline run, or the exception raised on the way to it. *)
Definition try_outcome (env : Env) (class_name method_name : pystr)
    (svc : AgentService) : Outcome RunCtx :=
  match get_pipeline env svc with
  | (Returns pipeline, _) =>
      runner_run_debug env pipeline (make_prompt class_name method_name)
  | (Raises e, _) => Raises e
  end.


(** The world in which pipelines are run by the agent framework, with
    [oracle] as the language model. *)
Definition oracle_env (oracle : Oracle) : Env :=
  mkEnv Returns (run_debug oracle).

(** A world in which the pipeline run fails with an error. *)
Definition failing_env : Env :=
  mkEnv Returns (fun _ _ => Raises (ValueError "NotFound: Calculator>>sum:with:")).

(** A world in which the pipeline run is cancelled. *)
Definition cancelling_env : Env :=
  mkEnv Returns (fun _ _ => Raises (mkExc CancelledError [])).

(** [is_busy] *)
Definition is_busy (svc : AgentService) : bool := locked (_lock svc).

End Executor.

Import Executor.

(* ===================================================================== *)
(** ** Several callers on one event loop                                 *)
(* ===================================================================== *)

(** Coroutines on an event loop run one at a time and give up control at
    an [await] only.  A call of [refactor_method] therefore runs in up to
    three uninterrupted pieces: from the call to the first suspension
    (waiting for the lock, or for the pipeline run), from the wake-up by
    the lock to the pipeline run, and from the end of the pipeline run to
    the return. *)

Module System.

Import Adk.

(** Where a call of [refactor_method] stands.  [Waiting]: suspended in
    [Lock.acquire] on its future in the queue; [must_cancel] is set when
    the task was cancelled after the future had got its result.
    [Inside]: holding the lock, suspended in
    [await runner.run_debug(prompt)].  [Finished]: back at the caller,
    with a value or an exception. *)
Inductive Task :=
| Waiting (class_name method_name : pystr) (must_cancel : bool)
| Inside (class_name method_name : pystr) (pipeline : Agent) (user_prompt : pystr)
| Finished (result : Outcome (gmap string PyVal)).

Record State := mkState {
  service : AgentService;
  tasks : gmap nat Task
}.

Definition initial (settings : Settings) : State :=
  mkState (new_service settings) ∅.

(** What the scheduler and the outside world can do next: a new call; a
    waiting task whose future is done runs on; the pipeline run of the
    task inside ends, with any outcome (a cancellation of that task is
    the outcome [CancelledError]); a waiting task is cancelled. *)
Inductive Label :=
| Call (t : nat) (class_name method_name : pystr)
| Resume (t : nat)
| Complete (t : nat) (o : Outcome RunCtx)
| Cancel (t : nat).

(** The body of [async with], entered with the lock taken. *)
Definition enter (env : Env) (class_name method_name : pystr)
    (svc : AgentService) : AgentService * Task :=
  match try_begin env class_name method_name svc with
  | (AwaitingRun pipeline prompt, svc') =>
      (svc', Inside class_name method_name pipeline prompt)
  | (Ended result, svc') =>
      let '(r, svc'') := leave_lock result svc' in
      (svc'', Finished r)
  end.

(** The cancellation handler of [Lock.acquire]: the future leaves the
    queue, the next waiter is woken if the lock is free, and the
    cancellation goes on to the caller. *)
Definition abandon (t : nat) (svc : AgentService) : AgentService * Task :=
  let l := dequeue t (_lock svc) in
  let l := if locked l then l else _wake_up_first l in
  (with_lock l svc, Finished (Raises (mkExc CancelledError []))).

(** One uninterrupted piece of one task.  [None]: the label is not
    possible in the state. *)
Definition step (env : Env) (lbl : Label) (s : State) : option State :=
  match lbl with
  | Call t class_name method_name =>
      match tasks s !! t with
      | Some _ => None
      | None =>
          if free_for_newcomer (_lock (service s)) then
            let '(svc, task) :=
              enter env class_name method_name
                (with_lock (take (_lock (service s))) (service s)) in
            Some (mkState svc (<[t := task]> (tasks s)))
          else
            Some (mkState (with_lock (enqueue t (_lock (service s))) (service s))
                    (<[t := Waiting class_name method_name false]> (tasks s)))
      end
  | Resume t =>
      match tasks s !! t with
      | Some (Waiting class_name method_name must_cancel) =>
          match fut_of t (_lock (service s)) with
          | Some FutResult =>
              if must_cancel then
                let '(svc, task) := abandon t (service s) in
                Some (mkState svc (<[t := task]> (tasks s)))
              else
                let '(svc, task) :=
                  enter env class_name method_name
                    (with_lock (take (dequeue t (_lock (service s)))) (service s)) in
                Some (mkState svc (<[t := task]> (tasks s)))
          | Some FutCancelled =>
              let '(svc, task) := abandon t (service s) in
              Some (mkState svc (<[t := task]> (tasks s)))
          | _ => None
          end
      | _ => None
      end
  | Complete t o =>
      match tasks s !! t with
      | Some (Inside class_name method_name _ _) =>
          let '(r, svc) :=
            leave_lock (try_end class_name method_name o) (service s) in
          Some (mkState svc (<[t := Finished r]> (tasks s)))
      | _ => None
      end
  | Cancel t =>
      match tasks s !! t with
      | Some (Waiting class_name method_name must_cancel) =>
          match fut_of t (_lock (service s)) with
          | Some FutPending =>
              Some (mkState (with_lock (cancel_fut t (_lock (service s))) (service s))
                      (tasks s))
          | Some FutResult =>
              Some (mkState (service s)
                      (<[t := Waiting class_name method_name true]> (tasks s)))
          | _ => None
          end
      | _ => None
      end
  end.

(** Running a schedule; [None] when a step of it is not possible. *)
Fixpoint run (env : Env) (schedule : list Label) (s : State) : option State :=
  match schedule with
  | [] => Some s
  | lbl :: more =>
      match step env lbl s with
      | Some s' => run env more s'
      | None => None
      end
  end.

Definition reachable (env : Env) (settings : Settings) (s : State) : Prop :=
  exists schedule, run env schedule (initial settings) = Some s.

(** Task [t] is inside the locked section. *)
Definition inside (s : State) (t : nat) : Prop :=
  exists c m p u, tasks s !! t = Some (Inside c m p u).

(** The shared counter of the specification's test: the number of tasks
    inside the locked section. *)
Definition is_inside (task : Task) : bool :=
  match task with Inside _ _ _ _ => true | _ => false end.

Definition inside_count (s : State) : nat :=
  size (filter (fun kv : nat * Task => is_inside (snd kv) = true) (tasks s)).

(** No waiter of [ws] has been woken. *)
Definition not_woken (ws : list Waiter) : Prop :=
  Forall (fun w => waiter_fut w <> FutResult) ws.

(** Only the first waiter can have been woken, and no waiter has been
    woken while the lock is taken. *)
Definition lock_ok (l : Lock) : Prop :=
  not_woken (tail (_waiters l))
  /\ (_locked l = true -> not_woken (_waiters l)).

(** What the lock and the tasks have to do with each other: a task is
    inside the locked section exactly when the lock is taken, and there
    is at most one such task. *)
Record invariant (s : State) : Prop := mkInvariant {
  inv_inside_locked :
    forall t, inside s t -> _locked (_lock (service s)) = true;
  inv_locked_inside :
    _locked (_lock (service s)) = true -> exists t, inside s t;
  inv_unique :
    forall t1 t2, inside s t1 -> inside s t2 -> t1 = t2;
  inv_lock : lock_ok (_lock (service s))
}.


(** The tasks that have a future in the queue of the lock, oldest
    first. *)
Definition queued (l : Lock) : list nat := List.map waiter_task (_waiters l).

(** The future of the first waiter is done: the waiter will run. *)
Definition head_done (l : Lock) : Prop :=
  match _waiters l with
  | [] => True
  | w :: _ => fut_done (waiter_fut w) = true
  end.

(** The queue of the lock and the waiting tasks are the same, and when
    the lock is free the first waiter has been told. *)
Record waiting_invariant (s : State) : Prop := mkWaitingInvariant {
  wi_queued_waits :
    forall t, In t (queued (_lock (service s))) ->
    exists c m b, tasks s !! t = Some (Waiting c m b);
  wi_waiting_queued :
    forall t c m b, tasks s !! t = Some (Waiting c m b) ->
    In t (queued (_lock (service s)));
  wi_head_done :
    _locked (_lock (service s)) = false -> head_done (_lock (service s))
}.

(** The service behind its endpoint.  The endpoint function tests
    [is_busy] and calls [refactor_method] without an [await] between the
    two, so a request is turned away, leaving no trace, or enters
    [refactor_method] in the state the test saw.  The other labels are
    as before. *)
Definition routed_step (env : Env) (lbl : Label) (s : State) : option State :=
  match lbl with
  | Call _ _ _ => if is_busy (service s) then Some s else step env lbl s
  | _ => step env lbl s
  end.

Fixpoint run_routed (env : Env) (schedule : list Label) (s : State)
  : option State :=
  match schedule with
  | [] => Some s
  | lbl :: more =>
      match routed_step env lbl s with
      | Some s' => run_routed env more s'
      | None => None
      end
  end.

Definition routed_reachable (env : Env) (settings : Settings) (s : State) : Prop :=
  exists schedule, run_routed env schedule (initial settings) = Some s.




(** A schedule with two callers: the second waits for the first, is
    woken when the first is done, and then runs itself. *)
Definition two_callers : list Label :=
  [Call 0 (py "Calculator") (py "sum:with:");
   Call 1 (py "Calculator") (py "add:to:");
   Complete 0 (Raises (ValueError "NotFound"));
   Resume 1].

End System.

(* ===================================================================== *)
(** ** The endpoint ([app/routers/refactor.py])                          *)
(* ===================================================================== *)

Module Router.

Import Models.

Inductive Reply :=
| Ok200 (body : gmap string PyVal)
| ValidationError422 (errors : list PyExc)
| AgentExecutionError500 (detail : pystr)
| Unexpected500 (detail : pystr)
| Busy503 (detail : pystr)
| Propagated (e : PyExc)
| Queued.

(** The endpoint function, called with a validated request. *)
Definition refactor_endpoint (env : Env) (refactor_request : RefactorRequest)
    (svc : AgentService) : Reply * AgentService :=
  if is_busy svc then
    (Busy503 (py "Agent is busy processing another request. Please try again later."),
     svc)
  else
    match refactor_method env (class_name refactor_request)
            (method_name refactor_request) svc with
    | None => (Queued, svc)
    | Some (Returns result, svc') =>
        match result !! "success" with
        | Some (VBool true) => (Ok200 result, svc')
        | _ =>
            (AgentExecutionError500
               (py "Refactoring failed: " ++
                match result !! "error" with
                | Some (VStr msg) => msg
                | _ => py "Unknown error"
                end), svc')
        end
    | Some (Raises e, svc') =>
        if is_Exception e
        then (Unexpected500 (py "Unexpected error during refactoring: " ++ exc_str e), svc')
        else (Propagated e, svc')
    end.

(** A POST to [/api/v1/refactor]: the body is validated into a
    [RefactorRequest] before the endpoint function is called; when that
    fails the validation handler answers and the endpoint never runs. *)
Definition post_refactor (env : Env) (raw_class raw_method : pystr)
    (svc : AgentService) : Reply * AgentService :=
  match RefactorRequest_validate raw_class raw_method with
  | inl errors => (ValidationError422 errors, svc)
  | inr refactor_request => refactor_endpoint env refactor_request svc
  end.

End Router.

(* ===================================================================== *)
(** ** The example client ([example_client.py])                          *)
(* ===================================================================== *)

Module Client.

(** What [requests.post] does on one attempt: a response with its status
    code and its body as JSON ([None]: [response.json()] fails), a
    timeout, or another request exception. *)
Inductive PostResult :=
| Responded (status_code : Z) (json : option pystr)
| TimedOut
| RequestFailed (e : pystr).

(** The effects of the client on the world, in order. *)
Inductive Effect :=
| Posted
| Slept (seconds : Z).

(** How [refactor_with_retry] ends: with the JSON of a response, or with
    an exception. *)
Inductive RetryResult :=
| ReturnedJson (json : pystr)
| RaisedJsonError
| RaisedHTTPError (status_code : Z)
| RaisedTimeout
| RaisedRequestException (e : pystr)
| RaisedFailedAfter (max_retries : Z).

(** [response.raise_for_status()] raises for the codes 400 to 599. *)
Definition raises_for_status (status_code : Z) : bool :=
  ((400 <=? status_code) && (status_code <? 600))%Z.

Definition and_then (effects : list Effect) (r : list Effect * RetryResult)
  : list Effect * RetryResult :=
  (effects ++ fst r, snd r).

(** The loop [for attempt in range(max_retries)], from [attempt] on with
    [remaining] rounds to go.  [server k] is what the [k]-th post meets. *)
Fixpoint retry_from (server : nat -> PostResult) (max_retries : Z)
    (remaining attempt : nat) : list Effect * RetryResult :=
  match remaining with
  | O => ([], RaisedFailedAfter max_retries)
  | S remaining' =>
      match server attempt with
      | Responded status_code json =>
          if (status_code =? 200)%Z then
            ([Posted],
             match json with
             | Some j => ReturnedJson j
             | None => RaisedJsonError
             end)
          else if (status_code =? 503)%Z then
            let wait_time := (2 ^ Z.of_nat attempt)%Z in
            and_then [Posted; Slept wait_time]
              (retry_from server max_retries remaining' (S attempt))
          else if raises_for_status status_code then
            ([Posted], RaisedHTTPError status_code)
          else
            and_then [Posted]
              (retry_from server max_retries remaining' (S attempt))
      | TimedOut =>
          if (Z.of_nat attempt <? max_retries - 1)%Z then
            and_then [Posted; Slept (2 ^ Z.of_nat attempt)%Z]
              (retry_from server max_retries remaining' (S attempt))
          else ([Posted], RaisedTimeout)
      | RequestFailed e => ([Posted], RaisedRequestException e)
      end
  end.

(** [refactor_with_retry], against a server. *)
Definition refactor_with_retry (server : nat -> PostResult) (max_retries : Z)
  : list Effect * RetryResult :=
  retry_from server max_retries (Z.to_nat max_retries) 0.

(** The number of posts and the time slept in a list of effects. *)
Definition posts (effects : list Effect) : nat :=
  length (List.filter (fun e => match e with Posted => true | _ => false end)
            effects).

Fixpoint slept (effects : list Effect) : Z :=
  match effects with
  | [] => 0%Z
  | Posted :: more => slept more
  | Slept seconds :: more => (seconds + slept more)%Z
  end.

(** The effects of [n] rounds in which the service is busy, from
    [attempt] on. *)
Fixpoint busy_rounds (n attempt : nat) : list Effect :=
  match n with
  | O => []
  | S n' => Posted :: Slept (2 ^ Z.of_nat attempt)%Z :: busy_rounds n' (S attempt)
  end.

(** A server that is always busy, and one that answers at the third
    post. *)
Definition always_busy : nat -> PostResult := fun _ => Responded 503%Z None.

Definition third_time_lucky : nat -> PostResult := fun k =>
  match k with
  | 0%nat => Responded 503%Z None
  | 1%nat => TimedOut
  | _ => Responded 200%Z (Some (py "{}"))
  end.

End Client.

(* ===================================================================== *)
(** * Properties                                                         *)
(* ===================================================================== *)

(** ** Strings *)

Module PyStrFacts.

(** A non-empty text has at least one line. *)
Lemma splitlines_from_not_nil (s line : pystr) :
  s <> [] \/ line <> [] -> splitlines_from line s <> [].
Proof.
  revert line. induction s as [|c rest IH]; intros line H; simpl.
  - destruct H as [H|H]; [congruence|]. destruct line; congruence.
  - destruct (is_linebreak c); [discriminate|].
    apply IH. right. destruct line; discriminate.
Qed.

Lemma splitlines_not_nil (c : N) (rest : pystr) : splitlines (c :: rest) <> [].
Proof. apply splitlines_from_not_nil. left. discriminate. Qed.

(** No line of [splitlines] holds a line break.  The function steps over
    two characters at a carriage return and line feed, so the induction
    is on a bound of the length. *)
Lemma splitlines_from_no_break (n : nat) :
  forall s line, (length s <= n)%nat -> no_break line ->
  Forall no_break (splitlines_from line s).
Proof.
  induction n as [|n IH]; intros s line Hlen Hline.
  - destruct s; [|simpl in Hlen; lia].
    simpl. destruct line; constructor; [exact Hline | constructor].
  - destruct s as [|c rest]; simpl.
    + destruct line; constructor; [exact Hline | constructor].
    + simpl in Hlen. destruct (is_linebreak c) eqn:Hc.
      * constructor; [exact Hline|].
        destruct rest as [|c' rest']; [constructor|].
        simpl in Hlen.
        destruct ((c =? CR) && (c' =? LF)).
        -- apply IH; [lia | constructor].
        -- apply IH; [simpl; lia | constructor].
      * apply IH; [lia|].
        apply Forall_app. split; [exact Hline|].
        constructor; [exact Hc | constructor].
Qed.

Lemma splitlines_no_break (s : pystr) : Forall no_break (splitlines s).
Proof. apply (splitlines_from_no_break (length s)); [lia | constructor]. Qed.

Lemma join_cons_cons (sep x y : pystr) (l : list pystr) :
  join sep (x :: y :: l) = x ++ sep ++ join sep (y :: l).
Proof. reflexivity. Qed.

End PyStrFacts.

Import PyStrFacts.

(** ** The encoder *)

Module EncoderFacts.

Import Shape Decoder.

Lemma replace_doubled (line : pystr) :
  replace QUOTE [QUOTE; QUOTE] line = doubled line.
Proof.
  unfold replace. induction line as [|c r IH]; simpl; [reflexivity|].
  rewrite IH. destruct (c =? QUOTE) eqn:Hc; [|reflexivity].
  apply N.eqb_eq in Hc. subst c. reflexivity.
Qed.

Lemma join_arguments (line1 : pystr) (more : list pystr) :
  join SEP (List.map pharo_line (line1 :: more)) = arguments line1 more.
Proof.
  revert line1. induction more as [|line2 more IH]; intros line1.
  - simpl. unfold pharo_line. rewrite replace_doubled. reflexivity.
  - change (List.map pharo_line (line1 :: line2 :: more))
      with (pharo_line line1 :: pharo_line line2 :: List.map pharo_line more).
    rewrite join_cons_cons.
    change (pharo_line line2 :: List.map pharo_line more)
      with (List.map pharo_line (line2 :: more)).
    rewrite IH. unfold pharo_line. rewrite replace_doubled.
    simpl. rewrite <- !app_assoc. reflexivity.
Qed.

(** The encoder's output in terms of the shape. *)
Lemma gcs_shape (class_name : pystr) (c : N) (rest : pystr) :
  generate_compilation_script class_name (c :: rest)
  = compile_expression class_name (splitlines (c :: rest)).
Proof.
  unfold generate_compilation_script, compile_expression.
  destruct (splitlines (c :: rest)) as [|line1 more] eqn:Hl.
  - exfalso. exact (splitlines_not_nil c rest Hl).
  - rewrite join_arguments. reflexivity.
Qed.

Lemma strip_prefix_app (p s : pystr) : strip_prefix p (p ++ s) = Some s.
Proof.
  induction p as [|a p IH]; simpl; [destruct s; reflexivity|].
  rewrite N.eqb_refl. exact IH.
Qed.

Lemma literal_body_doubled (line rest : pystr) :
  not_quote_next rest ->
  literal_body (doubled line ++ QUOTE :: rest) = Some (doubled line, rest).
Proof.
  intros Hrest. induction line as [|c r IH].
  - simpl. destruct rest as [|c' rest']; [reflexivity|].
    simpl in Hrest. apply N.eqb_neq in Hrest. rewrite Hrest. reflexivity.
  - simpl. destruct (c =? QUOTE) eqn:Hc.
    + change ((QUOTE :: QUOTE :: doubled r) ++ QUOTE :: rest)
        with (QUOTE :: QUOTE :: (doubled r ++ QUOTE :: rest)).
      cbn [literal_body]. rewrite N.eqb_refl. rewrite IH. reflexivity.
    + change ((c :: doubled r) ++ QUOTE :: rest)
        with (c :: (doubled r ++ QUOTE :: rest)).
      cbn [literal_body]. rewrite Hc. rewrite IH. reflexivity.
Qed.

Lemma undouble_doubled (line : pystr) : undouble (doubled line) = line.
Proof.
  induction line as [|c r IH]; [reflexivity|].
  simpl. destruct (c =? QUOTE) eqn:Hc.
  - apply N.eqb_eq in Hc. subst c.
    cbn [undouble]. rewrite N.eqb_refl. simpl. rewrite IH. reflexivity.
  - cbn [undouble]. rewrite Hc. simpl.
    destruct (doubled r) eqn:Hd.
    + simpl in IH. subst r. reflexivity.
    + rewrite IH. reflexivity.
Qed.

Lemma arguments_length (line1 : pystr) (more : list pystr) :
  (S (length more) <= length (arguments line1 more))%nat.
Proof.
  revert line1. induction more as [|line2 more IH]; intros line1.
  - simpl. lia.
  - specialize (IH line2). cbn [arguments].
    rewrite !length_app. simpl length at 1. simpl. lia.
Qed.

Lemma literals_arguments (more : list pystr) :
  forall line1 fuel, (length more < fuel)%nat ->
  literals fuel (arguments line1 more ++ COMPILE_CLOSE) = Some (line1 :: more).
Proof.
  induction more as [|line2 more IH]; intros line1 fuel Hfuel.
  - destruct fuel as [|fuel]; [simpl in Hfuel; lia|].
    cbn [arguments]. rewrite app_nil_r.
    change (([QUOTE] ++ doubled line1 ++ [QUOTE]) ++ COMPILE_CLOSE)
      with (QUOTE :: ((doubled line1 ++ [QUOTE]) ++ COMPILE_CLOSE)).
    rewrite <- app_assoc.
    change ([QUOTE] ++ COMPILE_CLOSE) with (QUOTE :: COMPILE_CLOSE).
    cbn [literals]. rewrite N.eqb_refl.
    rewrite literal_body_doubled by (simpl; discriminate).
    rewrite undouble_doubled. reflexivity.
  - destruct fuel as [|fuel]; [simpl in Hfuel; lia|].
    cbn [arguments].
    change (([QUOTE] ++ doubled line1 ++ [QUOTE] ++
             py ", Character cr asString, " ++ arguments line2 more) ++ COMPILE_CLOSE)
      with (QUOTE :: ((doubled line1 ++ [QUOTE] ++
             SEP ++ arguments line2 more) ++ COMPILE_CLOSE)).
    rewrite <- !app_assoc.
    change ([QUOTE] ++ SEP ++ arguments line2 more ++ COMPILE_CLOSE)
      with (QUOTE :: (SEP ++ arguments line2 more ++ COMPILE_CLOSE)).
    cbn [literals]. rewrite N.eqb_refl.
    rewrite literal_body_doubled by (simpl; discriminate).
    rewrite strip_prefix_app.
    rewrite IH by (simpl in Hfuel; lia).
    rewrite undouble_doubled. reflexivity.
Qed.

(** The round trip for a code with a first character. *)
Lemma decode_gcs (class_name : pystr) (c : N) (rest : pystr) :
  decode class_name (generate_compilation_script class_name (c :: rest))
  = Some (splitlines (c :: rest)).
Proof.
  rewrite gcs_shape.
  destruct (splitlines (c :: rest)) as [|line1 more] eqn:Hl.
  - exfalso. exact (splitlines_not_nil c rest Hl).
  - unfold decode, compile_expression.
    change (py " compile: (") with COMPILE_OPEN.
    change (py ")") with COMPILE_CLOSE.
    rewrite (app_assoc class_name COMPILE_OPEN).
    rewrite strip_prefix_app.
    apply literals_arguments.
    rewrite length_app.
    pose proof (arguments_length line1 more). lia.
Qed.

End EncoderFacts.

Module EncoderExamples.

Example decode_two_lines :
  Decoder.decode (py "Calculator")
    (generate_compilation_script (py "Calculator")
       (py "a, Character cr asString, 'b'" ++ [CR; LF] ++ py "'" ++ [LF]))
  = Some [py "a, Character cr asString, 'b'"; py "'"].
Proof. vm_compute. reflexivity. Qed.

Example splitlines_breaks :
  splitlines (py "a" ++ [CR; LF] ++ py "b" ++ [CR] ++ [11; 8232] ++ py "c" ++ [LF])
  = [py "a"; py "b"; []; []; py "c"].
Proof. vm_compute. reflexivity. Qed.

End EncoderExamples.

(** C1.  For every non-empty [code], reading the output of
    [generate_compilation_script class_name code] back (the quoted
    segments joined by the separator, every doubled quote un-doubled)
    gives exactly the lines of [code], as [splitlines] cuts them. *)
Theorem decode_generate_compilation_script (class_name code : pystr) :
  code <> [] ->
  Decoder.decode class_name (generate_compilation_script class_name code)
  = Some (splitlines code).
Proof.
  intros Hcode. destruct code as [|c rest].
  - congruence.
  - exact (EncoderFacts.decode_gcs class_name c rest).
Qed.

Lemma decode_generate_compilation_script_witness :
  py "it's" ++ [LF] ++ py "''" <> []
  /\ Decoder.decode (py "K")
       (generate_compilation_script (py "K") (py "it's" ++ [LF] ++ py "''"))
     = Some [py "it's"; py "''"].
Proof.
  split; [discriminate|].
  rewrite (decode_generate_compilation_script (py "K") (py "it's" ++ [LF] ++ py "''"))
    by discriminate.
  vm_compute. reflexivity.
Defined.

(** C5.  For every class name and every non-empty [code], the output of
    [generate_compilation_script] is, character for character, the
    expression [<class_name> compile: ('line1', Character cr asString,
    'line2', ...)]: each line of [code] in single quotes with its quotes
    doubled, the lines joined by [, Character cr asString, ]. *)
Theorem generate_compilation_script_shape (class_name code : pystr) :
  code <> [] ->
  generate_compilation_script class_name code
  = Shape.compile_expression class_name (splitlines code).
Proof.
  intros Hcode. destruct code as [|c rest]; [congruence|].
  apply EncoderFacts.gcs_shape.
Qed.

Lemma generate_compilation_script_shape_witness :
  py "sum: a" ++ [LF] ++ py "  ^ 'x'" <> []
  /\ generate_compilation_script (py "Calculator")
       (py "sum: a" ++ [LF] ++ py "  ^ 'x'")
     = py "Calculator compile: ('sum: a', Character cr asString, '  ^ ''x''')".
Proof.
  split; [discriminate|].
  rewrite (generate_compilation_script_shape (py "Calculator")
             (py "sum: a" ++ [LF] ++ py "  ^ 'x'")) by discriminate.
  vm_compute. reflexivity.
Defined.

Module LineFacts.

Lemma in_doubled (c : N) (line : pystr) :
  In c (Shape.doubled line) -> c = QUOTE \/ In c line.
Proof.
  induction line as [|d r IH]; simpl; [tauto|].
  destruct (d =? QUOTE) eqn:Hd; simpl; intros H.
  - destruct H as [H|[H|H]]; [left; congruence | left; congruence |].
    destruct (IH H); tauto.
  - destruct H as [H|H]; [right; left; exact H|].
    destruct (IH H); tauto.
Qed.

Lemma in_arguments (c : N) (more : list pystr) :
  forall line1, In c (Shape.arguments line1 more) ->
  In c (QUOTE :: SEP) \/ exists line, In line (line1 :: more) /\ In c line.
Proof.
  induction more as [|line2 more IH]; intros line1; cbn [Shape.arguments];
    rewrite !in_app_iff; intros H.
  - destruct H as [H|[H|[H|H]]].
    + left. simpl in H. simpl. tauto.
    + apply in_doubled in H. destruct H as [H|H].
      * left. left. congruence.
      * right. exists line1. split; [left; reflexivity | exact H].
    + left. simpl in H. simpl. tauto.
    + destruct H.
  - destruct H as [H|[H|[H|[H|H]]]].
    + left. simpl in H. simpl. tauto.
    + apply in_doubled in H. destruct H as [H|H].
      * left. left. congruence.
      * right. exists line1. split; [left; reflexivity | exact H].
    + left. simpl in H. simpl. tauto.
    + left. right. exact H.
    + destruct (IH line2 H) as [H'|[line [Hin Hc]]]; [left; exact H'|].
      right. exists line. split; [right; exact Hin | exact Hc].
Qed.

(** The characters between the class name and the end of the expression
    that do not come from a line of the code. *)
Lemma fixed_text_no_break :
  no_break (QUOTE :: SEP ++ COMPILE_OPEN ++ COMPILE_CLOSE).
Proof. unfold no_break. repeat constructor. Qed.

(** Every character of the output comes from the class name or is no
    line break. *)
Lemma gcs_characters (class_name code : pystr) (c : N) :
  In c (generate_compilation_script class_name code) ->
  In c class_name \/ is_linebreak c = false.
Proof.
  destruct code as [|d rest]; [intros []|].
  rewrite EncoderFacts.gcs_shape. unfold Shape.compile_expression.
  pose proof fixed_text_no_break as Hfixed.
  unfold no_break in Hfixed. rewrite List.Forall_forall in Hfixed.
  rewrite !in_app_iff. intros [H|[H|[H|H]]].
  - left. exact H.
  - right. apply Hfixed. right. rewrite !in_app_iff. tauto.
  - destruct (splitlines (d :: rest)) as [|line1 more] eqn:Hl; [destruct H|].
    apply in_arguments in H. destruct H as [H|[line [Hin Hc]]].
    + right. apply Hfixed. destruct H as [H|H]; [left; exact H|].
      right. rewrite !in_app_iff. tauto.
    + right. pose proof (splitlines_no_break (d :: rest)) as Hnb.
      rewrite Hl in Hnb. rewrite List.Forall_forall in Hnb.
      specialize (Hnb line Hin). unfold no_break in Hnb.
      rewrite List.Forall_forall in Hnb. exact (Hnb c Hc).
  - right. apply Hfixed. right. rewrite !in_app_iff. tauto.
Qed.

End LineFacts.

(** C6, as the code has it.  A line-break character that does not occur
    in [class_name] does not occur in the output of
    [generate_compilation_script], whatever the code: the class name is
    the only way for a line break to get into the result. *)
Theorem generate_compilation_script_single_line
    (class_name code : pystr) (c : N) :
  is_linebreak c = true ->
  ~ In c class_name ->
  ~ In c (generate_compilation_script class_name code).
Proof.
  intros Hc Hclass Hin.
  destruct (LineFacts.gcs_characters class_name code c Hin) as [H|H].
  - exact (Hclass H).
  - congruence.
Qed.

Lemma generate_compilation_script_single_line_witness :
  is_linebreak LF = true
  /\ ~ In LF (py "Calculator")
  /\ ~ In LF (generate_compilation_script (py "Calculator")
                (py "a" ++ [LF] ++ py "b" ++ [CR; LF])).
Proof.
  assert (H1 : is_linebreak LF = true) by reflexivity.
  assert (H2 : ~ In LF (py "Calculator")).
  { simpl. intros H. repeat (destruct H as [H|H]; [discriminate H|]). exact H. }
  split; [exact H1|]. split; [exact H2|].
  exact (generate_compilation_script_single_line (py "Calculator")
           (py "a" ++ [LF] ++ py "b" ++ [CR; LF]) LF H1 H2).
Defined.

(** C6, as stated, fails: a line feed in the class name is copied to the
    output, which then is a text of two lines. *)
Lemma generate_compilation_script_class_name_newline :
  ~ no_break (generate_compilation_script (py "A" ++ [LF] ++ py "B") (py "x"))
  /\ generate_compilation_script (py "A" ++ [LF] ++ py "B") (py "x")
     = py "A" ++ [LF] ++ py "B compile: ('x')"
  /\ length (splitlines
       (generate_compilation_script (py "A" ++ [LF] ++ py "B") (py "x"))) = 2%nat.
Proof.
  split; [|split; vm_compute; reflexivity].
  intros H. unfold no_break in H. rewrite List.Forall_forall in H.
  specialize (H LF). cbv in H. discriminate H. right. left. reflexivity.
Qed.

(** C7.  For every class name, the encoder returns the empty string for
    the empty code. *)
Theorem generate_compilation_script_empty (class_name : pystr) :
  generate_compilation_script class_name [] = [].
Proof. reflexivity. Qed.

Module QuoteFacts.

Lemma nth_error_middle {A : Type} (l : list A) :
  forall i x, nth_error l i = Some x ->
  l = firstn i l ++ [x] ++ skipn (S i) l.
Proof.
  induction l as [|a l IH]; intros [|i] x H; simpl in H; try discriminate.
  - injection H as ->. reflexivity.
  - simpl. f_equal. exact (IH i x H).
Qed.

(** A code that has a line is not empty. *)
Lemma line_code_not_empty (code line : pystr) (i : nat) :
  nth_error (splitlines code) i = Some line -> exists c rest, code = c :: rest.
Proof.
  destruct code as [|c rest]; [destruct i; discriminate|].
  intros _. exists c, rest. reflexivity.
Qed.

End QuoteFacts.

(** C8.  A line of the code that is one quote character is encoded, in
    the result of [generate_compilation_script], as the literal of four
    quote characters: two quote characters between the two delimiters.
    This holds for every code and for the line at any position: the
    result is the class name, [ compile: (], the literals of the lines
    before it, the literal [''''] and the literals of the lines after
    it, joined by the separator, and [)].  The function returns this
    result, so it does not fail, and the character is not lost: the
    decoder gives as many lines as the code has, with the quote
    character at the same position. *)
Theorem quote_only_line :
  (forall class_name code i,
     nth_error (splitlines code) i = Some [QUOTE] ->
     generate_compilation_script class_name code
     = class_name ++ COMPILE_OPEN
       ++ join SEP (List.map pharo_line (firstn i (splitlines code))
                    ++ [[QUOTE; QUOTE; QUOTE; QUOTE]]
                    ++ List.map pharo_line (skipn (S i) (splitlines code)))
       ++ COMPILE_CLOSE
     /\ exists decoded,
          Decoder.decode class_name
            (generate_compilation_script class_name code) = Some decoded
          /\ length decoded = length (splitlines code)
          /\ nth_error decoded i = Some [QUOTE])
  /\ (forall class_name,
        generate_compilation_script class_name [QUOTE]
        = class_name ++ py " compile: ('''')")
  /\ pharo_line [QUOTE] = py "''''"
  /\ replace QUOTE [QUOTE; QUOTE] [QUOTE] = [QUOTE; QUOTE].
Proof.
  split; [|split; [reflexivity | split; reflexivity]].
  intros class_name code i Hline.
  destruct (QuoteFacts.line_code_not_empty code [QUOTE] i Hline)
    as (c & rest & ->).
  split.
  - unfold generate_compilation_script.
    do 3 f_equal.
    change [[QUOTE; QUOTE; QUOTE; QUOTE]] with (List.map pharo_line [[QUOTE]]).
    rewrite <- !List.map_app.
    rewrite <- (QuoteFacts.nth_error_middle _ i [QUOTE] Hline). reflexivity.
  - exists (splitlines (c :: rest)).
    split; [apply EncoderFacts.decode_gcs|]. split; [reflexivity | exact Hline].
Qed.

Lemma quote_only_line_witness :
  nth_error (splitlines (py "a" ++ [LF] ++ py "'" ++ [LF] ++ py "b")) 1
  = Some [QUOTE]
  /\ generate_compilation_script (py "Calculator")
       (py "a" ++ [LF] ++ py "'" ++ [LF] ++ py "b")
     = py "Calculator compile: ('a', Character cr asString, '''', Character cr asString, 'b')"
  /\ exists decoded,
       Decoder.decode (py "Calculator")
         (generate_compilation_script (py "Calculator")
            (py "a" ++ [LF] ++ py "'" ++ [LF] ++ py "b")) = Some decoded
       /\ nth_error decoded 1 = Some [QUOTE].
Proof.
  assert (H : nth_error (splitlines (py "a" ++ [LF] ++ py "'" ++ [LF] ++ py "b")) 1
              = Some [QUOTE]) by reflexivity.
  split; [exact H|].
  destruct (proj1 quote_only_line (py "Calculator") _ 1%nat H)
    as (Hscript & decoded & Hdecode & _ & Hnth).
  split.
  - rewrite Hscript. vm_compute. reflexivity.
  - exists decoded. split; assumption.
Defined.

(** ** Request validation *)

Module StripFacts.

Lemma lstrip_head (s : pystr) :
  forall c r, lstrip s = c :: r -> is_space c = false.
Proof.
  induction s as [|d s IH]; intros c r H; simpl in H; [discriminate|].
  destruct (is_space d) eqn:Hd; [exact (IH c r H)|].
  congruence.
Qed.

Lemma lstrip_blank (s : pystr) : lstrip s = [] <-> blank s = true.
Proof.
  unfold blank. induction s as [|d s IH]; simpl; [tauto|].
  destruct (is_space d); simpl; [exact IH|].
  split; discriminate.
Qed.

Lemma lstrip_keeps_last (a : pystr) (c : N) :
  is_space c = false -> exists a', lstrip (a ++ [c]) = a' ++ [c].
Proof.
  intros Hc. induction a as [|d a IH]; simpl.
  - rewrite Hc. exists []. reflexivity.
  - destruct (is_space d); [exact IH|].
    exists (d :: a). reflexivity.
Qed.

(** The shape of [strip s] for a text that is not blank. *)
Lemma strip_not_blank (s : pystr) :
  blank s = false ->
  exists c a, is_space c = false /\ strip s = c :: a.
Proof.
  intros Hb. unfold strip, rstrip.
  destruct (lstrip s) as [|c t] eqn:Hl.
  - apply lstrip_blank in Hl. congruence.
  - pose proof (lstrip_head s c t Hl) as Hc.
    simpl rev.
    destruct (lstrip_keeps_last (rev t) c Hc) as [a' Ha'].
    rewrite Ha'. rewrite rev_app_distr. simpl.
    exists c, (rev a'). split; [exact Hc | reflexivity].
Qed.

Lemma strip_blank (s : pystr) : blank s = true -> strip s = [].
Proof.
  intros Hb. apply lstrip_blank in Hb. unfold strip, rstrip.
  rewrite Hb. reflexivity.
Qed.

Lemma strip_trimmed (s : pystr) : trimmed (strip s).
Proof.
  split.
  - intros c r H. destruct (blank s) eqn:Hb.
    + rewrite (strip_blank s Hb) in H. discriminate.
    + destruct (strip_not_blank s Hb) as (c' & a & Hc' & Hs).
      rewrite Hs in H. congruence.
  - intros b d H. unfold strip, rstrip in H.
    apply (f_equal (@rev N)) in H.
    rewrite rev_involutive, rev_app_distr in H. simpl in H.
    exact (lstrip_head _ _ _ H).
Qed.

Import Models.

Lemma validate_field_blank (v : pystr) :
  blank v = true -> exists e, validate_field v = Raises e.
Proof.
  intros Hb. unfold validate_field.
  destruct (length v <? 1)%nat; [eauto|].
  unfold validate_not_empty. rewrite (strip_blank v Hb). eauto.
Qed.

Lemma validate_field_not_blank (v : pystr) :
  blank v = false -> validate_field v = Returns (strip v).
Proof.
  intros Hb. unfold validate_field.
  destruct v as [|c v]; [discriminate Hb|].
  change (length (c :: v) <? 1)%nat with false. cbv iota.
  unfold validate_not_empty.
  destruct (strip_not_blank (c :: v) Hb) as (c' & a & _ & Hs).
  rewrite Hs. reflexivity.
Qed.

End StripFacts.

Module ModelsExamples.

Import Models.

Example validate_strips :
  RefactorRequest_validate ([32; 9] ++ py "Calculator" ++ [LF]) (py "sum:with: ")
  = inr (mkRequest (py "Calculator") (py "sum:with:")).
Proof. vm_compute. reflexivity. Qed.

Example validate_keeps_inner_space :
  validate_field (py " a b ") = Returns (py "a b").
Proof. vm_compute. reflexivity. Qed.

End ModelsExamples.

(** C10.  At the inbound boundary every field is accepted or rejected as
    a whole.  When [class_name] or [method_name] is empty or white space
    only, building the request fails with a validation error, and the
    endpoint answers with it whatever the world is, leaving the service
    as it was: no pipeline run starts.  Otherwise the request holds both
    fields with the white space at their ends stripped, neither is empty
    nor starts or ends with white space, and it is this request that the
    endpoint function works on. *)
Theorem request_stripped_or_rejected (raw_class raw_method : pystr) :
  if blank raw_class || blank raw_method then
    exists errors,
      errors <> []
      /\ Models.RefactorRequest_validate raw_class raw_method = inl errors
      /\ forall env svc,
           Router.post_refactor env raw_class raw_method svc
           = (Router.ValidationError422 errors, svc)
  else
    let request := Models.mkRequest (strip raw_class) (strip raw_method) in
    Models.RefactorRequest_validate raw_class raw_method = inr request
    /\ trimmed (strip raw_class) /\ trimmed (strip raw_method)
    /\ strip raw_class <> [] /\ strip raw_method <> []
    /\ forall env svc,
         Router.post_refactor env raw_class raw_method svc
         = Router.refactor_endpoint env request svc.
Proof.
  unfold Router.post_refactor, Models.RefactorRequest_validate.
  destruct (blank raw_class) eqn:Hc; destruct (blank raw_method) eqn:Hm; simpl.
  - destruct (StripFacts.validate_field_blank _ Hc) as [e1 ->].
    destruct (StripFacts.validate_field_blank _ Hm) as [e2 ->].
    exists [e1; e2]. split; [discriminate|]. split; reflexivity.
  - destruct (StripFacts.validate_field_blank _ Hc) as [e1 ->].
    rewrite (StripFacts.validate_field_not_blank _ Hm).
    exists [e1]. split; [discriminate|]. split; reflexivity.
  - rewrite (StripFacts.validate_field_not_blank _ Hc).
    destruct (StripFacts.validate_field_blank _ Hm) as [e2 ->].
    exists [e2]. split; [discriminate|]. split; reflexivity.
  - rewrite (StripFacts.validate_field_not_blank _ Hc).
    rewrite (StripFacts.validate_field_not_blank _ Hm).
    split; [reflexivity|].
    split; [apply StripFacts.strip_trimmed|].
    split; [apply StripFacts.strip_trimmed|].
    destruct (StripFacts.strip_not_blank _ Hc) as (c1 & a1 & _ & H1).
    destruct (StripFacts.strip_not_blank _ Hm) as (c2 & a2 & _ & H2).
    rewrite H1, H2.
    split; [discriminate|]. split; [discriminate|]. reflexivity.
Qed.

(** ** The loop-exit tool *)

(** C9, as the code has it.  [exit_validation_loop] looks at the tool
    context it is given and at nothing else.  Without a tool context, or
    with one that has no [actions], the call changes nothing and returns
    the status [error] with an explanation; with a tool context that has
    [actions] it sets the escalate flag and returns the status
    [approved], for every calling agent, inside a loop or not. *)
Theorem exit_validation_loop_effect (tool_context : option Tools.ToolContext) :
  match tool_context with
  | Some tc =>
      match Tools.actions tc with
      | Some _ =>
          Tools.escalated (fst (Tools.exit_validation_loop tool_context)) = true
          /\ snd (Tools.exit_validation_loop tool_context)
             = Tools.status_dict "approved" "Code validated. Exiting validation loop."
          /\ exists tc',
               fst (Tools.exit_validation_loop tool_context) = Some tc'
               /\ Tools.agent_name tc' = Tools.agent_name tc
               /\ Tools.session tc' = Tools.session tc
      | None =>
          Tools.exit_validation_loop tool_context
          = (tool_context,
             Tools.status_dict "error" "Failed to exit loop: tool_context missing.")
      end
  | None =>
      Tools.exit_validation_loop tool_context
      = (None, Tools.status_dict "error" "Failed to exit loop: tool_context missing.")
  end.
Proof.
  destruct tool_context as [tc|]; [|reflexivity].
  unfold Tools.exit_validation_loop.
  destruct (Tools.actions tc) as [a|]; [|reflexivity].
  split; [reflexivity|]. split; [reflexivity|].
  eexists. split; [reflexivity|]. split; reflexivity.
Qed.

(** C9, as stated, fails: the release agent does not run in a loop of the
    pipeline, and a call of the tool with its tool context still sets the
    escalate flag and reports [approved]. *)
Lemma exit_validation_loop_outside_loop :
  let pipeline := _create_pipeline default_settings (make_toolset default_settings) in
  let tc := Tools.mkToolContext "ReleaseAgent"
              (Some (Tools.mkActions None)) (Some (Tools.mkSession ∅)) in
  occurs pipeline (Tools.agent_name tc) = true
  /\ in_loop_context pipeline (Tools.agent_name tc) = false
  /\ in_loop_context pipeline "RefinerAgent" = true
  /\ Tools.escalated (Some tc) = false
  /\ Tools.escalated (fst (Tools.exit_validation_loop (Some tc))) = true
  /\ snd (Tools.exit_validation_loop (Some tc))
     = Tools.status_dict "approved" "Code validated. Exiting validation loop.".
Proof. repeat split; reflexivity. Qed.

(** ** The executor, one caller *)

Module ExecutorFacts.

Lemma get_pipeline_lock (env : Env) (svc : AgentService) :
  _lock (snd (get_pipeline env svc)) = _lock svc.
Proof.
  unfold get_pipeline, _init_toolset.
  destruct (_pipeline svc); [reflexivity|].
  destruct (_toolset svc); [reflexivity|].
  destruct (McpToolset env _); reflexivity.
Qed.

(** The lock plays no part in building the pipeline. *)
Lemma get_pipeline_with_lock (env : Env) (svc : AgentService) (l : Lock) :
  fst (get_pipeline env (with_lock l svc)) = fst (get_pipeline env svc).
Proof.
  unfold get_pipeline, _init_toolset, with_lock. simpl.
  destruct (_pipeline svc); [reflexivity|].
  destruct (_toolset svc); [reflexivity|].
  destruct (McpToolset env _); reflexivity.
Qed.

Lemma try_begin_lock (env : Env) (c m : pystr) (svc : AgentService) :
  _lock (snd (try_begin env c m svc)) = _lock svc.
Proof.
  unfold try_begin. pose proof (get_pipeline_lock env svc) as H.
  destruct (get_pipeline env svc) as [[p|e] svc']; exact H.
Qed.

Lemma leave_lock_taken (r : Outcome (gmap string PyVal)) (svc : AgentService) :
  _locked (_lock svc) = true ->
  leave_lock r svc
  = (r, with_lock (_wake_up_first (mkLock false (_waiters (_lock svc)))) svc).
Proof. intros H. unfold leave_lock, release. rewrite H. reflexivity. Qed.

Lemma wake_up_first_locked (l : Lock) : _locked (_wake_up_first l) = _locked l.
Proof.
  unfold _wake_up_first. destruct (_waiters l) as [|w ws]; [reflexivity|].
  destruct (fut_done (waiter_fut w)); reflexivity.
Qed.

(** The result of a call that gets the lock at once, and the lock after
    the call. *)
Lemma refactor_method_alone (env : Env) (c m : pystr) (svc : AgentService) :
  free_for_newcomer (_lock svc) = true ->
  exists svc',
    refactor_method env c m svc
    = Some (try_end c m (try_outcome env c m svc), svc')
    /\ is_busy svc' = false.
Proof.
  intros Hfree. unfold refactor_method. rewrite Hfree.
  set (svc1 := with_lock (take (_lock svc)) svc).
  pose proof (try_begin_lock env c m svc1) as Hl.
  pose proof (get_pipeline_with_lock env svc (take (_lock svc))) as Hp.
  fold svc1 in Hp.
  unfold try_outcome. unfold try_begin in *.
  destruct (get_pipeline env svc1) as [[p|e] svc1'] eqn:H1;
    destruct (get_pipeline env svc) as [[p0|e0] svc0'] eqn:H0;
    simpl in Hp; try discriminate Hp; inversion Hp; subst; simpl in Hl.
  - rewrite leave_lock_taken by (rewrite Hl; reflexivity).
    eexists. split; [reflexivity|].
    unfold is_busy, locked. simpl. rewrite wake_up_first_locked. reflexivity.
  - rewrite leave_lock_taken by (rewrite Hl; reflexivity).
    eexists. split; [reflexivity|].
    unfold is_busy, locked. simpl. rewrite wake_up_first_locked. reflexivity.
Qed.

End ExecutorFacts.

(** ** The pipeline run *)

Module AdkFacts.

Import Adk Tools.

Lemma stage_runs_app (role : string) (a b : list RunEvent) :
  stage_runs role (a ++ b) = (stage_runs role a + stage_runs role b)%nat.
Proof. unfold stage_runs. rewrite List.filter_app, length_app. reflexivity. Qed.

Lemma perform_journal (role : string) (ctx : RunCtx) (c : ToolCall) :
  journal (perform role ctx c) = journal ctx.
Proof.
  destruct c; reflexivity.
Qed.

Lemma perform_all_journal (role : string) (cs : list ToolCall) :
  forall ctx, journal (fold_left (perform role) cs ctx) = journal ctx.
Proof.
  induction cs as [|c cs IH]; intros ctx; simpl; [reflexivity|].
  rewrite IH. apply perform_journal.
Qed.

(** A stage adds its own start to the journal and nothing else. *)
Lemma run_stage_journal (oracle : Oracle) (role : string) (reads : list string)
    (tools : list Tool) (key : string) (ctx : RunCtx) :
  journal (snd (run_stage oracle role reads tools key ctx))
  = journal ctx ++ [StageRan role].
Proof.
  unfold run_stage.
  destruct (List.find _ reads); [reflexivity|].
  destruct (forallb _ _); [|reflexivity].
  destruct (produced _) as [[text|]|e]; simpl;
    rewrite perform_all_journal; reflexivity.
Qed.

Section Bounds.

Variable oracle : Oracle.
Variable role : string.

Lemma starts_at_most_weaken (a b : nat) (r : Run) :
  (a <= b)%nat -> starts_at_most role a r -> starts_at_most role b r.
Proof.
  intros Hab H ctx. destruct (H ctx) as (ext & He & Hn).
  exists ext. split; [exact He | lia].
Qed.

Lemma starts_at_most_stage (r : string) (reads : list string)
    (tools : list Tool) (key : string) :
  starts_at_most role (if String.eqb r role then 1 else 0)
    (run_stage oracle r reads tools key).
Proof.
  intros ctx. exists [StageRan r]. split; [apply run_stage_journal|].
  unfold stage_runs. simpl. destruct (String.eqb r role); simpl; lia.
Qed.

Lemma starts_at_most_nil : starts_at_most role 0 (run_sequence []).
Proof.
  intros ctx. exists []. simpl. split; [rewrite app_nil_r; reflexivity | ].
  unfold stage_runs. simpl. lia.
Qed.

Lemma starts_at_most_cons (a b : nat) (r : Run) (rs : list Run) :
  starts_at_most role a r ->
  starts_at_most role b (run_sequence rs) ->
  starts_at_most role (a + b) (run_sequence (r :: rs)).
Proof.
  intros Hr Hrs ctx. simpl.
  destruct (Hr ctx) as (ext1 & He1 & Hn1).
  destruct (r ctx) as [[e|] ctx'] eqn:Hrc; simpl in He1.
  - exists ext1. simpl. split; [exact He1 | lia].
  - destruct (Hrs ctx') as (ext2 & He2 & Hn2).
    exists (ext1 ++ ext2). split.
    + rewrite He2, He1, app_assoc. reflexivity.
    + rewrite stage_runs_app. lia.
Qed.

(** A loop starts a stage at most as often as its body does, times the
    number of iterations it may still make. *)
Lemma starts_at_most_loop (name : string) (body : Run) (b : nat) :
  starts_at_most role b body ->
  forall remaining counter,
    starts_at_most role (remaining * b) (run_loop name body remaining counter).
Proof.
  intros Hbody remaining.
  induction remaining as [|n IH]; intros counter ctx; simpl.
  - exists [LoopEnded name CAPPED counter]. split; [reflexivity|].
    unfold stage_runs. simpl. lia.
  - destruct (Hbody ctx) as (ext1 & He1 & Hn1).
    destruct (body ctx) as [[e|] ctx'] eqn:Hb; simpl in He1.
    + exists ext1. simpl. split; [exact He1 | lia].
    + destruct (escalate_flag ctx').
      * exists (ext1 ++ [LoopEnded name EXITED (S counter)]). simpl. split.
        -- rewrite He1, app_assoc. reflexivity.
        -- rewrite stage_runs_app. unfold stage_runs at 2. simpl. lia.
      * destruct (IH (S counter) ctx') as (ext2 & He2 & Hn2).
        exists (ext1 ++ ext2). split.
        -- rewrite He2, He1, app_assoc. reflexivity.
        -- rewrite stage_runs_app. lia.
Qed.

End Bounds.

(** In every run of the pipeline, whatever the language model does, a
    stage of the validation loop is started at most
    [max_validation_iterations] times. *)
Lemma pipeline_loop_stage_bound (oracle : Oracle) (settings : Settings)
    (toolset : Toolset) (role : string) :
  role = "ValidatorAgent"%string \/ role = "RefinerAgent"%string ->
  starts_at_most role (Z.to_nat (max_validation_iterations settings))
    (run_agent oracle (_create_pipeline settings toolset)).
Proof.
  intros Hrole.
  set (cap := Z.to_nat (max_validation_iterations settings)).
  apply (starts_at_most_weaken role (0 + (0 + (cap * 1 + (0 + 0))))); [lia|].
  unfold _create_pipeline. cbn [run_agent List.map].
  fold cap.
  apply starts_at_most_cons.
  { destruct Hrole as [-> | ->];
      exact (starts_at_most_stage oracle _ "ReviewerAgent" _ _ _). }
  apply starts_at_most_cons.
  { destruct Hrole as [-> | ->];
      exact (starts_at_most_stage oracle _ "InitialWriterAgent" _ _ _). }
  apply starts_at_most_cons.
  { apply starts_at_most_loop.
    destruct Hrole as [-> | ->].
    - apply (starts_at_most_weaken _ (1 + (0 + 0))); [lia|].
      apply starts_at_most_cons;
        [exact (starts_at_most_stage oracle _ "ValidatorAgent" _ _ _)|].
      apply starts_at_most_cons;
        [exact (starts_at_most_stage oracle _ "RefinerAgent" _ _ _)|].
      apply starts_at_most_nil.
    - apply (starts_at_most_weaken _ (0 + (1 + 0))); [lia|].
      apply starts_at_most_cons;
        [exact (starts_at_most_stage oracle _ "ValidatorAgent" _ _ _)|].
      apply starts_at_most_cons;
        [exact (starts_at_most_stage oracle _ "RefinerAgent" _ _ _)|].
      apply starts_at_most_nil. }
  apply starts_at_most_cons.
  { destruct Hrole as [-> | ->];
      exact (starts_at_most_stage oracle _ "ReleaseAgent" _ _ _). }
  apply starts_at_most_nil.
Qed.

End AdkFacts.

Module ScenarioFacts.

Import Adk Tools AdkFacts.

Lemma perform_remote (role : string) (ctx : RunCtx) (c : ToolCall) :
  is_remote c = true -> perform role ctx c = ctx.
Proof. destruct c; simpl; intros H; try discriminate H. reflexivity. Qed.

Lemma perform_remote_only (role : string) (cs : list ToolCall) (ctx : RunCtx) :
  remote_only cs = true -> fold_left (perform role) cs ctx = ctx.
Proof.
  unfold remote_only. induction cs as [|c cs IH]; simpl; [reflexivity|].
  intros H. apply andb_true_iff in H. destruct H as [Hc Hcs].
  rewrite perform_remote by exact Hc. exact (IH Hcs).
Qed.

Lemma remote_only_available (tools : list Tool) (cs : list ToolCall) :
  existsb is_mcp tools = true -> remote_only cs = true ->
  forallb (available tools) cs = true.
Proof.
  intros Ht. unfold remote_only. induction cs as [|c cs IH]; simpl; [reflexivity|].
  intros H. apply andb_true_iff in H. destruct H as [Hc Hcs].
  rewrite (IH Hcs), andb_true_r.
  destruct c; simpl in Hc; try discriminate Hc. exact Ht.
Qed.

Lemma needs_improvement_not_approved (text : pystr) :
  startswith text (py "NEEDS IMPROVEMENT") = true ->
  startswith text (py "APPROVED") = false.
Proof.
  let v := eval vm_compute in (py "NEEDS IMPROVEMENT") in
    change (py "NEEDS IMPROVEMENT") with v.
  let v := eval vm_compute in (py "APPROVED") in
    change (py "APPROVED") with v.
  destruct text as [|c text]; [discriminate|].
  simpl. destruct (c =? 78) eqn:Hc; [|discriminate].
  apply N.eqb_eq in Hc. subst c. reflexivity.
Qed.

Lemma find_missing_none (bb : gmap string pystr) (reads : list string) :
  Forall (fun k => is_Some (bb !! k)) reads ->
  List.find (fun k => bool_decide (bb !! k = None)) reads = None.
Proof.
  induction 1 as [|k reads Hk _ IH]; simpl; [reflexivity|].
  destruct Hk as [v Hv]. rewrite Hv.
  rewrite bool_decide_eq_false_2 by discriminate. exact IH.
Qed.

(** A stage whose keys are there, whose calls are allowed and which ends
    with a text. *)
Lemma run_stage_success (oracle : Oracle) (role : string)
    (reads : list string) (tools : list Tool) (key : string) (ctx : RunCtx)
    (text : pystr) :
  Forall (fun k => is_Some (blackboard ctx !! k)) reads ->
  forallb (available tools) (calls (oracle role (prompt ctx) (blackboard ctx))) = true ->
  produced (oracle role (prompt ctx) (blackboard ctx)) = Returns (Some text) ->
  run_stage oracle role reads tools key ctx
  = (None, set_key key text
             (fold_left (perform role)
                (calls (oracle role (prompt ctx) (blackboard ctx)))
                (log (StageRan role) ctx))).
Proof.
  intros Hreads Hcalls Hprod. unfold run_stage. simpl.
  rewrite (find_missing_none _ _ Hreads), Hcalls, Hprod. reflexivity.
Qed.

Lemma perform_actions (role : string) (ctx : RunCtx) (c : ToolCall) :
  c <> CallExitValidationLoop -> run_actions (perform role ctx c) = run_actions ctx.
Proof. destruct c; simpl; intros H; try reflexivity. congruence. Qed.

(** A stage without the exit tool leaves the escalate flag alone. *)
Lemma run_stage_flag (oracle : Oracle) (role : string)
    (reads : list string) (tools : list Tool) (key : string) (ctx : RunCtx) :
  existsb is_exit_validation_loop tools = false ->
  escalate_flag (snd (run_stage oracle role reads tools key ctx))
  = escalate_flag ctx.
Proof.
  intros Htools. unfold run_stage.
  destruct (List.find _ reads); [reflexivity|].
  destruct (forallb _ _) eqn:Hcalls; [|reflexivity].
  assert (Hfold : forall cs c0,
            forallb (available tools) cs = true ->
            run_actions (fold_left (perform role) cs c0) = run_actions c0).
  { induction cs as [|c cs IH]; intros c0 H; simpl; [reflexivity|].
    simpl in H. apply andb_true_iff in H. destruct H as [Hc Hcs].
    rewrite (IH _ Hcs). apply perform_actions.
    intros ->. simpl in Hc. congruence. }
  unfold escalate_flag.
  destruct (produced _) as [[text|]|e]; simpl; rewrite (Hfold _ _ Hcalls);
    reflexivity.
Qed.

Section NeverSatisfied.

Variable oracle : Oracle.

Hypothesis Hreviewer :
  forall p bb, reviewer_does_its_part (oracle "ReviewerAgent" p bb).
Hypothesis Hwriter :
  forall p bb, writer_does_its_part (oracle "InitialWriterAgent" p bb).
Hypothesis Hvalidator :
  forall p bb, validator_needs_improvement (oracle "ValidatorAgent" p bb).
Hypothesis Hrefiner :
  forall p bb, refiner_does_its_part bb (oracle "RefinerAgent" p bb).

Variable toolset : Toolset.

Lemma reviewer_step (ctx : RunCtx) :
  exists ctx',
    run_agent oracle (_create_reviewer_agent toolset) ctx = (None, ctx')
    /\ journal ctx' = journal ctx ++ [StageRan "ReviewerAgent"]
    /\ is_Some (blackboard ctx' !! "class_name")
    /\ is_Some (blackboard ctx' !! "code_review")
    /\ escalate_flag ctx' = escalate_flag ctx.
Proof.
  pose proof (run_stage_journal oracle "ReviewerAgent" []
                [McpTool toolset; SaveContextTool] "code_review" ctx) as Hj.
  pose proof (run_stage_flag oracle "ReviewerAgent" []
                [McpTool toolset; SaveContextTool] "code_review" ctx eq_refl) as Hf.
  destruct (Hreviewer (prompt ctx) (blackboard ctx))
    as (c & m & more & review & Hcalls & Hmore & Hprod).
  assert (Hallowed : forallb (available [McpTool toolset; SaveContextTool])
                       (calls (oracle "ReviewerAgent" (prompt ctx) (blackboard ctx)))
                     = true).
  { rewrite Hcalls. simpl.
    exact (remote_only_available [McpTool toolset; SaveContextTool] more
             eq_refl Hmore). }
  pose proof (run_stage_success oracle "ReviewerAgent" []
                [McpTool toolset; SaveContextTool] "code_review" ctx review
                ltac:(constructor) Hallowed Hprod) as Hrun.
  cbn [run_agent _create_reviewer_agent].
  rewrite Hrun in Hj, Hf |- *.
  eexists. split; [reflexivity|].
  split; [exact Hj|]. split; [|split; [|exact Hf]].
  - rewrite Hcalls. simpl fold_left.
    rewrite perform_remote_only by exact Hmore.
    simpl. rewrite lookup_insert_ne by discriminate.
    rewrite lookup_insert_ne by discriminate.
    rewrite lookup_insert_eq. eauto.
  - simpl. rewrite lookup_insert_eq. eauto.
Qed.

Lemma writer_step (ctx : RunCtx) :
  is_Some (blackboard ctx !! "class_name") ->
  is_Some (blackboard ctx !! "code_review") ->
  exists ctx',
    run_agent oracle _create_initial_writer_agent ctx = (None, ctx')
    /\ journal ctx' = journal ctx ++ [StageRan "InitialWriterAgent"]
    /\ is_Some (blackboard ctx' !! "class_name")
    /\ is_Some (blackboard ctx' !! "refactored_code")
    /\ escalate_flag ctx' = escalate_flag ctx.
Proof.
  intros Hclass Hreview.
  pose proof (run_stage_journal oracle "InitialWriterAgent" ["code_review"%string]
                [] "refactored_code" ctx) as Hj.
  pose proof (run_stage_flag oracle "InitialWriterAgent" ["code_review"%string]
                [] "refactored_code" ctx eq_refl) as Hf.
  destruct (Hwriter (prompt ctx) (blackboard ctx)) as (Hcalls & code & Hprod).
  assert (Hallowed : forallb (available [])
                       (calls (oracle "InitialWriterAgent" (prompt ctx) (blackboard ctx)))
                     = true) by (rewrite Hcalls; reflexivity).
  pose proof (run_stage_success oracle "InitialWriterAgent"
                ["code_review"%string] [] "refactored_code" ctx code
                ltac:(repeat constructor; assumption) Hallowed Hprod) as Hrun.
  cbn [run_agent _create_initial_writer_agent].
  rewrite Hrun in Hj, Hf |- *.
  eexists. split; [reflexivity|].
  split; [exact Hj|]. split; [|split; [|exact Hf]].
  - rewrite Hcalls. simpl. rewrite lookup_insert_ne by discriminate. exact Hclass.
  - simpl. rewrite lookup_insert_eq. eauto.
Qed.

Lemma validator_step (ctx : RunCtx) :
  ready ctx ->
  exists ctx' verdict,
    run_agent oracle (_create_validator_agent toolset) ctx = (None, ctx')
    /\ journal ctx' = journal ctx ++ [StageRan "ValidatorAgent"]
    /\ ready ctx'
    /\ blackboard ctx' !! "validation_result" = Some verdict
    /\ startswith verdict (py "APPROVED") = false.
Proof.
  intros (Hcode & Hclass & Hflag).
  pose proof (run_stage_journal oracle "ValidatorAgent" ["refactored_code"%string]
                [McpTool toolset] "validation_result" ctx) as Hj.
  pose proof (run_stage_flag oracle "ValidatorAgent" ["refactored_code"%string]
                [McpTool toolset] "validation_result" ctx eq_refl) as Hf.
  destruct (Hvalidator (prompt ctx) (blackboard ctx))
    as (Hcalls & text & Hprod & Htext).
  pose proof (run_stage_success oracle "ValidatorAgent"
                ["refactored_code"%string] [McpTool toolset]
                "validation_result" ctx text
                ltac:(repeat constructor; assumption)
                (remote_only_available [McpTool toolset] _ eq_refl Hcalls)
                Hprod) as Hrun.
  cbn [run_agent _create_validator_agent].
  rewrite Hrun in Hj, Hf |- *.
  eexists. exists text. split; [reflexivity|].
  split; [exact Hj|].
  rewrite perform_remote_only in Hf |- * by exact Hcalls.
  split; [|split].
  - split; [|split].
    + simpl. rewrite lookup_insert_ne by discriminate. exact Hcode.
    + simpl. rewrite lookup_insert_ne by discriminate. exact Hclass.
    + simpl in Hf. rewrite Hf. exact Hflag.
  - simpl. apply lookup_insert_eq.
  - exact (needs_improvement_not_approved text Htext).
Qed.

Lemma refiner_step (ctx : RunCtx) (verdict : pystr) :
  ready ctx ->
  blackboard ctx !! "validation_result" = Some verdict ->
  startswith verdict (py "APPROVED") = false ->
  exists ctx',
    run_agent oracle _create_refiner_agent ctx = (None, ctx')
    /\ journal ctx' = journal ctx ++ [StageRan "RefinerAgent"]
    /\ ready ctx'.
Proof.
  intros (Hcode & Hclass & Hflag) Hverdict Hnot.
  pose proof (run_stage_journal oracle "RefinerAgent"
                ["refactored_code"%string; "validation_result"%string]
                [ExitValidationLoopTool] "refactored_code" ctx) as Hj.
  pose proof (Hrefiner (prompt ctx) (blackboard ctx)) as Hr.
  unfold refiner_does_its_part in Hr. rewrite Hverdict, Hnot in Hr.
  destruct Hr as (Hcalls & code & Hprod).
  assert (Hallowed : forallb (available [ExitValidationLoopTool])
                       (calls (oracle "RefinerAgent" (prompt ctx) (blackboard ctx)))
                     = true) by (rewrite Hcalls; reflexivity).
  assert (Hv : is_Some (blackboard ctx !! "validation_result"))
    by (rewrite Hverdict; eauto).
  pose proof (run_stage_success oracle "RefinerAgent"
                ["refactored_code"%string; "validation_result"%string]
                [ExitValidationLoopTool] "refactored_code" ctx code
                ltac:(repeat constructor; assumption)
                Hallowed Hprod) as Hrun.
  cbn [run_agent _create_refiner_agent].
  rewrite Hrun in Hj |- *.
  eexists. split; [reflexivity|]. split; [exact Hj|].
  rewrite Hcalls. split; [|split].
  - simpl. rewrite lookup_insert_eq. eauto.
  - simpl. rewrite lookup_insert_ne by discriminate. exact Hclass.
  - exact Hflag.
Qed.

(** One iteration: the validator, then the refiner. *)
Lemma iteration_step (ctx : RunCtx) :
  ready ctx ->
  exists ctx',
    run_sequence (List.map (run_agent oracle)
                    [_create_validator_agent toolset; _create_refiner_agent]) ctx
    = (None, ctx')
    /\ journal ctx'
       = journal ctx ++ [StageRan "ValidatorAgent"; StageRan "RefinerAgent"]
    /\ ready ctx'.
Proof.
  intros Hready.
  destruct (validator_step ctx Hready) as (ctx1 & verdict & H1 & Hj1 & Hr1 & Hv & Hn).
  destruct (refiner_step ctx1 verdict Hr1 Hv Hn) as (ctx2 & H2 & Hj2 & Hr2).
  exists ctx2. cbn [List.map run_sequence].
  rewrite H1, H2. split; [reflexivity|]. split; [|exact Hr2].
  rewrite Hj2, Hj1, <- app_assoc. reflexivity.
Qed.

Lemma loop_capped (name : string) (remaining : nat) :
  forall counter ctx,
  ready ctx ->
  exists ctx',
    run_loop name
      (run_sequence (List.map (run_agent oracle)
                       [_create_validator_agent toolset; _create_refiner_agent]))
      remaining counter ctx
    = (None, ctx')
    /\ journal ctx'
       = journal ctx ++ iterations remaining
         ++ [LoopEnded name CAPPED (counter + remaining)]
    /\ ready ctx'.
Proof.
  induction remaining as [|n IH]; intros counter ctx Hready.
  - eexists. split; [reflexivity|]. simpl.
    rewrite Nat.add_0_r. split; [reflexivity | exact Hready].
  - destruct (iteration_step ctx Hready) as (ctx1 & H1 & Hj1 & Hr1).
    destruct (IH (S counter) ctx1 Hr1) as (ctx2 & H2 & Hj2 & Hr2).
    exists ctx2. cbn [run_loop]. rewrite H1.
    destruct Hr1 as (_ & _ & Hflag). rewrite Hflag.
    rewrite H2. split; [reflexivity|]. split; [|exact Hr2].
    rewrite Hj2, Hj1, <- app_assoc. simpl.
    replace (counter + S n)%nat with (S (counter + n)) by lia.
    reflexivity.
Qed.

(** The whole pipeline with a validator that is never satisfied. *)
Lemma pipeline_capped (settings : Settings) (user_prompt : pystr) :
  exists err ctx,
    run_agent oracle (_create_pipeline settings toolset) (fresh user_prompt)
    = (err, ctx)
    /\ journal ctx
       = [StageRan "ReviewerAgent"; StageRan "InitialWriterAgent"]
         ++ iterations (Z.to_nat (max_validation_iterations settings))
         ++ [LoopEnded "ValidationLoop" CAPPED
               (Z.to_nat (max_validation_iterations settings));
             StageRan "ReleaseAgent"]
    /\ escalate_flag ctx = false.
Proof.
  set (cap := Z.to_nat (max_validation_iterations settings)).
  destruct (reviewer_step (fresh user_prompt))
    as (ctx1 & H1 & Hj1 & Hc1 & Hr1 & Hf1).
  destruct (writer_step ctx1 Hc1 Hr1) as (ctx2 & H2 & Hj2 & Hc2 & Hcode2 & Hf2).
  assert (Hready : ready ctx2).
  { split; [exact Hcode2|]. split; [exact Hc2|]. rewrite Hf2, Hf1. reflexivity. }
  destruct (loop_capped "ValidationLoop" cap 0 ctx2 Hready)
    as (ctx3 & H3 & Hj3 & Hr3).
  pose proof (run_stage_journal oracle "ReleaseAgent"
                ["class_name"%string; "refactored_code"%string]
                [McpTool toolset; GenerateCompilationScriptTool]
                "release_status" ctx3) as Hj4.
  pose proof (run_stage_flag oracle "ReleaseAgent"
                ["class_name"%string; "refactored_code"%string]
                [McpTool toolset; GenerateCompilationScriptTool]
                "release_status" ctx3 eq_refl) as Hf4.
  destruct (run_stage oracle "ReleaseAgent"
              ["class_name"%string; "refactored_code"%string]
              [McpTool toolset; GenerateCompilationScriptTool]
              "release_status" ctx3) as [err4 ctx4] eqn:H4.
  simpl in Hj4, Hf4.
  exists err4, ctx4. split; [|split].
  - unfold _create_pipeline.
    cbn [run_agent List.map run_sequence] in *.
    fold cap. rewrite H1, H2, H3.
    change (run_agent oracle (_create_release_agent toolset) ctx3)
      with (run_stage oracle "ReleaseAgent"
              ["class_name"%string; "refactored_code"%string]
              [McpTool toolset; GenerateCompilationScriptTool]
              "release_status" ctx3).
    rewrite H4. destruct err4; reflexivity.
  - rewrite Hj4, Hj3, Hj2, Hj1. simpl.
    rewrite <- !app_assoc. reflexivity.
  - rewrite Hf4. destruct Hr3 as (_ & _ & Hflag). exact Hflag.
Qed.

End NeverSatisfied.

End ScenarioFacts.

Module AdkExamples.

Import Adk.

(** A run with the stubborn validator, computed. *)
Example stubborn_run_journal :
  journal (snd (run_agent stubborn_oracle
                  (_create_pipeline default_settings (make_toolset default_settings))
                  (fresh (py "Review and refactor"))))
  = [StageRan "ReviewerAgent"; StageRan "InitialWriterAgent"]
    ++ iterations 3
    ++ [LoopEnded "ValidationLoop" CAPPED 3; StageRan "ReleaseAgent"].
Proof. vm_compute. reflexivity. Qed.

End AdkExamples.

(** C4.  The validation loop is bounded by [max_validation_iterations]:
    in every run of the pipeline, whatever the language model does, the
    validator and the refiner are each started at most that many times.
    With the cap at 3 (the default), a validator that always asks for
    an improvement, and a reviewer, a writer and a refiner that keep to
    their roles (the refiner calls [exit_validation_loop] on an approval
    only), the loop makes exactly three iterations, validator then
    refiner, ends CAPPED with the escalate flag still unset, and the
    release stage is started after it.  The validator alone does not
    decide this: the language model behind the refiner is free to call
    the exit tool. *)
Theorem validation_loop_capped :
  (forall oracle settings toolset role,
     role = "ValidatorAgent"%string \/ role = "RefinerAgent"%string ->
     Adk.starts_at_most role (Z.to_nat (max_validation_iterations settings))
       (Adk.run_agent oracle (_create_pipeline settings toolset)))
  /\ max_validation_iterations default_settings = 3%Z
  /\ (forall oracle settings toolset user_prompt,
        max_validation_iterations settings = 3%Z ->
        (forall p bb, Adk.reviewer_does_its_part (oracle "ReviewerAgent"%string p bb)) ->
        (forall p bb, Adk.writer_does_its_part (oracle "InitialWriterAgent"%string p bb)) ->
        (forall p bb, Adk.validator_needs_improvement (oracle "ValidatorAgent"%string p bb)) ->
        (forall p bb, Adk.refiner_does_its_part bb (oracle "RefinerAgent"%string p bb)) ->
        exists err ctx,
          Adk.run_agent oracle (_create_pipeline settings toolset)
            (Adk.fresh user_prompt) = (err, ctx)
          /\ Adk.journal ctx
             = [Adk.StageRan "ReviewerAgent"; Adk.StageRan "InitialWriterAgent";
                Adk.StageRan "ValidatorAgent"; Adk.StageRan "RefinerAgent";
                Adk.StageRan "ValidatorAgent"; Adk.StageRan "RefinerAgent";
                Adk.StageRan "ValidatorAgent"; Adk.StageRan "RefinerAgent";
                Adk.LoopEnded "ValidationLoop" Adk.CAPPED 3;
                Adk.StageRan "ReleaseAgent"]
          /\ Adk.escalate_flag ctx = false).
Proof.
  split; [|split].
  - intros oracle settings toolset role Hrole.
    exact (AdkFacts.pipeline_loop_stage_bound oracle settings toolset role Hrole).
  - reflexivity.
  - intros oracle settings toolset user_prompt Hcap Hrev Hwri Hval Href.
    destruct (ScenarioFacts.pipeline_capped oracle Hrev Hwri Hval Href
                toolset settings user_prompt) as (err & ctx & Hrun & Hj & Hf).
    exists err, ctx. split; [exact Hrun|]. split; [|exact Hf].
    rewrite Hj, Hcap. reflexivity.
Qed.

Module StubbornFacts.

Import Adk.

Lemma stubborn_reviewer p bb :
  reviewer_does_its_part (stubborn_oracle "ReviewerAgent" p bb).
Proof. unfold reviewer_does_its_part. simpl. repeat eexists. Qed.

Lemma stubborn_writer p bb :
  writer_does_its_part (stubborn_oracle "InitialWriterAgent" p bb).
Proof. unfold writer_does_its_part. simpl. split; [reflexivity | eexists; reflexivity]. Qed.

Lemma stubborn_validator p bb :
  validator_needs_improvement (stubborn_oracle "ValidatorAgent" p bb).
Proof.
  unfold validator_needs_improvement. simpl. split; [reflexivity|].
  eexists. split; reflexivity.
Qed.

Lemma stubborn_refiner p bb :
  refiner_does_its_part bb (stubborn_oracle "RefinerAgent" p bb).
Proof.
  unfold refiner_does_its_part, stubborn_oracle. simpl.
  destruct (bb !! "validation_result") as [verdict|]; [|exact I].
  destruct (startswith verdict (py "APPROVED")); [reflexivity|].
  split; [reflexivity | eexists; reflexivity].
Qed.

End StubbornFacts.

Lemma validation_loop_capped_witness :
  ("ValidatorAgent"%string = "ValidatorAgent"%string
   \/ "ValidatorAgent"%string = "RefinerAgent"%string)
  /\ Adk.starts_at_most "ValidatorAgent" 3
       (Adk.run_agent Adk.stubborn_oracle
          (_create_pipeline default_settings (make_toolset default_settings)))
  /\ max_validation_iterations default_settings = 3%Z
  /\ (forall p bb, Adk.reviewer_does_its_part (Adk.stubborn_oracle "ReviewerAgent"%string p bb))
  /\ (forall p bb, Adk.writer_does_its_part (Adk.stubborn_oracle "InitialWriterAgent"%string p bb))
  /\ (forall p bb, Adk.validator_needs_improvement (Adk.stubborn_oracle "ValidatorAgent"%string p bb))
  /\ (forall p bb, Adk.refiner_does_its_part bb (Adk.stubborn_oracle "RefinerAgent"%string p bb))
  /\ exists err ctx,
       Adk.run_agent Adk.stubborn_oracle
         (_create_pipeline default_settings (make_toolset default_settings))
         (Adk.fresh (py "Review and refactor")) = (err, ctx)
       /\ Adk.journal ctx
          = [Adk.StageRan "ReviewerAgent"; Adk.StageRan "InitialWriterAgent";
             Adk.StageRan "ValidatorAgent"; Adk.StageRan "RefinerAgent";
             Adk.StageRan "ValidatorAgent"; Adk.StageRan "RefinerAgent";
             Adk.StageRan "ValidatorAgent"; Adk.StageRan "RefinerAgent";
             Adk.LoopEnded "ValidationLoop" Adk.CAPPED 3;
             Adk.StageRan "ReleaseAgent"]
       /\ Adk.escalate_flag ctx = false.
Proof.
  split; [left; reflexivity|].
  split.
  { exact (proj1 validation_loop_capped Adk.stubborn_oracle default_settings
             (make_toolset default_settings) "ValidatorAgent"%string
             (or_introl eq_refl)). }
  split; [reflexivity|].
  split; [exact StubbornFacts.stubborn_reviewer|].
  split; [exact StubbornFacts.stubborn_writer|].
  split; [exact StubbornFacts.stubborn_validator|].
  split; [exact StubbornFacts.stubborn_refiner|].
  exact (proj2 (proj2 validation_loop_capped) Adk.stubborn_oracle default_settings
           (make_toolset default_settings) (py "Review and refactor") eq_refl
           StubbornFacts.stubborn_reviewer StubbornFacts.stubborn_writer
           StubbornFacts.stubborn_validator StubbornFacts.stubborn_refiner).
Defined.

(** C4, as stated, fails: the claim asks of the validator only.  With
    the cap at 3 and a validator that always asks for an improvement, a
    refiner that calls [exit_validation_loop] all the same ends the loop
    after one iteration, EXITED and with the escalate flag set. *)
Lemma validation_loop_left_early :
  max_validation_iterations default_settings = 3%Z
  /\ (forall p bb,
        Adk.validator_needs_improvement (Adk.hasty_oracle "ValidatorAgent"%string p bb))
  /\ (forall p bb,
        Adk.reviewer_does_its_part (Adk.hasty_oracle "ReviewerAgent"%string p bb))
  /\ (forall p bb,
        Adk.writer_does_its_part (Adk.hasty_oracle "InitialWriterAgent"%string p bb))
  /\ Adk.run_debug Adk.hasty_oracle
       (_create_pipeline default_settings (make_toolset default_settings))
       (py "Review and refactor")
     = Returns
         (snd (Adk.run_agent Adk.hasty_oracle
                 (_create_pipeline default_settings (make_toolset default_settings))
                 (Adk.fresh (py "Review and refactor"))))
  /\ Adk.journal
       (snd (Adk.run_agent Adk.hasty_oracle
               (_create_pipeline default_settings (make_toolset default_settings))
               (Adk.fresh (py "Review and refactor"))))
     = [Adk.StageRan "ReviewerAgent"; Adk.StageRan "InitialWriterAgent";
        Adk.StageRan "ValidatorAgent"; Adk.StageRan "RefinerAgent";
        Adk.LoopEnded "ValidationLoop" Adk.EXITED 1;
        Adk.StageRan "ReleaseAgent"]
  /\ Adk.escalate_flag
       (snd (Adk.run_agent Adk.hasty_oracle
               (_create_pipeline default_settings (make_toolset default_settings))
               (Adk.fresh (py "Review and refactor"))))
     = true.
Proof.
  split; [reflexivity|]. split; [|split; [|split; [|split; [|split]]]].
  - intros p bb. unfold Adk.validator_needs_improvement. simpl.
    split; [reflexivity|]. eexists. split; reflexivity.
  - intros p bb. unfold Adk.reviewer_does_its_part. simpl. repeat eexists.
  - intros p bb. unfold Adk.writer_does_its_part. simpl.
    split; [reflexivity | eexists; reflexivity].
  - vm_compute. reflexivity.
  - vm_compute. reflexivity.
  - vm_compute. reflexivity.
Qed.

(** ** The executor, several callers *)

Module LockFacts.

Import System.

Lemma not_woken_tail (ws : list Waiter) : not_woken ws -> not_woken (tail ws).
Proof. intros H. destruct H; simpl; [constructor | assumption]. Qed.

Lemma not_woken_filter (f : Waiter -> bool) (ws : list Waiter) :
  not_woken ws -> not_woken (List.filter f ws).
Proof.
  induction 1 as [|w ws Hw _ IH]; simpl; [constructor|].
  destruct (f w); [constructor; assumption | exact IH].
Qed.

Lemma not_woken_tail_filter (f : Waiter -> bool) (ws : list Waiter) :
  not_woken (tail ws) -> not_woken (tail (List.filter f ws)).
Proof.
  destruct ws as [|w ws]; simpl; [intros; constructor|].
  intros H. destruct (f w); simpl.
  - apply not_woken_filter. exact H.
  - apply not_woken_tail, not_woken_filter. exact H.
Qed.

Lemma lock_ok_enqueue (t : nat) (l : Lock) : lock_ok l -> lock_ok (enqueue t l).
Proof.
  intros [Htail Hlocked]. unfold lock_ok, enqueue. simpl. split.
  - destruct (_waiters l) as [|w ws]; simpl; [constructor|].
    simpl in Htail. apply Forall_app. split; [exact Htail|].
    constructor; [discriminate | constructor].
  - intros H. apply Forall_app. split; [exact (Hlocked H)|].
    constructor; [discriminate | constructor].
Qed.

Lemma lock_ok_dequeue (t : nat) (l : Lock) : lock_ok l -> lock_ok (dequeue t l).
Proof.
  intros [Htail Hlocked]. unfold lock_ok, dequeue. simpl. split.
  - apply not_woken_tail_filter. exact Htail.
  - intros H. apply not_woken_filter. exact (Hlocked H).
Qed.

Lemma not_woken_cancel (t : nat) (ws : list Waiter) :
  not_woken ws ->
  not_woken (List.map (fun w => if Nat.eqb (waiter_task w) t
                                then mkWaiter t FutCancelled else w) ws).
Proof.
  induction 1 as [|w ws Hw _ IH]; simpl; constructor; [|exact IH].
  destruct (Nat.eqb (waiter_task w) t); [discriminate | exact Hw].
Qed.

Lemma lock_ok_cancel (t : nat) (l : Lock) : lock_ok l -> lock_ok (cancel_fut t l).
Proof.
  intros [Htail Hlocked]. unfold lock_ok, cancel_fut. simpl. split.
  - destruct (_waiters l) as [|w ws]; simpl; [constructor|].
    apply not_woken_cancel. exact Htail.
  - intros H. apply not_woken_cancel. exact (Hlocked H).
Qed.

Lemma wake_up_first_tail (l : Lock) :
  tail (_waiters (_wake_up_first l)) = tail (_waiters l).
Proof.
  unfold _wake_up_first. destruct (_waiters l) as [|w ws] eqn:Hw; [rewrite Hw; reflexivity|].
  destruct (fut_done (waiter_fut w)); [rewrite Hw; reflexivity | reflexivity].
Qed.

(** Waking the first waiter of a free lock. *)
Lemma lock_ok_wake (l : Lock) :
  _locked l = false -> lock_ok l -> lock_ok (_wake_up_first l).
Proof.
  intros Hfree [Htail _]. split.
  - rewrite wake_up_first_tail. exact Htail.
  - rewrite ExecutorFacts.wake_up_first_locked, Hfree. discriminate.
Qed.

Lemma lock_ok_unlock (l : Lock) : lock_ok l -> lock_ok (mkLock false (_waiters l)).
Proof. intros [Htail _]. split; [exact Htail | discriminate]. Qed.

Lemma lock_ok_released (l : Lock) :
  lock_ok l -> lock_ok (_wake_up_first (mkLock false (_waiters l))).
Proof. intros H. apply lock_ok_wake; [reflexivity | apply lock_ok_unlock, H]. Qed.

Lemma lock_ok_taken (ws : list Waiter) : not_woken ws -> lock_ok (mkLock true ws).
Proof. intros H. split; [apply not_woken_tail, H | intros _; exact H]. Qed.

(** A lock that is free for a newcomer has woken nobody. *)
Lemma free_not_woken (l : Lock) :
  free_for_newcomer l = true -> _locked l = false /\ not_woken (_waiters l).
Proof.
  unfold free_for_newcomer. intros H. apply andb_true_iff in H.
  destruct H as [Hl Hws]. split; [destruct (_locked l); [discriminate|reflexivity]|].
  unfold not_woken. rewrite forallb_forall in Hws.
  apply List.Forall_forall. intros w Hin Hw.
  specialize (Hws w Hin). rewrite Hw in Hws. discriminate.
Qed.

(** A woken waiter is the first of the queue, and the lock is free. *)
Lemma woken_is_first (t : nat) (l : Lock) :
  lock_ok l -> fut_of t l = Some FutResult ->
  _locked l = false /\ not_woken (_waiters (dequeue t l)).
Proof.
  intros [Htail Hlocked]. unfold fut_of, dequeue. simpl.
  destruct (List.find _ (_waiters l)) as [w|] eqn:Hfind; [|discriminate].
  intros Hfut. injection Hfut as Hfut.
  apply find_some in Hfind. destruct Hfind as [Hin Htask].
  apply Nat.eqb_eq in Htask.
  assert (Hnot : ~ not_woken (_waiters l)).
  { intros Hnw. unfold not_woken in Hnw. rewrite List.Forall_forall in Hnw.
    exact (Hnw w Hin Hfut). }
  split.
  - destruct (_locked l); [|reflexivity]. exfalso. exact (Hnot (Hlocked eq_refl)).
  - destruct (_waiters l) as [|w0 ws]; [destruct Hin|].
    simpl in Htail. destruct Hin as [Hw|Hin].
    + subst w0. simpl. rewrite Htask, Nat.eqb_refl. simpl.
      apply not_woken_filter. exact Htail.
    + exfalso. unfold not_woken in Htail. rewrite List.Forall_forall in Htail.
      exact (Htail w Hin Hfut).
Qed.

End LockFacts.

Module SystemFacts.

Import Adk System LockFacts.

Lemma inside_insert (s : State) (svc' : AgentService) (t t0 : nat) (task : Task) :
  inside (mkState svc' (<[t := task]> (tasks s))) t0
  <-> (t0 = t /\ is_inside task = true) \/ (t0 <> t /\ inside s t0).
Proof.
  unfold inside. simpl. destruct (decide (t0 = t)) as [->|Hne].
  - rewrite lookup_insert_eq. split.
    + intros (c & m & p & u & H). injection H as ->. left. split; reflexivity.
    + intros [[_ H]|[H _]]; [|congruence].
      destruct task; try discriminate H. eauto.
  - rewrite lookup_insert_ne by congruence. split.
    + intros H. right. split; assumption.
    + intros [[H _]|[_ H]]; [congruence | exact H].
Qed.

Lemma enter_cases (env : Env) (c m : pystr) (svc : AgentService) :
  _locked (_lock svc) = true ->
  (exists p u svc',
      enter env c m svc = (svc', Inside c m p u) /\ _lock svc' = _lock svc)
  \/ (exists r svc',
        enter env c m svc = (svc', Finished r)
        /\ _lock svc' = _wake_up_first (mkLock false (_waiters (_lock svc)))).
Proof.
  intros Hlocked. unfold enter.
  pose proof (ExecutorFacts.try_begin_lock env c m svc) as Hl.
  destruct (try_begin env c m svc) as [[p u|r] svc']; simpl in Hl.
  - left. eauto.
  - right. rewrite ExecutorFacts.leave_lock_taken by (rewrite Hl; exact Hlocked).
    eexists _, _. split; [reflexivity|]. simpl. rewrite Hl. reflexivity.
Qed.

Lemma initial_invariant (settings : Settings) : invariant (initial settings).
Proof.
  split; simpl.
  - intros t (c & m & p & u & H). simpl in H.
    rewrite lookup_empty in H. discriminate.
  - discriminate.
  - intros t1 t2 (c & m & p & u & H). simpl in H.
    rewrite lookup_empty in H. discriminate.
  - split; [constructor | discriminate].
Qed.

(** A step that changes a task outside the locked section and leaves the
    lock bit alone. *)
Lemma invariant_outside (s : State) (svc' : AgentService) (t : nat) (task : Task) :
  invariant s ->
  is_inside task = false ->
  ~ inside s t ->
  _locked (_lock svc') = _locked (_lock (service s)) ->
  lock_ok (_lock svc') ->
  invariant (mkState svc' (<[t := task]> (tasks s))).
Proof.
  intros [H1 H2 H3 H4] Htask Hnot Hbit Hok.
  assert (Hsame : forall t0, inside (mkState svc' (<[t := task]> (tasks s))) t0
                             <-> inside s t0).
  { intros t0. rewrite inside_insert. split.
    - intros [[_ H]|[_ H]]; [congruence | exact H].
    - intros H. right. split; [|exact H]. intros ->. exact (Hnot H). }
  split.
  - intros t0 H. apply Hsame in H. simpl. rewrite Hbit. exact (H1 t0 H).
  - simpl. rewrite Hbit. intros H. destruct (H2 H) as [t0 Ht0].
    exists t0. apply Hsame. exact Ht0.
  - intros t1 t2 Ha Hb. apply Hsame in Ha. apply Hsame in Hb. exact (H3 t1 t2 Ha Hb).
  - exact Hok.
Qed.

(** Taking the free lock and going into the body. *)
Lemma invariant_enter (env : Env) (s : State) (t : nat) (c m : pystr)
    (svc1 svc' : AgentService) (task : Task) :
  invariant s ->
  _locked (_lock (service s)) = false ->
  _locked (_lock svc1) = true ->
  not_woken (_waiters (_lock svc1)) ->
  enter env c m svc1 = (svc', task) ->
  invariant (mkState svc' (<[t := task]> (tasks s))).
Proof.
  intros Hinv Hfree Htaken Hnw Henter.
  assert (Hnone : forall t0, ~ inside s t0).
  { intros t0 H. apply (inv_inside_locked s Hinv) in H. congruence. }
  destruct (enter_cases env c m svc1 Htaken)
    as [(p & u & svc2 & He & Hl)|(r & svc2 & He & Hl)];
    rewrite He in Henter; injection Henter as <- <-.
  - split; simpl.
    + intros _ _. rewrite Hl. exact Htaken.
    + intros _. exists t. apply inside_insert. left. split; reflexivity.
    + intros t1 t2 Ha Hb. apply inside_insert in Ha. apply inside_insert in Hb.
      destruct Ha as [[-> _]|[_ Ha]]; [|destruct (Hnone _ Ha)].
      destruct Hb as [[-> _]|[_ Hb]]; [reflexivity | destruct (Hnone _ Hb)].
    + rewrite Hl. destruct (_lock svc1) as [b ws]. simpl in *. subst b.
      apply lock_ok_taken. exact Hnw.
  - apply invariant_outside; [exact Hinv | reflexivity | apply Hnone | |].
    + rewrite Hl, ExecutorFacts.wake_up_first_locked. simpl. congruence.
    + rewrite Hl. apply lock_ok_wake; [reflexivity|].
      split; [apply not_woken_tail; exact Hnw | discriminate].
Qed.

(** Leaving the locked section. *)
Lemma invariant_leave (s : State) (t : nat)
    (r r' : Outcome (gmap string PyVal)) (svc' : AgentService) :
  invariant s ->
  inside s t ->
  leave_lock r (service s) = (r', svc') ->
  invariant (mkState svc' (<[t := Finished r']> (tasks s))).
Proof.
  intros Hinv Hin Hleave.
  pose proof (inv_inside_locked s Hinv t Hin) as Hlocked.
  rewrite ExecutorFacts.leave_lock_taken in Hleave by exact Hlocked.
  injection Hleave as <- <-.
  assert (Hnone : forall t0,
            ~ inside (mkState
                        (with_lock (_wake_up_first
                                      (mkLock false (_waiters (_lock (service s)))))
                           (service s))
                        (<[t := Finished r]> (tasks s))) t0).
  { intros t0 H. apply inside_insert in H.
    destruct H as [[_ H]|[Hne H]]; [discriminate H|].
    exact (Hne (inv_unique s Hinv t0 t H Hin)). }
  split; simpl.
  - intros t0 H. destruct (Hnone t0 H).
  - rewrite ExecutorFacts.wake_up_first_locked. discriminate.
  - intros t1 t2 H. destruct (Hnone t1 H).
  - apply lock_ok_released. exact (inv_lock s Hinv).
Qed.

Lemma not_inside_absent (s : State) (t : nat) :
  tasks s !! t = None -> ~ inside s t.
Proof. intros H (c & m & p & u & H'). congruence. Qed.

Lemma not_inside_waiting (s : State) (t : nat) (c m : pystr) (b : bool) :
  tasks s !! t = Some (Waiting c m b) -> ~ inside s t.
Proof. intros H (c' & m' & p & u & H'). congruence. Qed.

Lemma invariant_abandon (s : State) (t : nat) (c m : pystr) (b : bool) :
  invariant s ->
  tasks s !! t = Some (Waiting c m b) ->
  invariant (mkState (fst (abandon t (service s)))
               (<[t := snd (abandon t (service s))]> (tasks s))).
Proof.
  intros Hinv Ht. unfold abandon. simpl fst. simpl snd.
  pose proof (lock_ok_dequeue t _ (inv_lock s Hinv)) as Hok.
  apply invariant_outside;
    [exact Hinv | reflexivity | exact (not_inside_waiting s t c m b Ht) | |].
  - simpl. unfold locked. simpl.
    destruct (_locked (_lock (service s))) eqn:Hl.
    + simpl. exact Hl.
    + rewrite ExecutorFacts.wake_up_first_locked. simpl. exact Hl.
  - simpl. unfold locked. simpl.
    destruct (_locked (_lock (service s))) eqn:Hl.
    + exact Hok.
    + apply lock_ok_wake; [simpl; exact Hl | exact Hok].
Qed.

(** Every step keeps the invariant. *)
Lemma step_invariant (env : Env) (lbl : Label) (s s' : State) :
  invariant s -> step env lbl s = Some s' -> invariant s'.
Proof.
  intros Hinv Hstep. destruct lbl as [t c m|t|t o|t]; simpl in Hstep.
  - destruct (tasks s !! t) as [task|] eqn:Ht; [discriminate|].
    destruct (free_for_newcomer (_lock (service s))) eqn:Hfree.
    + destruct (enter env c m _) as [svc' task] eqn:Henter.
      injection Hstep as <-.
      destruct (free_not_woken _ Hfree) as [Hl Hnw].
      exact (invariant_enter env s t c m
               (with_lock (take (_lock (service s))) (service s))
               svc' task Hinv Hl eq_refl Hnw Henter).
    + injection Hstep as <-.
      apply invariant_outside;
        [exact Hinv | reflexivity | exact (not_inside_absent s t Ht)
         | reflexivity | ].
      simpl. apply lock_ok_enqueue. exact (inv_lock s Hinv).
  - destruct (tasks s !! t) as [[c m b|c m p u|r]|] eqn:Ht; try discriminate.
    destruct (fut_of t (_lock (service s))) as [[| |]|] eqn:Hfut; try discriminate.
    + destruct b.
      * injection Hstep as <-.
        exact (invariant_abandon s t c m true Hinv Ht).
      * destruct (enter env c m _) as [svc' task] eqn:Henter.
        injection Hstep as <-.
        destruct (woken_is_first t _ (inv_lock s Hinv) Hfut) as [Hl Hnw].
        exact (invariant_enter env s t c m
                 (with_lock (take (dequeue t (_lock (service s)))) (service s))
                 svc' task Hinv Hl eq_refl Hnw Henter).
    + injection Hstep as <-.
      exact (invariant_abandon s t c m b Hinv Ht).
  - destruct (tasks s !! t) as [[c m b|c m p u|r]|] eqn:Ht; try discriminate.
    destruct (leave_lock (try_end c m o) (service s)) as [r' svc'] eqn:Hleave.
    injection Hstep as <-.
    apply (invariant_leave s t (try_end c m o) r' svc' Hinv); [|exact Hleave].
    exists c, m, p, u. exact Ht.
  - destruct (tasks s !! t) as [[c m b|c m p u|r]|] eqn:Ht; try discriminate.
    destruct (fut_of t (_lock (service s))) as [[| |]|] eqn:Hfut; try discriminate.
    + injection Hstep as <-.
      destruct Hinv as [H1 H2 H3 H4]. split; simpl.
      * exact H1.
      * exact H2.
      * exact H3.
      * apply lock_ok_cancel. exact H4.
    + injection Hstep as <-.
      apply invariant_outside;
        [exact Hinv | reflexivity | exact (not_inside_waiting s t c m b Ht)
         | reflexivity | exact (inv_lock s Hinv)].
Qed.

Lemma run_invariant (env : Env) (schedule : list Label) :
  forall s s', invariant s -> run env schedule s = Some s' -> invariant s'.
Proof.
  induction schedule as [|lbl more IH]; intros s s' Hinv Hrun; simpl in Hrun.
  - injection Hrun as <-. exact Hinv.
  - destruct (step env lbl s) as [s1|] eqn:Hstep; [|discriminate].
    exact (IH s1 s' (step_invariant env lbl s s1 Hinv Hstep) Hrun).
Qed.

Lemma reachable_invariant (env : Env) (settings : Settings) (s : State) :
  reachable env settings s -> invariant s.
Proof.
  intros [schedule Hrun].
  exact (run_invariant env schedule _ s (initial_invariant settings) Hrun).
Qed.

(** With at most one task inside, the counter is at most one. *)
Lemma inside_count_le_1 (s : State) :
  (forall t1 t2, inside s t1 -> inside s t2 -> t1 = t2) ->
  (inside_count s <= 1)%nat.
Proof.
  intros Huniq. unfold inside_count.
  set (m := filter (fun kv : nat * Task => is_inside (snd kv) = true) (tasks s)).
  destruct (decide (m = ∅)) as [->|Hne].
  - rewrite map_size_empty. lia.
  - destruct (map_choose m Hne) as (k & v & Hk).
    assert (Hin : forall i x, m !! i = Some x -> inside s i).
    { intros i x H. apply map_lookup_filter_Some in H. destruct H as [H Hx].
      simpl in Hx. destruct x; try discriminate Hx. eexists _, _, _, _. exact H. }
    assert (Hm : m = {[k := v]}).
    { apply map_eq. intros i. destruct (decide (i = k)) as [->|Hik].
      - rewrite lookup_singleton_eq. exact Hk.
      - rewrite lookup_singleton_ne by congruence.
        destruct (m !! i) as [x|] eqn:Hi; [|reflexivity].
        exfalso. apply Hik. exact (Huniq i k (Hin i x Hi) (Hin k v Hk)). }
    rewrite Hm, map_size_singleton. lia.
Qed.

End SystemFacts.

Module SystemExamples.

Import System.

(** The second caller waits while the first is inside, and is inside
    itself in the end. *)
Example two_callers_run :
  match run failing_env two_callers (initial default_settings) with
  | Some s =>
      is_busy (service s) = true
      /\ inside_count s = 1%nat
      /\ (exists r, tasks s !! 0%nat = Some (Finished (Returns r)))
      /\ is_inside (default (Finished (Raises (mkExc SystemExit []))) (tasks s !! 1%nat)) = true
  | None => False
  end.
Proof. vm_compute. repeat split. eexists. reflexivity. Qed.

Example second_caller_waits :
  match run failing_env (firstn 2 two_callers) (initial default_settings) with
  | Some s =>
      tasks s !! 1%nat = Some (Waiting (py "Calculator") (py "add:to:") false)
      /\ inside_count s = 1%nat
  | None => False
  end.
Proof. vm_compute. split; reflexivity. Qed.

(** One call in the world of the stubborn validator: the record says
    success, the release status is on the blackboard, the validator ran
    three times, and the lock is free again. *)
Example stubborn_refactor :
  match refactor_method (oracle_env Adk.stubborn_oracle) (py "Calculator")
          (py "sum:with:") (new_service default_settings) with
  | Some (Returns d, svc') =>
      d !! "success" = Some (VBool true)
      /\ is_busy svc' = false
      /\ match d !! "result" with
         | Some (VResponse ctx) =>
             Adk.blackboard ctx !! "release_status" = Some (py "RELEASED: sum:with:")
             /\ Adk.blackboard ctx !! "class_name" = Some (py "Calculator")
             /\ Adk.stage_runs "ValidatorAgent" (Adk.journal ctx) = 3%nat
         | _ => False
         end
  | _ => False
  end.
Proof. vm_compute. repeat split. Qed.

End SystemExamples.

(** C3.  The lock is taken before a call of [refactor_method] does any
    pipeline work and is free again when the call returns, whether the
    body returned a record or let an exception through.  In every state
    that callers, scheduler and cancellations can bring about, at most
    one call is inside the locked section (the counter of the tasks
    inside never exceeds one), and [is_busy] is true exactly when a call
    is inside; the pipeline run of a call ends while the lock is taken,
    and with its end the call returns and the lock is free; a call that
    has returned is not inside. *)
Theorem single_flight :
  (forall env settings s,
     System.reachable env settings s ->
     (forall t1 t2, System.inside s t1 -> System.inside s t2 -> t1 = t2)
     /\ (System.inside_count s <= 1)%nat
     /\ (is_busy (System.service s) = true <-> exists t, System.inside s t)
     /\ (forall t r, System.tasks s !! t = Some (System.Finished r) ->
                     ~ System.inside s t)
     /\ (forall t o s',
           System.step env (System.Complete t o) s = Some s' ->
           System.inside s t
           /\ is_busy (System.service s) = true
           /\ is_busy (System.service s') = false
           /\ exists r, System.tasks s' !! t = Some (System.Finished r)))
  /\ (forall env class_name method_name svc,
        free_for_newcomer (_lock svc) = true ->
        is_busy (with_lock (take (_lock svc)) svc) = true
        /\ (forall pipeline prompt svc1,
           try_begin env class_name method_name
             (with_lock (take (_lock svc)) svc)
           = (AwaitingRun pipeline prompt, svc1) ->
           is_busy svc1 = true)
        /\ exists r svc',
             refactor_method env class_name method_name svc = Some (r, svc')
             /\ is_busy svc' = false).
Proof.
  split.
  - intros env settings s Hreach.
    pose proof (SystemFacts.reachable_invariant env settings s Hreach) as Hinv.
    split; [exact (System.inv_unique s Hinv)|].
    split; [exact (SystemFacts.inside_count_le_1 s (System.inv_unique s Hinv))|].
    split; [split|].
    + exact (System.inv_locked_inside s Hinv).
    + intros [t Ht]. exact (System.inv_inside_locked s Hinv t Ht).
    + split; [intros t r Ht (c & m & p & u & H); congruence|].
      intros t o s' Hstep. unfold System.step in Hstep.
      destruct (System.tasks s !! t) as [[c m b|c m p u|r]|] eqn:Ht;
        try discriminate Hstep.
      assert (Hin : System.inside s t) by (exists c, m, p, u; exact Ht).
      pose proof (System.inv_inside_locked s Hinv t Hin) as Hlocked.
      rewrite ExecutorFacts.leave_lock_taken in Hstep by exact Hlocked.
      injection Hstep as <-. simpl.
      split; [exact Hin|]. split; [exact Hlocked|]. split.
      * unfold is_busy, locked. simpl.
        rewrite ExecutorFacts.wake_up_first_locked. reflexivity.
      * rewrite lookup_insert_eq. eauto.
  - intros env class_name method_name svc Hfree. split; [reflexivity|]. split.
    + intros pipeline prompt svc1 Hbegin.
      pose proof (ExecutorFacts.try_begin_lock env class_name method_name
                    (with_lock (take (_lock svc)) svc)) as Hl.
      rewrite Hbegin in Hl. simpl in Hl.
      unfold is_busy, locked. rewrite Hl. reflexivity.
    + destruct (ExecutorFacts.refactor_method_alone env class_name method_name
                  svc Hfree) as (svc' & Hr & Hbusy).
      eexists _, svc'. split; [exact Hr | exact Hbusy].
Qed.

Lemma single_flight_witness :
  exists s,
    System.run failing_env System.two_callers (System.initial default_settings)
    = Some s
    /\ (System.inside_count s <= 1)%nat
    /\ (is_busy (System.service s) = true <-> exists t, System.inside s t)
    /\ free_for_newcomer (_lock (new_service default_settings)) = true
    /\ exists r svc',
         refactor_method failing_env (py "Calculator") (py "sum:with:")
           (new_service default_settings) = Some (r, svc')
         /\ is_busy svc' = false.
Proof.
  destruct (System.run failing_env System.two_callers
              (System.initial default_settings)) as [s|] eqn:Hrun;
    [|vm_compute in Hrun; discriminate Hrun].
  exists s. split; [reflexivity|].
  destruct (proj1 single_flight failing_env default_settings s
              (ex_intro _ System.two_callers Hrun)) as (_ & Hcount & Hbusy & _).
  split; [exact Hcount|]. split; [exact Hbusy|].
  split; [reflexivity|].
  exact (proj2 (proj2 (proj2 single_flight failing_env (py "Calculator")
                         (py "sum:with:") (new_service default_settings)
                         eq_refl))).
Defined.

(** ** What callers get back *)

Module ResultFacts.

Import Adk System.








End ResultFacts.

Module AccountFacts.

Import Adk System LockFacts.
















End AccountFacts.




(* ===================================================================== *)
(** * Further properties                                                 *)
(* ===================================================================== *)

(** ** The encoder, continued *)

Module EncoderMore.

Import Shape Decoder.

Lemma gcs_unfold (class_name code : pystr) :
  code <> [] ->
  generate_compilation_script class_name code
  = class_name ++ COMPILE_OPEN
    ++ join SEP (List.map pharo_line (splitlines code)) ++ COMPILE_CLOSE.
Proof. destruct code; [congruence | reflexivity]. Qed.

(** A text without line break is one line. *)
Lemma splitlines_from_plain (s : pystr) :
  forall line, no_break s -> line ++ s <> [] ->
  splitlines_from line s = [line ++ s].
Proof.
  induction s as [|c rest IH]; intros line Hs Hne; simpl.
  - rewrite app_nil_r in *. destruct line; [congruence | reflexivity].
  - inversion Hs as [|? ? Hc Hrest]; subst. rewrite Hc.
    rewrite IH; [rewrite <- app_assoc; reflexivity | exact Hrest |].
    destruct line; discriminate.
Qed.

(** A line feed after a text without line break ends the line. *)
Lemma splitlines_from_lf (x : pystr) :
  forall line rest, no_break x ->
  splitlines_from line (x ++ LF :: rest)
  = (line ++ x) :: splitlines_from [] rest.
Proof.
  induction x as [|c x IH]; intros line rest Hx.
  - rewrite app_nil_r. simpl. destruct rest; reflexivity.
  - inversion Hx as [|? ? Hc Hx']; subst. simpl. rewrite Hc.
    rewrite IH by exact Hx'. rewrite <- app_assoc. reflexivity.
Qed.

Lemma join_cons_more (sep x : pystr) (xs : list pystr) :
  xs <> [] -> join sep (x :: xs) = x ++ sep ++ join sep xs.
Proof. destruct xs; [congruence | reflexivity]. Qed.

(** Lines joined by line feeds are split into the same lines. *)
Lemma splitlines_join_lf (init : list pystr) (final : pystr) :
  Forall no_break (init ++ [final]) -> final <> [] ->
  splitlines (join [LF] (init ++ [final])) = init ++ [final].
Proof.
  intros Hall Hfinal. induction init as [|l init IH].
  - simpl. inversion Hall; subst.
    apply (splitlines_from_plain final []); assumption.
  - change ((l :: init) ++ [final]) with (l :: (init ++ [final])) in *.
    inversion Hall as [|? ? Hl Hrest]; subst.
    rewrite join_cons_more by (destruct init; discriminate).
    change ([LF] ++ join [LF] (init ++ [final]))
      with (LF :: join [LF] (init ++ [final])).
    unfold splitlines. rewrite splitlines_from_lf by exact Hl.
    simpl. f_equal. exact (IH Hrest).
Qed.

Lemma linebreak_closes_line (b : N) : is_linebreak b = true -> closes_line [b].
Proof. intros Hb line. simpl. rewrite Hb. reflexivity. Qed.

Lemma crlf_closes_line : closes_line [CR; LF].
Proof. intros line. reflexivity. Qed.

(** A terminator after a text that ends in a plain character adds no
    line.  The induction is on a bound of the length, as [splitlines]
    steps over two characters at a time. *)
Lemma splitlines_from_terminator (tm : pystr) (c : N) (n : nat) :
  closes_line tm -> is_linebreak c = false ->
  forall s line, (length s <= n)%nat ->
  splitlines_from line ((s ++ [c]) ++ tm) = splitlines_from line (s ++ [c]).
Proof.
  intros Htm Hc. induction n as [|n IH]; intros s line Hlen.
  - destruct s; [|simpl in Hlen; lia]. simpl. rewrite Hc.
    rewrite Htm. simpl. destruct (line ++ [c]) eqn:E; [|reflexivity].
    destruct line; discriminate.
  - destruct s as [|d s'].
    + apply (IH [] line). simpl. lia.
    + simpl in Hlen. simpl. destruct (is_linebreak d) eqn:Hd.
      * f_equal. destruct s' as [|d' s''].
        -- simpl.
           assert (Hlf : (c =? LF) = false).
           { apply N.eqb_neq. intros ->. discriminate Hc. }
           rewrite Hlf, andb_false_r.
           apply (IH [] []). simpl. lia.
        -- simpl. simpl in Hlen. destruct ((d =? CR) && (d' =? LF)).
           ++ apply (IH s'' []). lia.
           ++ apply (IH (d' :: s'') []). simpl. lia.
      * apply (IH s' (line ++ [d])). lia.
Qed.

(** The lines of a text and their number against its length. *)
Lemma splitlines_from_size (n : nat) :
  forall s line, (length s <= n)%nat ->
  (list_sum (List.map (fun l => S (length l)) (splitlines_from line s))
   <= length line + length s + 1)%nat
  /\ (length (splitlines_from line s)
      <= length s + match line with [] => 0 | _ :: _ => 1 end)%nat.
Proof.
  induction n as [|n IH]; intros s line Hlen.
  - destruct s; [|simpl in Hlen; lia]. destruct line; simpl; lia.
  - destruct s as [|c rest]; [destruct line; simpl; lia|].
    simpl in Hlen. simpl. destruct (is_linebreak c).
    + destruct rest as [|c' rest'].
      * simpl. destruct line; lia.
      * simpl in Hlen.
        destruct ((c =? CR) && (c' =? LF)).
        -- destruct (IH rest' [] ltac:(lia)) as [H1 H2].
           generalize dependent (splitlines_from [] rest'). intros L H1 H2.
           simpl in H1, H2 |- *. destruct line; simpl; lia.
        -- destruct (IH (c' :: rest') [] ltac:(simpl; lia)) as [H1 H2].
           generalize dependent (splitlines_from [] (c' :: rest')). intros L H1 H2.
           simpl in H1, H2 |- *. destruct line; simpl; lia.
    + destruct (IH rest (line ++ [c]) ltac:(lia)) as [H1 H2].
      rewrite length_app in H1.
      generalize dependent (splitlines_from (line ++ [c]) rest). intros L H1 H2.
      simpl in H1. split; [lia|].
      destruct (line ++ [c]) eqn:E; [destruct line; discriminate|].
      destruct line; simpl; lia.
Qed.

Lemma doubled_length (line : pystr) :
  (length line <= length (doubled line) <= 2 * length line)%nat.
Proof.
  induction line as [|c r IH]; simpl; [lia|].
  destruct (c =? QUOTE); simpl; lia.
Qed.

Lemma arguments_size (more : list pystr) :
  forall line1,
  (length (arguments line1 more) + 25
   <= list_sum (List.map (fun l => 2 * S (length l) + 25) (line1 :: more)))%nat
  /\ (2 <= length (arguments line1 more))%nat.
Proof.
  induction more as [|line2 more IH]; intros line1.
  - cbn [arguments List.map list_sum fold_right]. rewrite !length_app. simpl length.
    pose proof (doubled_length line1). lia.
  - destruct (IH line2) as [H1 H2].
    cbn [arguments]. cbn [List.map list_sum fold_right] in *.
    rewrite !length_app.
    change (length (py ", Character cr asString, ")) with 25%nat.
    simpl length at 1 3.
    pose proof (doubled_length line1). lia.
Qed.

Lemma list_sum_affine (ls : list pystr) :
  (list_sum (List.map (fun l => 2 * S (length l) + 25) ls)
   = 2 * list_sum (List.map (fun l => S (length l)) ls) + 25 * length ls)%nat.
Proof.
  induction ls as [|l ls IH]; [reflexivity|].
  unfold list_sum in *. cbn [List.map fold_right length].
  rewrite IH. lia.
Qed.

End EncoderMore.

(** X1.  Two non-empty codes that are encoded to the same script for a
    class have the same lines: the script determines the lines of the
    code. *)
Theorem generate_compilation_script_injective_on_lines
    (class_name code1 code2 : pystr) :
  code1 <> [] -> code2 <> [] ->
  generate_compilation_script class_name code1
  = generate_compilation_script class_name code2 ->
  splitlines code1 = splitlines code2.
Proof.
  intros H1 H2 Heq.
  destruct code1 as [|c1 r1]; [congruence|].
  destruct code2 as [|c2 r2]; [congruence|].
  pose proof (EncoderFacts.decode_gcs class_name c1 r1) as D1.
  pose proof (EncoderFacts.decode_gcs class_name c2 r2) as D2.
  rewrite Heq in D1. rewrite D1 in D2. congruence.
Qed.

Lemma generate_compilation_script_injective_on_lines_witness :
  py "a" ++ [CR; LF] ++ py "b" <> []
  /\ py "a" ++ [LF] ++ py "b" <> []
  /\ generate_compilation_script (py "K") (py "a" ++ [CR; LF] ++ py "b")
     = generate_compilation_script (py "K") (py "a" ++ [LF] ++ py "b")
  /\ splitlines (py "a" ++ [CR; LF] ++ py "b") = splitlines (py "a" ++ [LF] ++ py "b").
Proof.
  assert (H1 : py "a" ++ [CR; LF] ++ py "b" <> []) by discriminate.
  assert (H2 : py "a" ++ [LF] ++ py "b" <> []) by discriminate.
  assert (H3 : generate_compilation_script (py "K") (py "a" ++ [CR; LF] ++ py "b")
               = generate_compilation_script (py "K") (py "a" ++ [LF] ++ py "b"))
    by reflexivity.
  split; [exact H1|]. split; [exact H2|]. split; [exact H3|].
  exact (generate_compilation_script_injective_on_lines _ _ _ H1 H2 H3).
Defined.

(** X2.  A line terminator at the end of a code that ends in a plain
    character is not encoded: with one more line-break character, or
    with a carriage return and line feed, at its end the code gives the
    same script. *)
Theorem generate_compilation_script_final_terminator
    (class_name body : pystr) (c : N) :
  is_linebreak c = false ->
  (forall b, is_linebreak b = true ->
     generate_compilation_script class_name ((body ++ [c]) ++ [b])
     = generate_compilation_script class_name (body ++ [c]))
  /\ generate_compilation_script class_name ((body ++ [c]) ++ [CR; LF])
     = generate_compilation_script class_name (body ++ [c]).
Proof.
  intros Hc.
  assert (H : forall tm, closes_line tm ->
            generate_compilation_script class_name ((body ++ [c]) ++ tm)
            = generate_compilation_script class_name (body ++ [c])).
  { intros tm Htm.
    rewrite !EncoderMore.gcs_unfold
      by (destruct body; simpl; discriminate).
    unfold splitlines.
    rewrite (EncoderMore.splitlines_from_terminator tm c (length body) Htm Hc)
      by lia.
    reflexivity. }
  split.
  - intros b Hb. apply H. apply EncoderMore.linebreak_closes_line. exact Hb.
  - apply H. exact EncoderMore.crlf_closes_line.
Qed.

Lemma generate_compilation_script_final_terminator_witness :
  is_linebreak 98 = false
  /\ generate_compilation_script (py "K") (((py "a" ++ [LF]) ++ [98]) ++ [LF])
     = generate_compilation_script (py "K") ((py "a" ++ [LF]) ++ [98])
  /\ generate_compilation_script (py "K") (((py "a" ++ [LF]) ++ [98]) ++ [CR; LF])
     = py "K compile: ('a', Character cr asString, 'b')".
Proof.
  assert (H : is_linebreak 98 = false) by reflexivity.
  destruct (generate_compilation_script_final_terminator (py "K")
              (py "a" ++ [LF]) 98 H) as [H1 H2].
  split; [exact H|]. split.
  - exact (H1 LF eq_refl).
  - rewrite H2. vm_compute. reflexivity.
Defined.

(** X3.  For lines without line break, the last of them not empty, the
    code that joins them by line feeds is encoded to the expression of
    exactly these lines. *)
Theorem generate_compilation_script_of_lines
    (class_name : pystr) (init : list pystr) (final : pystr) :
  Forall no_break (init ++ [final]) ->
  final <> [] ->
  generate_compilation_script class_name (join [LF] (init ++ [final]))
  = Shape.compile_expression class_name (init ++ [final]).
Proof.
  intros Hall Hfinal.
  pose proof (EncoderMore.splitlines_join_lf init final Hall Hfinal) as Hs.
  destruct (join [LF] (init ++ [final])) as [|c rest] eqn:Hj.
  - exfalso. destruct init; discriminate Hs.
  - rewrite EncoderFacts.gcs_shape, Hs. reflexivity.
Qed.

Lemma generate_compilation_script_of_lines_witness :
  Forall no_break ([py "sum: a"; []] ++ [py "  ^ a"])
  /\ py "  ^ a" <> []
  /\ generate_compilation_script (py "K")
       (join [LF] ([py "sum: a"; []] ++ [py "  ^ a"]))
     = py "K compile: ('sum: a', Character cr asString, '', Character cr asString, '  ^ a')".
Proof.
  assert (H1 : Forall no_break ([py "sum: a"; []] ++ [py "  ^ a"])).
  { repeat constructor. }
  assert (H2 : py "  ^ a" <> []) by discriminate.
  split; [exact H1|]. split; [exact H2|].
  rewrite (generate_compilation_script_of_lines (py "K")
             [py "sum: a"; []] (py "  ^ a") H1 H2).
  vm_compute. reflexivity.
Defined.

(** X4.  The script of a non-empty code is never empty and at most
    linear in the code: it has at least 14 characters more than the
    class name, and at most 27 characters for every character of the
    code, less 11, beside the class name. *)
Theorem generate_compilation_script_length (class_name code : pystr) :
  code <> [] ->
  (length class_name + 14
   <= length (generate_compilation_script class_name code))%nat
  /\ (length (generate_compilation_script class_name code) + 11
      <= length class_name + 27 * length code)%nat.
Proof.
  intros Hcode. destruct code as [|c rest]; [congruence|].
  rewrite EncoderFacts.gcs_shape. unfold Shape.compile_expression.
  destruct (splitlines (c :: rest)) as [|line1 more] eqn:Hl.
  - exfalso. exact (splitlines_not_nil c rest Hl).
  - destruct (EncoderMore.arguments_size more line1) as [Hup Hlow].
    rewrite EncoderMore.list_sum_affine in Hup.
    destruct (EncoderMore.splitlines_from_size (length (c :: rest))
                (c :: rest) [] ltac:(lia)) as [Hsum Hnum].
    fold (splitlines (c :: rest)) in Hsum, Hnum. rewrite Hl in Hsum, Hnum.
    rewrite !length_app.
    change (length (py " compile: (")) with 11%nat.
    change (length (py ")")) with 1%nat.
    simpl length in Hsum, Hnum, Hup |- *. lia.
Qed.

Lemma generate_compilation_script_length_witness :
  [QUOTE] <> []
  /\ (length (py "K") + 14
      <= length (generate_compilation_script (py "K") [QUOTE]))%nat
  /\ (length (generate_compilation_script (py "K") [QUOTE]) + 11
      <= length (py "K") + 27 * length [QUOTE])%nat.
Proof.
  assert (H : [QUOTE] <> []) by discriminate.
  split; [exact H|].
  exact (generate_compilation_script_length (py "K") [QUOTE] H).
Defined.

(** ** The local tools, continued *)

(** X5.  With a session, [save_context] writes both names into the
    session state and nothing else: the two keys read back as given,
    every other key is as before, the actions and the agent are
    untouched, and the message names both values. *)
Theorem save_context_effect (tc : Tools.ToolContext) (ses : Tools.Session)
    (class_name method_name : pystr) :
  Tools.session tc = Some ses ->
  exists tc' ses',
    Tools.save_context (Some tc) class_name method_name
    = (Some tc',
       py "Context saved. Class: " ++ class_name ++ py ", Method: " ++ method_name)
    /\ Tools.session tc' = Some ses'
    /\ Tools.state ses' !! "class_name" = Some class_name
    /\ Tools.state ses' !! "method_name" = Some method_name
    /\ (forall k : string,
          k <> "class_name"%string -> k <> "method_name"%string ->
          Tools.state ses' !! k = Tools.state ses !! k)
    /\ Tools.actions tc' = Tools.actions tc
    /\ Tools.agent_name tc' = Tools.agent_name tc.
Proof.
  intros Hses. unfold Tools.save_context. rewrite Hses.
  eexists _, _. split; [reflexivity|]. simpl.
  split; [reflexivity|]. simpl. split.
  - rewrite lookup_insert_ne by discriminate. apply lookup_insert_eq.
  - split; [apply lookup_insert_eq|]. split; [|split; reflexivity].
    intros k Hc Hm.
    rewrite lookup_insert_ne by congruence.
    rewrite lookup_insert_ne by congruence. reflexivity.
Qed.

Lemma save_context_effect_witness :
  let tc := Tools.mkToolContext "ReviewerAgent" (Some (Tools.mkActions None))
              (Some (Tools.mkSession {["code_review" := py "ok"]})) in
  Tools.session tc = Some (Tools.mkSession {["code_review" := py "ok"]})
  /\ exists tc' ses',
       Tools.save_context (Some tc) (py "Calculator") (py "sum:with:")
       = (Some tc', py "Context saved. Class: Calculator, Method: sum:with:")
       /\ Tools.session tc' = Some ses'
       /\ Tools.state ses' !! "class_name" = Some (py "Calculator")
       /\ Tools.state ses' !! "code_review" = Some (py "ok").
Proof.
  intros tc. split; [reflexivity|].
  destruct (save_context_effect tc _ (py "Calculator") (py "sum:with:") eq_refl)
    as (tc' & ses' & H1 & H2 & H3 & _ & H5 & _).
  exists tc', ses'. split; [exact H1|]. split; [exact H2|]. split; [exact H3|].
  rewrite H5 by discriminate. reflexivity.
Defined.

(** X6.  A later [save_context] replaces an earlier one: saving twice
    gives the context and the message of saving the last values once,
    with or without a session. *)
Theorem save_context_last_wins (tool_context : option Tools.ToolContext)
    (c1 m1 c2 m2 : pystr) :
  Tools.save_context (fst (Tools.save_context tool_context c1 m1)) c2 m2
  = Tools.save_context tool_context c2 m2.
Proof.
  destruct tool_context as [tc|]; [|reflexivity].
  unfold Tools.save_context.
  destruct (Tools.session tc) as [ses|] eqn:Hses; simpl; [|rewrite Hses; reflexivity].
  f_equal. f_equal. f_equal. f_equal.
  rewrite (insert_insert_ne _ "class_name" "method_name") by discriminate.
  rewrite insert_insert_eq.
  rewrite insert_insert_eq. reflexivity.
Qed.

(** X7.  A second call of [exit_validation_loop] changes nothing more
    and reports the same; and the tool never clears the flag: a context
    whose escalate flag is set has it set after the call. *)
Theorem exit_validation_loop_again (tool_context : option Tools.ToolContext) :
  Tools.exit_validation_loop (fst (Tools.exit_validation_loop tool_context))
  = Tools.exit_validation_loop tool_context
  /\ (Tools.escalated tool_context = true ->
      Tools.escalated (fst (Tools.exit_validation_loop tool_context)) = true).
Proof.
  destruct tool_context as [tc|]; [|split; [reflexivity | discriminate]].
  unfold Tools.exit_validation_loop.
  destruct (Tools.actions tc) as [a|] eqn:Ha; simpl.
  - split; reflexivity.
  - rewrite Ha. split; [reflexivity | discriminate].
Qed.

Lemma exit_validation_loop_again_witness :
  let tc := Some (Tools.mkToolContext "RefinerAgent"
                    (Some (Tools.mkActions (Some true))) None) in
  Tools.escalated tc = true
  /\ Tools.escalated (fst (Tools.exit_validation_loop tc)) = true.
Proof.
  intros tc. split; [reflexivity|].
  exact (proj2 (exit_validation_loop_again tc) eq_refl).
Defined.

(** X8.  The two tools do not interfere: in either order they leave the
    same context, and each reports what it reports alone. *)
Theorem tools_commute (tool_context : option Tools.ToolContext)
    (class_name method_name : pystr) :
  fst (Tools.exit_validation_loop
         (fst (Tools.save_context tool_context class_name method_name)))
  = fst (Tools.save_context
           (fst (Tools.exit_validation_loop tool_context)) class_name method_name)
  /\ snd (Tools.exit_validation_loop
            (fst (Tools.save_context tool_context class_name method_name)))
     = snd (Tools.exit_validation_loop tool_context)
  /\ snd (Tools.save_context
            (fst (Tools.exit_validation_loop tool_context)) class_name method_name)
     = snd (Tools.save_context tool_context class_name method_name).
Proof.
  destruct tool_context as [tc|]; [|repeat split].
  unfold Tools.exit_validation_loop, Tools.save_context.
  destruct (Tools.session tc) as [ses|] eqn:Hses;
    destruct (Tools.actions tc) as [a|] eqn:Ha; simpl;
    rewrite ?Hses, ?Ha; repeat split.
Qed.

(** ** Building the pipeline *)

(** X9.  Once [get_pipeline] has returned a pipeline, the service keeps
    it: the settings and the lock are as before, and every later call,
    in any world, returns the same pipeline without building anything
    and leaves the service as it is. *)
Theorem get_pipeline_cached (env : Env) (svc svc' : AgentService) (p : Agent) :
  get_pipeline env svc = (Returns p, svc') ->
  _pipeline svc' = Some p
  /\ settings svc' = settings svc
  /\ _lock svc' = _lock svc
  /\ forall env', get_pipeline env' svc' = (Returns p, svc').
Proof.
  unfold get_pipeline, _init_toolset.
  destruct (_pipeline svc) as [p0|] eqn:Hp.
  - intros H. injection H as <- <-.
    repeat split; try assumption. intros env'. rewrite Hp. reflexivity.
  - destruct (_toolset svc) as [ts|].
    + intros H. injection H as <- <-. repeat split.
    + destruct (McpToolset env _) as [ts|e]; [|discriminate].
      intros H. injection H as <- <-. repeat split.
Qed.

Lemma get_pipeline_cached_witness :
  exists p svc',
    get_pipeline failing_env (new_service default_settings) = (Returns p, svc')
    /\ get_pipeline cancelling_env svc' = (Returns p, svc').
Proof.
  eexists _, _. split; [reflexivity|].
  exact (proj2 (proj2 (proj2
           (get_pipeline_cached failing_env (new_service default_settings)
              _ _ eq_refl))) cancelling_env).
Defined.

(** X10.  [get_pipeline] can fail in one way only: nothing is cached and
    the tool set cannot be built.  It then raises what the constructor
    raised and leaves the service as it was, so that the next call tries
    again. *)
Theorem get_pipeline_failure (env : Env) (svc svc' : AgentService) (e : PyExc) :
  get_pipeline env svc = (Raises e, svc') ->
  svc' = svc
  /\ _pipeline svc = None
  /\ _toolset svc = None
  /\ McpToolset env (make_toolset (settings svc)) = Raises e.
Proof.
  unfold get_pipeline, _init_toolset.
  destruct (_pipeline svc) as [p0|]; [discriminate|].
  destruct (_toolset svc) as [ts|]; [discriminate|].
  destruct (McpToolset env _) as [ts|e0] eqn:Hc; [discriminate|].
  intros H. injection H as <- <-. repeat split.
Qed.

Lemma get_pipeline_failure_witness :
  let env := mkEnv (fun _ => Raises (ValueError "no server")) (fun _ _ => Raises (ValueError "unused")) in
  get_pipeline env (new_service default_settings)
  = (Raises (ValueError "no server"), new_service default_settings)
  /\ _pipeline (new_service default_settings) = None.
Proof.
  intros env.
  assert (H : get_pipeline env (new_service default_settings)
              = (Raises (ValueError "no server"), new_service default_settings))
    by reflexivity.
  split; [exact H|].
  exact (proj1 (proj2 (get_pipeline_failure env _ _ _ H))).
Defined.

Module CacheFacts.

Lemma leave_lock_fields (r r' : Outcome (gmap string PyVal))
    (svc svc' : AgentService) :
  leave_lock r svc = (r', svc') ->
  settings svc' = settings svc
  /\ _toolset svc' = _toolset svc
  /\ _pipeline svc' = _pipeline svc.
Proof.
  unfold leave_lock. destruct (release (_lock svc)); intros H;
    injection H as <- <-; repeat split.
Qed.

Lemma get_pipeline_fields (env : Env) (svc : AgentService) :
  settings (snd (get_pipeline env svc)) = settings svc
  /\ (forall p, _pipeline svc = Some p ->
                _pipeline (snd (get_pipeline env svc)) = Some p)
  /\ (forall ts, _toolset svc = Some ts ->
                 _toolset (snd (get_pipeline env svc)) = Some ts)
  /\ (_pipeline (snd (get_pipeline env svc)) = None ->
      exists e, McpToolset env (make_toolset (settings svc)) = Raises e).
Proof.
  unfold get_pipeline, _init_toolset.
  destruct (_pipeline svc) as [p0|] eqn:Hp; simpl.
  - repeat split; intros; try congruence; eauto.
  - destruct (_toolset svc) as [ts|] eqn:Ht; simpl.
    + repeat split; intros; try congruence; eauto.
    + destruct (McpToolset env _) as [ts|e]; simpl.
      * repeat split; intros; try congruence; eauto.
      * repeat split; intros; try congruence; eauto.
Qed.

End CacheFacts.

(** X11.  A call of [refactor_method] keeps what the service has cached
    and builds at most what is missing: the settings, a cached pipeline
    and a cached tool set are the same after the call, and a call leaves
    the service without a pipeline only when the tool set could not be
    built. *)
Theorem refactor_method_keeps_cache (env : Env) (class_name method_name : pystr)
    (svc svc' : AgentService) (r : Outcome (gmap string PyVal)) :
  refactor_method env class_name method_name svc = Some (r, svc') ->
  settings svc' = settings svc
  /\ (forall p, _pipeline svc = Some p -> _pipeline svc' = Some p)
  /\ (forall ts, _toolset svc = Some ts -> _toolset svc' = Some ts)
  /\ (_pipeline svc' = None ->
      exists e, McpToolset env (make_toolset (settings svc)) = Raises e).
Proof.
  unfold refactor_method.
  destruct (free_for_newcomer (_lock svc)); [|discriminate].
  set (svc1 := with_lock (take (_lock svc)) svc).
  pose proof (CacheFacts.get_pipeline_fields env svc1) as (Hs & Hp & Ht & Hn).
  unfold try_begin.
  destruct (get_pipeline env svc1) as [[p|e] svc2]; simpl in *; intros H.
  - destruct (leave_lock _ svc2) as [r2 svc3] eqn:Hl.
    injection H as <- <-.
    destruct (CacheFacts.leave_lock_fields _ _ _ _ Hl) as (Hs3 & Ht3 & Hp3).
    rewrite Hs3, Hp3, Ht3. repeat split; assumption.
  - destruct (leave_lock _ svc2) as [r2 svc3] eqn:Hl.
    injection H as <- <-.
    destruct (CacheFacts.leave_lock_fields _ _ _ _ Hl) as (Hs3 & Ht3 & Hp3).
    rewrite Hs3, Hp3, Ht3. repeat split; assumption.
Qed.

Lemma refactor_method_keeps_cache_witness :
  exists r svc',
    refactor_method failing_env (py "Calculator") (py "sum:with:")
      (new_service default_settings) = Some (r, svc')
    /\ settings svc' = default_settings
    /\ _pipeline svc' <> None.
Proof.
  eexists _, _. split; [reflexivity|].
  destruct (refactor_method_keeps_cache failing_env (py "Calculator")
              (py "sum:with:") (new_service default_settings) _ _ eq_refl)
    as (Hs & _ & _ & Hn).
  split; [exact Hs|].
  intros H. destruct (Hn H) as [e He]. discriminate He.
Defined.

(** ** Stripping and splitting *)

Module StripMore.

Lemma blank_app (a b : pystr) : blank (a ++ b) = blank a && blank b.
Proof. unfold blank. apply forallb_app. Qed.

Lemma blank_rev (a : pystr) : blank (rev a) = blank a.
Proof.
  induction a as [|c a IH]; [reflexivity|].
  simpl. rewrite blank_app, IH. simpl. rewrite andb_true_r, andb_comm.
  reflexivity.
Qed.

Lemma lstrip_decomp (s : pystr) :
  exists pre, s = pre ++ lstrip s /\ blank pre = true.
Proof.
  induction s as [|c s IH]; simpl.
  - exists []. split; reflexivity.
  - destruct (is_space c) eqn:Hc.
    + destruct IH as (pre & Hs & Hpre). exists (c :: pre). split.
      * simpl. f_equal. exact Hs.
      * simpl. rewrite Hc. exact Hpre.
    + exists []. split; reflexivity.
Qed.

Lemma rstrip_decomp (s : pystr) :
  exists post, s = rstrip s ++ post /\ blank post = true.
Proof.
  unfold rstrip. destruct (lstrip_decomp (rev s)) as (pre & Hs & Hpre).
  exists (rev pre). split.
  - rewrite <- rev_app_distr, <- Hs, rev_involutive. reflexivity.
  - rewrite blank_rev. exact Hpre.
Qed.

(** [strip] takes a blank text from the front and one from the end. *)
Lemma strip_decomp (s : pystr) :
  exists pre post,
    s = pre ++ strip s ++ post /\ blank pre = true /\ blank post = true.
Proof.
  destruct (lstrip_decomp s) as (pre & Hs & Hpre).
  destruct (rstrip_decomp (lstrip s)) as (post & Hl & Hpost).
  exists pre, post. split; [|split; assumption].
  unfold strip. rewrite <- Hl. exact Hs.
Qed.

Lemma in_strip (c : N) (s : pystr) : In c (strip s) -> In c s.
Proof.
  destruct (strip_decomp s) as (pre & post & Hs & _).
  intros H. rewrite Hs. rewrite !in_app_iff. tauto.
Qed.

(** A trimmed text is left as it is. *)
Lemma strip_trimmed_id (s : pystr) : trimmed s -> strip s = s.
Proof.
  intros [Hfirst Hlast]. destruct s as [|c r]; [reflexivity|].
  unfold strip, rstrip. simpl lstrip at 2.
  rewrite (Hfirst c r eq_refl).
  destruct (rev (c :: r)) as [|d t] eqn:Hr.
  - apply (f_equal (@rev N)) in Hr. rewrite rev_involutive in Hr. discriminate.
  - assert (Hs : c :: r = rev t ++ [d]).
    { apply (f_equal (@rev N)) in Hr. rewrite rev_involutive in Hr. exact Hr. }
    simpl. rewrite (Hlast (rev t) d Hs). simpl. symmetry. exact Hs.
Qed.

Lemma split_from_not_nil (sep : N) (s field : pystr) :
  split_from sep field s <> [].
Proof.
  revert field. induction s as [|c s IH]; intros field; simpl; [discriminate|].
  destruct (c =? sep); [discriminate | apply IH].
Qed.

(** Joining the fields gives the text back. *)
Lemma split_from_join (sep : N) (s : pystr) :
  forall field, join [sep] (split_from sep field s) = field ++ s.
Proof.
  induction s as [|c s IH]; intros field; simpl.
  - rewrite app_nil_r. reflexivity.
  - destruct (c =? sep) eqn:Hc.
    + apply N.eqb_eq in Hc. subst c.
      rewrite EncoderMore.join_cons_more by apply split_from_not_nil.
      rewrite IH. reflexivity.
    + rewrite IH, <- app_assoc. reflexivity.
Qed.

Lemma split_from_length (sep : N) (s : pystr) :
  forall field, length (split_from sep field s) = S (count sep s).
Proof.
  unfold count. induction s as [|c s IH]; intros field; simpl; [reflexivity|].
  destruct (c =? sep); simpl; rewrite IH; reflexivity.
Qed.

Lemma split_from_no_sep (sep : N) (s : pystr) :
  forall field, ~ In sep field ->
  Forall (fun f => ~ In sep f) (split_from sep field s).
Proof.
  induction s as [|c s IH]; intros field Hf; simpl.
  - constructor; [exact Hf | constructor].
  - destruct (c =? sep) eqn:Hc.
    + constructor; [exact Hf|]. apply IH. intros [].
    + apply IH. rewrite in_app_iff. intros [H|[H|[]]]; [exact (Hf H)|].
      subst c. rewrite N.eqb_refl in Hc. discriminate.
Qed.

Lemma split_from_plain (sep : N) (s : pystr) :
  forall field, ~ In sep s -> split_from sep field s = [field ++ s].
Proof.
  induction s as [|c s IH]; intros field Hs; simpl.
  - rewrite app_nil_r. reflexivity.
  - destruct (c =? sep) eqn:Hc.
    + apply N.eqb_eq in Hc. subst c. exfalso. apply Hs. left. reflexivity.
    + rewrite IH by (intros H; apply Hs; right; exact H).
      rewrite <- app_assoc. reflexivity.
Qed.

Lemma split_from_sep (sep : N) (x : pystr) :
  forall field rest, ~ In sep x ->
  split_from sep field (x ++ sep :: rest)
  = (field ++ x) :: split_from sep [] rest.
Proof.
  induction x as [|c x IH]; intros field rest Hx; simpl.
  - rewrite N.eqb_refl, app_nil_r. reflexivity.
  - destruct (c =? sep) eqn:Hc.
    + apply N.eqb_eq in Hc. subst c. exfalso. apply Hx. left. reflexivity.
    + rewrite IH by (intros H; apply Hx; right; exact H).
      rewrite <- app_assoc. reflexivity.
Qed.

(** Fields without the separator, joined and split again. *)
Lemma split_join (sep : N) (items : list pystr) :
  items <> [] -> Forall (fun f => ~ In sep f) items ->
  split sep (join [sep] items) = items.
Proof.
  intros Hne Hall. induction items as [|x items IH]; [congruence|].
  inversion Hall as [|? ? Hx Hrest]; subst.
  destruct items as [|y more].
  - simpl. apply (split_from_plain sep x []). exact Hx.
  - rewrite EncoderMore.join_cons_more by discriminate.
    change ([sep] ++ join [sep] (y :: more)) with (sep :: join [sep] (y :: more)).
    unfold split. rewrite split_from_sep by exact Hx.
    simpl app. f_equal. apply IH; [discriminate | exact Hrest].
Qed.

End StripMore.

(** ** Request validation, continued *)

(** X12.  [validate_not_empty] only takes white space from the two ends
    of a field: the value it returns is the field without a blank text
    at the front and a blank text at the end, and everything between is
    kept, white space too. *)
Theorem validate_not_empty_keeps_middle (v v' : pystr) :
  Models.validate_not_empty v = Returns v' ->
  exists pre post,
    v = pre ++ v' ++ post /\ blank pre = true /\ blank post = true.
Proof.
  unfold Models.validate_not_empty.
  destruct (strip v) eqn:Hs; [discriminate|].
  intros H. injection H as <-. rewrite <- Hs. apply StripMore.strip_decomp.
Qed.

Lemma validate_not_empty_keeps_middle_witness :
  Models.validate_not_empty ([32; 9] ++ py "sum: with:" ++ [LF])
  = Returns (py "sum: with:")
  /\ exists pre post,
       [32; 9] ++ py "sum: with:" ++ [LF] = pre ++ py "sum: with:" ++ post
       /\ blank pre = true /\ blank post = true.
Proof.
  assert (H : Models.validate_not_empty ([32; 9] ++ py "sum: with:" ++ [LF])
              = Returns (py "sum: with:")) by reflexivity.
  split; [exact H|].
  exact (validate_not_empty_keeps_middle _ _ H).
Defined.

(** X13.  Validation is stable: the fields of an accepted request are
    accepted as they are, and validating them gives the same request. *)
Theorem validate_accepted_again (raw_class raw_method : pystr)
    (request : Models.RefactorRequest) :
  Models.RefactorRequest_validate raw_class raw_method = inr request ->
  Models.RefactorRequest_validate (Models.class_name request)
    (Models.method_name request) = inr request.
Proof.
  intros H.
  assert (Hfield : forall v v', Models.validate_field v = Returns v' ->
                     Models.validate_field v' = Returns v').
  { intros v v'. unfold Models.validate_field.
    destruct (length v <? 1)%nat; [discriminate|].
    unfold Models.validate_not_empty.
    destruct (strip v) as [|c r] eqn:Hs; [discriminate|].
    intros Hv. injection Hv as <-.
    assert (Hid : strip (c :: r) = c :: r).
    { apply StripMore.strip_trimmed_id. rewrite <- Hs.
      apply StripFacts.strip_trimmed. }
    simpl length. change (S (length r) <? 1)%nat with false.
    cbv iota. rewrite Hid. reflexivity. }
  unfold Models.RefactorRequest_validate in *.
  destruct (Models.validate_field raw_class) as [c|e1] eqn:Hc;
    destruct (Models.validate_field raw_method) as [m|e2] eqn:Hm;
    try discriminate H.
  injection H as <-. simpl.
  rewrite (Hfield _ _ Hc), (Hfield _ _ Hm). reflexivity.
Qed.

Lemma validate_accepted_again_witness :
  Models.RefactorRequest_validate (py " Calculator ") (py "sum:with:")
  = inr (Models.mkRequest (py "Calculator") (py "sum:with:"))
  /\ Models.RefactorRequest_validate (py "Calculator") (py "sum:with:")
     = inr (Models.mkRequest (py "Calculator") (py "sum:with:")).
Proof.
  assert (H : Models.RefactorRequest_validate (py " Calculator ") (py "sum:with:")
              = inr (Models.mkRequest (py "Calculator") (py "sum:with:")))
    by reflexivity.
  split; [exact H|].
  exact (validate_accepted_again _ _ _ H).
Defined.

(** ** The settings validators *)

Module ConfigExamples.

Example parse_star : parse_cors_origins (RawStr (py "*")) = RawList [py "*"].
Proof. reflexivity. Qed.

Example parse_empty : parse_cors_origins (RawStr []) = RawList [[]].
Proof. reflexivity. Qed.

Example parse_two :
  parse_cors_methods (RawStr (py "GET, POST ,")) = RawList [py "GET"; py "POST"; []].
Proof. vm_compute. reflexivity. Qed.

End ConfigExamples.

(** X14.  Each of the three validators turns a string into one item for
    every comma and one more, the empty string into one empty item;
    every item is stripped and holds no comma; a value that is no
    string is returned as it is. *)
Theorem parse_cors_items (f : RawValue -> RawValue) :
  In f [parse_cors_origins; parse_cors_methods; parse_cors_headers] ->
  (forall s, exists items,
      f (RawStr s) = RawList items
      /\ length items = S (count COMMA s)
      /\ Forall (fun item => trimmed item /\ ~ In COMMA item) items)
  /\ (forall items, f (RawList items) = RawList items).
Proof.
  intros Hf.
  assert (Hsame : f = parse_cors_origins).
  { destruct Hf as [<-|[<-|[<-|[]]]]; reflexivity. }
  subst f. split; [|reflexivity].
  intros s. eexists. split; [reflexivity|]. split.
  - rewrite length_map. apply StripMore.split_from_length.
  - pose proof (StripMore.split_from_no_sep COMMA s [] ltac:(intros [])) as Hno.
    fold (split COMMA s) in Hno.
    induction Hno as [|x l Hx _ IH]; simpl; constructor; [|exact IH].
    split; [apply StripFacts.strip_trimmed|].
    intros H. apply Hx. exact (StripMore.in_strip _ _ H).
Qed.

Lemma parse_cors_items_witness :
  In parse_cors_headers [parse_cors_origins; parse_cors_methods; parse_cors_headers]
  /\ exists items,
       parse_cors_headers (RawStr (py "Accept , X-Key")) = RawList items
       /\ length items = S (count COMMA (py "Accept , X-Key")).
Proof.
  assert (H : In parse_cors_headers
                [parse_cors_origins; parse_cors_methods; parse_cors_headers]).
  { right. right. left. reflexivity. }
  split; [exact H|].
  destruct (proj1 (parse_cors_items parse_cors_headers H) (py "Accept , X-Key"))
    as (items & H1 & H2 & _).
  exists items. split; assumption.
Defined.

(** X15.  Items that are stripped and hold no comma, at least one of
    them, are read back from their comma-separated text by each of the
    three validators. *)
Theorem parse_cors_of_joined (f : RawValue -> RawValue) (items : list pystr) :
  In f [parse_cors_origins; parse_cors_methods; parse_cors_headers] ->
  items <> [] ->
  Forall (fun item => trimmed item /\ ~ In COMMA item) items ->
  f (RawStr (join [COMMA] items)) = RawList items.
Proof.
  intros Hf Hne Hall.
  assert (Hsame : f = parse_cors_origins).
  { destruct Hf as [<-|[<-|[<-|[]]]]; reflexivity. }
  subst f. unfold parse_cors_origins. f_equal.
  rewrite StripMore.split_join.
  - clear Hne. induction Hall as [|x l [Hx _] _ IH]; simpl; [reflexivity|].
    rewrite (StripMore.strip_trimmed_id x Hx), IH. reflexivity.
  - exact Hne.
  - clear Hne. induction Hall as [|x l [_ Hx] _ IH]; constructor; assumption.
Qed.

Lemma parse_cors_of_joined_witness :
  In parse_cors_origins [parse_cors_origins; parse_cors_methods; parse_cors_headers]
  /\ [py "http://a.example"; py "http://b.example"] <> []
  /\ parse_cors_origins (RawStr (py "http://a.example,http://b.example"))
     = RawList [py "http://a.example"; py "http://b.example"].
Proof.
  assert (H1 : In parse_cors_origins
                 [parse_cors_origins; parse_cors_methods; parse_cors_headers])
    by (left; reflexivity).
  assert (H2 : [py "http://a.example"; py "http://b.example"] <> [])
    by discriminate.
  split; [exact H1|]. split; [exact H2|].
  assert (H3 : Forall (fun item => trimmed item /\ ~ In COMMA item)
                 [py "http://a.example"; py "http://b.example"]).
  { repeat constructor;
      try (intros c r E; injection E as <- _; reflexivity);
      try (intros b d E; apply (f_equal (@rev N)) in E;
           rewrite rev_app_distr in E; simpl in E; injection E as <- _;
           reflexivity);
      try (simpl; intros H; repeat (destruct H as [H|H]; [discriminate H|]);
           exact H). }
  exact (parse_cors_of_joined parse_cors_origins _ H1 H2 H3).
Defined.

(** ** The endpoint, continued *)

(** X16.  What the endpoint answers when the lock is free for the
    request: 200 with the record when the pipeline run returned; the 500
    of [AgentExecutionError], its detail ending in the message of the
    error, when an exception below [Exception] was raised; for another
    exception nothing, it goes on.  It never answers busy, never
    answers with the unexpected-error 500 and never waits, and the
    service is not busy afterwards. *)
Theorem refactor_endpoint_answers (env : Env) (request : Models.RefactorRequest)
    (svc : AgentService) :
  free_for_newcomer (_lock svc) = true ->
  exists svc',
    is_busy svc' = false
    /\ Router.refactor_endpoint env request svc
       = (match try_outcome env (Models.class_name request)
                  (Models.method_name request) svc with
          | Returns response =>
              Router.Ok200 (success_record (Models.class_name request)
                              (Models.method_name request) response)
          | Raises e =>
              if is_Exception e
              then Router.AgentExecutionError500
                     (py "Refactoring failed: " ++ exc_str e)
              else Router.Propagated e
          end, svc').
Proof.
  intros Hfree.
  destruct (ExecutorFacts.refactor_method_alone env (Models.class_name request)
              (Models.method_name request) svc Hfree) as (svc' & Hr & Hbusy).
  exists svc'. split; [exact Hbusy|].
  unfold Router.refactor_endpoint.
  assert (Hnot : is_busy svc = false).
  { unfold free_for_newcomer in Hfree. apply andb_true_iff in Hfree.
    destruct Hfree as [Hl _]. unfold is_busy, locked.
    destruct (_locked (_lock svc)); [discriminate | reflexivity]. }
  rewrite Hnot, Hr.
  destruct (try_outcome env _ _ svc) as [response|e]; simpl.
  - reflexivity.
  - unfold except_Exception. destruct (is_Exception e) eqn:He; simpl.
    + reflexivity.
    + rewrite He. reflexivity.
Qed.

Lemma refactor_endpoint_answers_witness :
  free_for_newcomer (_lock (new_service default_settings)) = true
  /\ exists svc',
       Router.refactor_endpoint failing_env
         (Models.mkRequest (py "Calculator") (py "sum:with:"))
         (new_service default_settings)
       = (Router.AgentExecutionError500
            (py "Refactoring failed: NotFound: Calculator>>sum:with:"), svc').
Proof.
  split; [reflexivity|].
  destruct (refactor_endpoint_answers failing_env
              (Models.mkRequest (py "Calculator") (py "sum:with:"))
              (new_service default_settings) eq_refl) as (svc' & _ & H).
  exists svc'. exact H.
Defined.

(** ** The queue of the lock *)

Module QueueFacts.

Import Adk System LockFacts.

Lemma queued_enqueue (t : nat) (l : Lock) :
  queued (enqueue t l) = queued l ++ [t].
Proof. unfold queued, enqueue. simpl. rewrite List.map_app. reflexivity. Qed.

Lemma in_queued_dequeue (t t0 : nat) (l : Lock) :
  In t0 (queued (dequeue t l)) <-> t0 <> t /\ In t0 (queued l).
Proof.
  unfold queued, dequeue. simpl. rewrite !in_map_iff. split.
  - intros (w & Hw & Hin). apply filter_In in Hin. destruct Hin as [Hin Hne].
    apply negb_true_iff in Hne. apply Nat.eqb_neq in Hne.
    split; [congruence|]. exists w. split; assumption.
  - intros (Hne & w & Hw & Hin). exists w. split; [exact Hw|].
    apply filter_In. split; [exact Hin|].
    apply negb_true_iff. apply Nat.eqb_neq. congruence.
Qed.

Lemma queued_wake (l : Lock) : queued (_wake_up_first l) = queued l.
Proof.
  unfold queued, _wake_up_first.
  destruct (_waiters l) as [|w ws] eqn:Hw; [rewrite Hw; reflexivity|].
  destruct (fut_done (waiter_fut w)); [rewrite Hw; reflexivity | reflexivity].
Qed.

Lemma queued_cancel (t : nat) (l : Lock) : queued (cancel_fut t l) = queued l.
Proof.
  unfold queued, cancel_fut. simpl.
  induction (_waiters l) as [|w ws IH]; [reflexivity|].
  simpl. rewrite IH. f_equal.
  destruct (Nat.eqb (waiter_task w) t) eqn:H; [|reflexivity].
  apply Nat.eqb_eq in H. simpl. congruence.
Qed.

Lemma head_done_wake (l : Lock) : head_done (_wake_up_first l).
Proof.
  unfold head_done, _wake_up_first.
  destruct (_waiters l) as [|w ws] eqn:Hw; [rewrite Hw; exact I|].
  destruct (fut_done (waiter_fut w)) eqn:Hd; [rewrite Hw; exact Hd | reflexivity].
Qed.

Lemma head_done_cancel (t : nat) (l : Lock) :
  head_done l -> head_done (cancel_fut t l).
Proof.
  unfold head_done, cancel_fut. simpl.
  destruct (_waiters l) as [|w ws]; simpl; [trivial|].
  destruct (Nat.eqb (waiter_task w) t); [reflexivity | trivial].
Qed.

Lemma head_done_enqueue (t : nat) (l : Lock) :
  _waiters l <> [] -> head_done l -> head_done (enqueue t l).
Proof.
  unfold head_done, enqueue. simpl.
  destruct (_waiters l); [congruence | simpl; trivial].
Qed.

(** A free lock that turns a newcomer away has somebody in its queue. *)
Lemma not_free_waiters (l : Lock) :
  _locked l = false -> free_for_newcomer l = false -> _waiters l <> [].
Proof.
  unfold free_for_newcomer. intros Hl H Hw. rewrite Hl, Hw in H. discriminate.
Qed.

(** A task that is not left waiting, with its future out of the queue. *)
Lemma waiting_invariant_update (s : State) (svc' : AgentService) (t : nat)
    (task : Task) :
  waiting_invariant s ->
  (forall c m b, task <> Waiting c m b) ->
  (forall t0, In t0 (queued (_lock svc'))
              <-> t0 <> t /\ In t0 (queued (_lock (service s)))) ->
  (_locked (_lock svc') = false -> head_done (_lock svc')) ->
  waiting_invariant (mkState svc' (<[t := task]> (tasks s))).
Proof.
  intros Hwi Htask Hq Hhead. split; simpl.
  - intros t0 Hin. apply Hq in Hin. destruct Hin as [Hne Hin].
    rewrite lookup_insert_ne by congruence.
    exact (wi_queued_waits s Hwi t0 Hin).
  - intros t0 c m b Hl. destruct (decide (t0 = t)) as [->|Hne].
    + rewrite lookup_insert_eq in Hl. injection Hl as Hl.
      destruct (Htask _ _ _ Hl).
    + rewrite lookup_insert_ne in Hl by congruence.
      apply Hq. split; [exact Hne|].
      exact (wi_waiting_queued s Hwi t0 c m b Hl).
  - exact Hhead.
Qed.

Lemma waiting_invariant_enter (env : Env) (s : State) (t : nat) (c m : pystr)
    (svc1 : AgentService) :
  waiting_invariant s ->
  _locked (_lock svc1) = true ->
  (forall t0, In t0 (queued (_lock svc1))
              <-> t0 <> t /\ In t0 (queued (_lock (service s)))) ->
  waiting_invariant (mkState (fst (enter env c m svc1))
                       (<[t := snd (enter env c m svc1)]> (tasks s))).
Proof.
  intros Hwi Hlocked Hq.
  destruct (SystemFacts.enter_cases env c m svc1 Hlocked)
    as [(p & u & svc2 & He & Hl)|(r & svc2 & He & Hl)];
    rewrite He; simpl; apply waiting_invariant_update;
    try exact Hwi; try discriminate.
  - rewrite Hl. exact Hq.
  - rewrite Hl, Hlocked. discriminate.
  - rewrite Hl, queued_wake. exact Hq.
  - rewrite Hl. intros _. apply head_done_wake.
Qed.

Lemma waiting_invariant_abandon (s : State) (t : nat) :
  waiting_invariant s ->
  waiting_invariant (mkState (fst (abandon t (service s)))
                       (<[t := snd (abandon t (service s))]> (tasks s))).
Proof.
  intros Hwi. unfold abandon. simpl fst. simpl snd.
  apply waiting_invariant_update; [exact Hwi | discriminate | |];
    cbn [_lock with_lock].
  - intros t0. destruct (_locked (_lock (service s)));
      [|rewrite queued_wake]; apply in_queued_dequeue.
  - destruct (_locked (_lock (service s))) eqn:Hl.
    + simpl. congruence.
    + intros _. apply head_done_wake.
Qed.

Lemma initial_waiting_invariant (settings : Settings) :
  waiting_invariant (initial settings).
Proof.
  split; simpl.
  - intros t [].
  - intros t c m b H. rewrite lookup_empty in H. discriminate.
  - intros _. exact I.
Qed.

(** A task that is not waiting has no future in the queue. *)
Lemma not_waiting_not_queued (s : State) (t : nat) :
  waiting_invariant s ->
  (forall c m b, tasks s !! t <> Some (Waiting c m b)) ->
  forall t0, In t0 (queued (_lock (service s))) -> t0 <> t.
Proof.
  intros Hwi Ht t0 Hin ->.
  destruct (wi_queued_waits s Hwi t Hin) as (c & m & b & H).
  exact (Ht c m b H).
Qed.

Lemma step_waiting_invariant (env : Env) (lbl : Label) (s s' : State) :
  waiting_invariant s -> step env lbl s = Some s' -> waiting_invariant s'.
Proof.
  intros Hwi Hstep. destruct lbl as [t c m|t|t o|t]; simpl in Hstep.
  - destruct (tasks s !! t) as [task|] eqn:Ht; [discriminate|].
    assert (Hnew : forall t0, In t0 (queued (_lock (service s))) -> t0 <> t).
    { apply not_waiting_not_queued; [exact Hwi|]. intros c' m' b'. congruence. }
    destruct (free_for_newcomer (_lock (service s))) eqn:Hfree.
    + pose proof (waiting_invariant_enter env s t c m
                    (with_lock (take (_lock (service s))) (service s))
                    Hwi eq_refl) as H.
      destruct (enter env c m _) as [svc' task].
      injection Hstep as <-. apply H.
      intros t0. split; [intros Hin; split; [exact (Hnew t0 Hin) | exact Hin]|].
      intros [_ Hin]. exact Hin.
    + injection Hstep as <-. split; simpl.
      * intros t0 Hin. rewrite queued_enqueue in Hin.
        apply in_app_iff in Hin. destruct Hin as [Hin|[<-|[]]].
        -- rewrite lookup_insert_ne by (pose proof (Hnew t0 Hin); congruence).
           exact (wi_queued_waits s Hwi t0 Hin).
        -- rewrite lookup_insert_eq. eauto.
      * intros t0 c' m' b' Hl. rewrite queued_enqueue. apply in_app_iff.
        destruct (decide (t0 = t)) as [->|Hne].
        -- right. left. reflexivity.
        -- left. rewrite lookup_insert_ne in Hl by congruence.
           exact (wi_waiting_queued s Hwi t0 c' m' b' Hl).
      * intros Hl. apply head_done_enqueue.
        -- exact (not_free_waiters _ Hl Hfree).
        -- exact (wi_head_done s Hwi Hl).
  - destruct (tasks s !! t) as [[c m b|c m p u|r]|] eqn:Ht; try discriminate.
    destruct (fut_of t (_lock (service s))) as [[| |]|] eqn:Hfut; try discriminate.
    + destruct b.
      * injection Hstep as <-. exact (waiting_invariant_abandon s t Hwi).
      * pose proof (waiting_invariant_enter env s t c m
                      (with_lock (take (dequeue t (_lock (service s)))) (service s))
                      Hwi eq_refl) as H.
        destruct (enter env c m _) as [svc' task].
        injection Hstep as <-. apply H.
        intros t0. apply in_queued_dequeue.
    + injection Hstep as <-. exact (waiting_invariant_abandon s t Hwi).
  - destruct (tasks s !! t) as [[c m b|c m p u|r]|] eqn:Ht; try discriminate.
    assert (Hnew : forall t0, In t0 (queued (_lock (service s))) -> t0 <> t).
    { apply not_waiting_not_queued; [exact Hwi|]. intros c' m' b'. congruence. }
    destruct (leave_lock (try_end c m o) (service s)) as [r' svc'] eqn:Hleave.
    injection Hstep as <-.
    unfold leave_lock, release in Hleave.
    destruct (_locked (_lock (service s))) eqn:Hl; injection Hleave as <- <-;
      apply waiting_invariant_update; try exact Hwi; try discriminate; simpl.
    * intros t0. rewrite queued_wake.
      split; [intros Hin; split; [exact (Hnew t0 Hin) | exact Hin]|].
      intros [_ Hin]. exact Hin.
    * intros _. apply head_done_wake.
    * intros t0.
      split; [intros Hin; split; [exact (Hnew t0 Hin) | exact Hin]|].
      intros [_ Hin]. exact Hin.
    * exact (wi_head_done s Hwi).
  - destruct (tasks s !! t) as [[c m b|c m p u|r]|] eqn:Ht; try discriminate.
    destruct (fut_of t (_lock (service s))) as [[| |]|] eqn:Hfut; try discriminate.
    + injection Hstep as <-. split; simpl.
      * rewrite queued_cancel. exact (wi_queued_waits s Hwi).
      * rewrite queued_cancel. exact (wi_waiting_queued s Hwi).
      * intros Hl. apply head_done_cancel. exact (wi_head_done s Hwi Hl).
    + injection Hstep as <-. split; simpl.
      * intros t0 Hin. destruct (decide (t0 = t)) as [->|Hne].
        -- rewrite lookup_insert_eq. eauto.
        -- rewrite lookup_insert_ne by congruence.
           exact (wi_queued_waits s Hwi t0 Hin).
      * intros t0 c' m' b' H. destruct (decide (t0 = t)) as [->|Hne].
        -- exact (wi_waiting_queued s Hwi t c m b Ht).
        -- rewrite lookup_insert_ne in H by congruence.
           exact (wi_waiting_queued s Hwi t0 c' m' b' H).
      * exact (wi_head_done s Hwi).
Qed.

Lemma run_waiting_invariant (env : Env) (schedule : list Label) :
  forall s s', waiting_invariant s -> run env schedule s = Some s' ->
               waiting_invariant s'.
Proof.
  induction schedule as [|lbl more IH]; intros s s' Hwi Hrun; simpl in Hrun.
  - injection Hrun as <-. exact Hwi.
  - destruct (step env lbl s) as [s1|] eqn:Hstep; [|discriminate].
    exact (IH s1 s' (step_waiting_invariant env lbl s s1 Hwi Hstep) Hrun).
Qed.

Lemma reachable_waiting_invariant (env : Env) (settings : Settings) (s : State) :
  reachable env settings s -> waiting_invariant s.
Proof.
  intros [schedule Hrun].
  exact (run_waiting_invariant env schedule _ s
           (initial_waiting_invariant settings) Hrun).
Qed.

(** Behind the endpoint nothing is queued and nobody waits. *)
Lemma routed_step_quiet (env : Env) (lbl : Label) (s s' : State) :
  _waiters (_lock (service s)) = [] ->
  (forall t c m b, tasks s !! t <> Some (Waiting c m b)) ->
  routed_step env lbl s = Some s' ->
  _waiters (_lock (service s')) = []
  /\ (forall t c m b, tasks s' !! t <> Some (Waiting c m b)).
Proof.
  intros Hw Hnone Hstep.
  assert (Hinsert : forall svc' t task,
            (forall c m b, task <> Waiting c m b) ->
            forall t0 c m b,
              tasks (mkState svc' (<[t := task]> (tasks s))) !! t0
              <> Some (Waiting c m b)).
  { intros svc' t task Htask t0 c m b. simpl.
    destruct (decide (t0 = t)) as [->|Hne].
    - rewrite lookup_insert_eq. intros H. injection H as H.
      exact (Htask _ _ _ H).
    - rewrite lookup_insert_ne by congruence. apply Hnone. }
  assert (Hwake : forall b, _wake_up_first (mkLock b []) = mkLock b [])
    by reflexivity.
  destruct lbl as [t c m|t|t o|t]; simpl in Hstep.
  - destruct (is_busy (service s)) eqn:Hbusy.
    + injection Hstep as <-. split; assumption.
    + destruct (tasks s !! t) as [task|] eqn:Ht; [discriminate|].
      unfold is_busy, locked in Hbusy.
      assert (Hfree : free_for_newcomer (_lock (service s)) = true).
      { unfold free_for_newcomer. rewrite Hbusy, Hw. reflexivity. }
      rewrite Hfree in Hstep.
      destruct (SystemFacts.enter_cases env c m
                  (with_lock (take (_lock (service s))) (service s)) eq_refl)
        as [(p & u & svc2 & He & Hl)|(r & svc2 & He & Hl)];
        rewrite He in Hstep; injection Hstep as <-; simpl in Hl;
        (split; [|apply Hinsert; discriminate]); simpl; rewrite Hl.
      * simpl. exact Hw.
      * rewrite Hw. reflexivity.
  - destruct (tasks s !! t) as [[c m b|c m p u|r]|] eqn:Ht; try discriminate.
    destruct (Hnone _ _ _ _ Ht).
  - destruct (tasks s !! t) as [[c m b|c m p u|r]|] eqn:Ht; try discriminate.
    destruct (leave_lock (try_end c m o) (service s)) as [r' svc'] eqn:Hleave.
    injection Hstep as <-.
    unfold leave_lock, release in Hleave.
    destruct (_locked (_lock (service s))) eqn:Hl; injection Hleave as <- <-;
      (split; [|apply Hinsert; discriminate]); simpl.
    * rewrite Hw. reflexivity.
    * exact Hw.
  - destruct (tasks s !! t) as [[c m b|c m p u|r]|] eqn:Ht; try discriminate.
    destruct (Hnone _ _ _ _ Ht).
Qed.

Lemma run_routed_quiet (env : Env) (schedule : list Label) :
  forall s s',
    _waiters (_lock (service s)) = [] ->
    (forall t c m b, tasks s !! t <> Some (Waiting c m b)) ->
    run_routed env schedule s = Some s' ->
    _waiters (_lock (service s')) = []
    /\ (forall t c m b, tasks s' !! t <> Some (Waiting c m b)).
Proof.
  induction schedule as [|lbl more IH]; intros s s' Hw Hnone Hrun; simpl in Hrun.
  - injection Hrun as <-. split; assumption.
  - destruct (routed_step env lbl s) as [s1|] eqn:Hstep; [|discriminate].
    destruct (routed_step_quiet env lbl s s1 Hw Hnone Hstep) as [Hw1 Hnone1].
    exact (IH s1 s' Hw1 Hnone1 Hrun).
Qed.

End QueueFacts.

(** X17.  No wake-up is lost.  In every state that callers, scheduler
    and cancellations can bring about, a call that waits for the lock is
    not stuck: either a call is inside the locked section, and the end
    of its pipeline run, with any outcome, is a possible step; or the
    lock is free and the first call of the queue has been told, so that
    its running on is a possible step. *)
Theorem waiting_call_not_stuck (env : Env) (settings : Settings)
    (s : System.State) (t : nat) (c m : pystr) (b : bool) :
  System.reachable env settings s ->
  System.tasks s !! t = Some (System.Waiting c m b) ->
  (exists t', System.inside s t'
              /\ forall o, exists s', System.step env (System.Complete t' o) s = Some s')
  \/ (exists t' s',
        is_busy (System.service s) = false
        /\ head (System.queued (_lock (System.service s))) = Some t'
        /\ System.step env (System.Resume t') s = Some s').
Proof.
  intros Hreach Ht.
  pose proof (SystemFacts.reachable_invariant env settings s Hreach) as Hinv.
  pose proof (QueueFacts.reachable_waiting_invariant env settings s Hreach) as Hwi.
  destruct (_locked (_lock (System.service s))) eqn:Hl.
  - left. destruct (System.inv_locked_inside s Hinv Hl) as [t' Hin].
    exists t'. split; [exact Hin|].
    destruct Hin as (c' & m' & p & u & Ht'). intros o. simpl. rewrite Ht'.
    destruct (leave_lock (try_end c' m' o) (System.service s)) as [r svc'].
    eexists. reflexivity.
  - right.
    pose proof (System.wi_waiting_queued s Hwi t c m b Ht) as Hq.
    pose proof (System.wi_head_done s Hwi Hl) as Hhead.
    pose proof (System.wi_queued_waits s Hwi) as Hwaits.
    unfold System.queued, System.head_done in *.
    destruct (_waiters (_lock (System.service s))) as [|w ws] eqn:Hw;
      [destruct Hq|].
    destruct (Hwaits (waiter_task w) (or_introl eq_refl)) as (c' & m' & b' & Ht').
    assert (Hfut : fut_of (waiter_task w) (_lock (System.service s))
                   = Some (waiter_fut w)).
    { unfold fut_of. rewrite Hw. simpl. rewrite Nat.eqb_refl. reflexivity. }
    exists (waiter_task w).
    assert (Hstep : exists s', System.step env (System.Resume (waiter_task w)) s
                               = Some s').
    { simpl. rewrite Ht', Hfut.
      destruct (waiter_fut w); [discriminate Hhead | |].
      - destruct b'.
        + eexists. reflexivity.
        + destruct (System.enter env c' m' _) as [svc' task].
          eexists. reflexivity.
      - eexists. reflexivity. }
    destruct Hstep as [s' Hstep]. exists s'.
    split; [exact Hl|]. split; [reflexivity | exact Hstep].
Qed.

Lemma waiting_call_not_stuck_witness :
  exists s,
    System.reachable failing_env default_settings s
    /\ System.tasks s !! 1%nat
       = Some (System.Waiting (py "Calculator") (py "add:to:") false)
    /\ ((exists t', System.inside s t'
                    /\ forall o, exists s',
                         System.step failing_env (System.Complete t' o) s = Some s')
        \/ (exists t' s',
              is_busy (System.service s) = false
              /\ head (System.queued (_lock (System.service s))) = Some t'
              /\ System.step failing_env (System.Resume t') s = Some s')).
Proof.
  destruct (System.run failing_env (firstn 2 System.two_callers)
              (System.initial default_settings)) as [s|] eqn:Hrun;
    [|vm_compute in Hrun; discriminate Hrun].
  exists s.
  assert (Hreach : System.reachable failing_env default_settings s)
    by (exists (firstn 2 System.two_callers); exact Hrun).
  assert (Ht : System.tasks s !! 1%nat
               = Some (System.Waiting (py "Calculator") (py "add:to:") false)).
  { pose proof Hrun as Hval. vm_compute in Hval. injection Hval as Hval.
    rewrite <- Hval. vm_compute. reflexivity. }
  split; [exact Hreach|]. split; [exact Ht|].
  exact (waiting_call_not_stuck failing_env default_settings s 1%nat _ _ _
           Hreach Ht).
Defined.

(** X18.  Behind the endpoint no request waits for the lock.  The
    endpoint function tests [is_busy] and calls [refactor_method] with
    no [await] between the two; so in every state that requests through
    the endpoint can bring about the queue of the lock is empty and no
    call is suspended in [acquire], a wake-up and a cancellation of a
    waiter are never possible steps, and a new request is either turned
    away, leaving no trace, or is past the lock at once. *)
Theorem endpoint_requests_never_wait (env : Env) (settings : Settings)
    (s : System.State) :
  System.routed_reachable env settings s ->
  _waiters (_lock (System.service s)) = []
  /\ (forall t c m b, System.tasks s !! t <> Some (System.Waiting c m b))
  /\ (forall t, System.routed_step env (System.Resume t) s = None
                /\ System.routed_step env (System.Cancel t) s = None)
  /\ (forall t c m s',
        System.routed_step env (System.Call t c m) s = Some s' ->
        (is_busy (System.service s) = true /\ s' = s)
        \/ (is_busy (System.service s) = false
            /\ exists task, System.tasks s' !! t = Some task
                            /\ forall c' m' b', task <> System.Waiting c' m' b')).
Proof.
  intros [schedule Hrun].
  assert (Hnone0 : forall t c m b,
            System.tasks (System.initial settings) !! t
            <> Some (System.Waiting c m b)).
  { intros t c m b H. simpl in H. rewrite lookup_empty in H. discriminate H. }
  destruct (QueueFacts.run_routed_quiet env schedule (System.initial settings) s
              eq_refl Hnone0 Hrun) as [Hw Hnone].
  split; [exact Hw|]. split; [exact Hnone|]. split.
  - intros t. simpl.
    destruct (System.tasks s !! t) as [[c m b|c m p u|r]|] eqn:Ht;
      try (split; reflexivity).
    destruct (Hnone _ _ _ _ Ht).
  - intros t c m s' Hstep.
    destruct (is_busy (System.service s)) eqn:Hbusy.
    + left. unfold System.routed_step in Hstep. rewrite Hbusy in Hstep.
      injection Hstep as <-. split; reflexivity.
    + right. split; [reflexivity|].
      destruct (QueueFacts.routed_step_quiet env _ s s' Hw Hnone Hstep)
        as [_ Hnone'].
      unfold System.routed_step in Hstep. rewrite Hbusy in Hstep.
      simpl in Hstep.
      destruct (System.tasks s !! t) as [task|] eqn:Ht; [discriminate|].
      destruct (free_for_newcomer (_lock (System.service s)));
        [destruct (System.enter env c m _) as [svc' task]|];
        injection Hstep as <-; simpl; rewrite lookup_insert_eq;
        eexists; (split; [reflexivity|]).
      * intros c' m' b' ->.
        apply (Hnone' t c' m' b'). simpl. apply lookup_insert_eq.
      * intros c' m' b' H.
        apply (Hnone' t c m false). simpl. apply lookup_insert_eq.
Qed.

Lemma endpoint_requests_never_wait_witness :
  exists s,
    System.run_routed failing_env (firstn 3 System.two_callers)
      (System.initial default_settings) = Some s
    /\ _waiters (_lock (System.service s)) = []
    /\ (forall t c m b, System.tasks s !! t <> Some (System.Waiting c m b)).
Proof.
  destruct (System.run_routed failing_env (firstn 3 System.two_callers)
              (System.initial default_settings)) as [s|] eqn:Hrun;
    [|vm_compute in Hrun; discriminate Hrun].
  exists s.
  destruct (endpoint_requests_never_wait failing_env default_settings s
              (ex_intro _ (firstn 3 System.two_callers) Hrun))
    as (Hw & Hnone & _).
  split; [reflexivity|]. split; assumption.
Defined.

(** ** The example client *)

Module ClientFacts.

Import Client.

Lemma posts_and_then_post (r : list Effect * RetryResult) :
  posts (fst (and_then [Posted] r)) = S (posts (fst r)).
Proof. reflexivity. Qed.

Lemma posts_and_then_sleep (w : Z) (r : list Effect * RetryResult) :
  posts (fst (and_then [Posted; Slept w] r)) = S (posts (fst r)).
Proof. reflexivity. Qed.

Lemma pow2_pos (n : nat) : (0 < 2 ^ Z.of_nat n)%Z.
Proof. apply Z.pow_pos_nonneg; lia. Qed.

Lemma pow2_succ (n : nat) : (2 ^ Z.of_nat (S n) = 2 * 2 ^ Z.of_nat n)%Z.
Proof. rewrite Nat2Z.inj_succ. apply Z.pow_succ_r. lia. Qed.

Lemma pow2_mono (a b : nat) : (a <= b)%nat -> (2 ^ Z.of_nat a <= 2 ^ Z.of_nat b)%Z.
Proof. intros H. apply Z.pow_le_mono_r; lia. Qed.

(** At most one post for every round. *)
Lemma retry_from_posts (server : nat -> PostResult) (max_retries : Z)
    (remaining : nat) :
  forall attempt,
    (posts (fst (retry_from server max_retries remaining attempt)) <= remaining)%nat.
Proof.
  induction remaining as [|remaining IH]; intros attempt; cbn [retry_from];
    [unfold posts; simpl; lia|].
  pose proof (IH (S attempt)) as H.
  destruct (server attempt) as [status_code json| |e].
  - destruct (status_code =? 200)%Z; [unfold posts; simpl; lia|].
    destruct (status_code =? 503)%Z; [rewrite posts_and_then_sleep; lia|].
    destruct (raises_for_status status_code); [unfold posts; simpl; lia|].
    rewrite posts_and_then_post. lia.
  - destruct (Z.of_nat attempt <? max_retries - 1)%Z;
      [rewrite posts_and_then_sleep; lia | unfold posts; simpl; lia].
  - unfold posts. simpl. lia.
Qed.

(** The time slept from [attempt] on, over [remaining] rounds. *)
Lemma retry_from_slept (server : nat -> PostResult) (max_retries : Z)
    (remaining : nat) :
  forall attempt,
    (0 <= slept (fst (retry_from server max_retries remaining attempt))
     <= 2 ^ Z.of_nat (attempt + remaining) - 2 ^ Z.of_nat attempt)%Z.
Proof.
  induction remaining as [|remaining IH]; intros attempt.
  - simpl. rewrite Nat.add_0_r. lia.
  - pose proof (IH (S attempt)) as H.
    replace (S attempt + remaining)%nat with (attempt + S remaining)%nat in H
      by lia.
    rewrite pow2_succ in H.
    pose proof (pow2_pos attempt) as Hp.
    pose proof (pow2_mono attempt (attempt + S remaining) ltac:(lia)) as Hm.
    cbn [retry_from].
    generalize dependent (retry_from server max_retries remaining (S attempt)).
    intros r H.
    generalize dependent (2 ^ Z.of_nat (attempt + S remaining))%Z.
    generalize dependent (2 ^ Z.of_nat attempt)%Z.
    intros p Hp q H Hm.
    destruct (server attempt) as [status_code json| |e].
    + destruct (status_code =? 200)%Z; [simpl; lia|].
      destruct (status_code =? 503)%Z; [simpl; lia|].
      destruct (raises_for_status status_code); simpl; lia.
    + destruct (Z.of_nat attempt <? max_retries - 1)%Z; simpl; lia.
    + simpl. lia.
Qed.

(** Where a returned value comes from. *)
Lemma retry_from_returned (server : nat -> PostResult) (max_retries : Z)
    (j : pystr) (remaining : nat) :
  forall attempt,
    snd (retry_from server max_retries remaining attempt) = ReturnedJson j ->
    exists k,
      (attempt <= k < attempt + remaining)%nat
      /\ server k = Responded 200 (Some j)
      /\ (forall i json, (attempt <= i < k)%nat -> server i <> Responded 200 json)
      /\ posts (fst (retry_from server max_retries remaining attempt))
         = S (k - attempt).
Proof.
  induction remaining as [|remaining IH]; intros attempt; [discriminate|].
  cbn [retry_from].
  assert (Hnext : forall effects,
            posts effects = 1%nat ->
            (forall json, server attempt <> Responded 200 json) ->
            snd (and_then effects
                   (retry_from server max_retries remaining (S attempt)))
            = ReturnedJson j ->
            exists k,
              (attempt <= k < attempt + S remaining)%nat
              /\ server k = Responded 200 (Some j)
              /\ (forall i json, (attempt <= i < k)%nat ->
                                 server i <> Responded 200 json)
              /\ posts (fst (and_then effects
                               (retry_from server max_retries remaining
                                  (S attempt))))
                 = S (k - attempt)).
  { intros effects Hone Hhere Hret. simpl in Hret.
    destruct (IH (S attempt) Hret) as (k & Hk & Hserver & Hbefore & Hposts).
    exists k. split; [lia|]. split; [exact Hserver|]. split.
    - intros i json Hi. destruct (Nat.eq_dec i attempt) as [->|Hne].
      + apply Hhere.
      + apply Hbefore. lia.
    - unfold and_then, posts in *. simpl fst.
      rewrite List.filter_app, length_app, Hone, Hposts. lia. }
  destruct (server attempt) as [status_code json| |e] eqn:Hserver.
  - destruct (status_code =? 200)%Z eqn:H200.
    + apply Z.eqb_eq in H200. subst status_code.
      destruct json as [j'|]; [|discriminate].
      simpl. intros H. injection H as ->.
      exists attempt. split; [lia|]. split; [exact Hserver|]. split.
      * intros i json Hi. lia.
      * rewrite Nat.sub_diag. reflexivity.
    + assert (Hhere : forall json', Responded status_code json
                                    <> Responded 200 json').
      { intros json' H. injection H as H _. subst status_code. discriminate. }
      destruct (status_code =? 503)%Z; [apply Hnext; [reflexivity | exact Hhere]|].
      destruct (raises_for_status status_code); [discriminate|].
      apply Hnext; [reflexivity | exact Hhere].
  - destruct (Z.of_nat attempt <? max_retries - 1)%Z; [|discriminate].
    apply Hnext; [reflexivity | discriminate].
  - discriminate.
Qed.

Lemma retry_from_busy (server : nat -> PostResult) (max_retries : Z)
    (remaining : nat) :
  forall attempt,
    (forall k, (attempt <= k < attempt + remaining)%nat ->
               exists json, server k = Responded 503 json) ->
    retry_from server max_retries remaining attempt
    = (busy_rounds remaining attempt, RaisedFailedAfter max_retries).
Proof.
  induction remaining as [|remaining IH]; intros attempt Hbusy; [reflexivity|].
  cbn [retry_from busy_rounds].
  destruct (Hbusy attempt ltac:(lia)) as [json ->].
  change (503 =? 200)%Z with false. change (503 =? 503)%Z with true. cbv iota.
  rewrite IH by (intros k Hk; apply Hbusy; lia).
  reflexivity.
Qed.

Lemma posts_busy_rounds (n : nat) : forall attempt, posts (busy_rounds n attempt) = n.
Proof.
  induction n as [|n IH]; intros attempt; [reflexivity|].
  change (posts (busy_rounds (S n) attempt))
    with (S (posts (busy_rounds n (S attempt)))).
  rewrite IH. reflexivity.
Qed.

Lemma slept_busy_rounds (n : nat) :
  forall attempt,
    slept (busy_rounds n attempt)
    = (2 ^ Z.of_nat (attempt + n) - 2 ^ Z.of_nat attempt)%Z.
Proof.
  induction n as [|n IH]; intros attempt.
  - simpl. rewrite Nat.add_0_r. lia.
  - cbn [busy_rounds slept]. rewrite IH.
    replace (S attempt + n)%nat with (attempt + S n)%nat by lia.
    rewrite pow2_succ. lia.
Qed.

End ClientFacts.

Module ClientExamples.

Import Client.

Example third_time_lucky_run :
  refactor_with_retry third_time_lucky 5
  = ([Posted; Slept 1; Posted; Slept 2; Posted], ReturnedJson (py "{}")).
Proof. vm_compute. reflexivity. Qed.

Example timeout_at_last_attempt :
  refactor_with_retry (fun _ => TimedOut) 2
  = ([Posted; Slept 1; Posted], RaisedTimeout).
Proof. vm_compute. reflexivity. Qed.

End ClientExamples.

(** X19.  [refactor_with_retry] is bounded, whatever the server does:
    it posts at most [max_retries] times, and the time it sleeps in all
    is at most [2 ^ max_retries - 1] seconds. *)
Theorem refactor_with_retry_bounded (server : nat -> Client.PostResult)
    (max_retries : Z) :
  (0 <= max_retries)%Z ->
  (Z.of_nat (Client.posts (fst (Client.refactor_with_retry server max_retries)))
   <= max_retries)%Z
  /\ (0 <= Client.slept (fst (Client.refactor_with_retry server max_retries))
      <= 2 ^ max_retries - 1)%Z.
Proof.
  intros Hmax. unfold Client.refactor_with_retry.
  pose proof (ClientFacts.retry_from_posts server max_retries
                (Z.to_nat max_retries) 0) as Hposts.
  pose proof (ClientFacts.retry_from_slept server max_retries
                (Z.to_nat max_retries) 0) as Hslept.
  rewrite Nat.add_0_l, Z2Nat.id in Hslept by exact Hmax.
  change (2 ^ Z.of_nat 0)%Z with 1%Z in Hslept.
  split; [lia | exact Hslept].
Qed.

Lemma refactor_with_retry_bounded_witness :
  (0 <= 5)%Z
  /\ (Z.of_nat (Client.posts
                  (fst (Client.refactor_with_retry Client.third_time_lucky 5)))
      <= 5)%Z
  /\ (0 <= Client.slept
             (fst (Client.refactor_with_retry Client.third_time_lucky 5))
      <= 2 ^ 5 - 1)%Z.
Proof.
  assert (H : (0 <= 5)%Z) by lia.
  split; [exact H|].
  exact (refactor_with_retry_bounded Client.third_time_lucky 5 H).
Defined.

(** X20.  What [refactor_with_retry] returns is the JSON of the first
    response with status 200: no earlier post met a 200, that post was
    within the [max_retries] attempts, and it was the last one made. *)
Theorem refactor_with_retry_returns (server : nat -> Client.PostResult)
    (max_retries : Z) (effects : list Client.Effect) (j : pystr) :
  Client.refactor_with_retry server max_retries
  = (effects, Client.ReturnedJson j) ->
  exists k,
    (Z.of_nat k < max_retries)%Z
    /\ server k = Client.Responded 200 (Some j)
    /\ (forall i json, (i < k)%nat -> server i <> Client.Responded 200 json)
    /\ Client.posts effects = S k.
Proof.
  intros Hrun. unfold Client.refactor_with_retry in Hrun.
  destruct (ClientFacts.retry_from_returned server max_retries j
              (Z.to_nat max_retries) 0)
    as (k & Hk & Hserver & Hbefore & Hposts).
  { rewrite Hrun. reflexivity. }
  rewrite Hrun in Hposts. simpl in Hposts.
  exists k. split; [lia|]. split; [exact Hserver|]. split.
  - intros i json Hi. apply Hbefore. lia.
  - rewrite Hposts. f_equal. lia.
Qed.

Lemma refactor_with_retry_returns_witness :
  Client.refactor_with_retry Client.third_time_lucky 5
  = ([Client.Posted; Client.Slept 1; Client.Posted; Client.Slept 2;
      Client.Posted], Client.ReturnedJson (py "{}"))
  /\ exists k,
       (Z.of_nat k < 5)%Z
       /\ Client.third_time_lucky k = Client.Responded 200 (Some (py "{}"))
       /\ (forall i json, (i < k)%nat ->
                          Client.third_time_lucky i <> Client.Responded 200 json)
       /\ Client.posts [Client.Posted; Client.Slept 1; Client.Posted;
                        Client.Slept 2; Client.Posted] = S k.
Proof.
  assert (H : Client.refactor_with_retry Client.third_time_lucky 5
              = ([Client.Posted; Client.Slept 1; Client.Posted; Client.Slept 2;
                  Client.Posted], Client.ReturnedJson (py "{}")))
    by (vm_compute; reflexivity).
  split; [exact H|].
  exact (refactor_with_retry_returns Client.third_time_lucky 5 _ _ H).
Defined.

(** X21.  Against a service that is busy at every attempt the client
    posts [max_retries] times, sleeps after every post, after the last
    one too, [2 ^ max_retries - 1] seconds in all, and then raises the
    exception that tells of [max_retries] retries. *)
Theorem refactor_with_retry_always_busy (server : nat -> Client.PostResult)
    (max_retries : Z) :
  (0 <= max_retries)%Z ->
  (forall k, (Z.of_nat k < max_retries)%Z ->
             exists json, server k = Client.Responded 503 json) ->
  Client.refactor_with_retry server max_retries
  = (Client.busy_rounds (Z.to_nat max_retries) 0,
     Client.RaisedFailedAfter max_retries)
  /\ Z.of_nat (Client.posts (Client.busy_rounds (Z.to_nat max_retries) 0))
     = max_retries
  /\ Client.slept (Client.busy_rounds (Z.to_nat max_retries) 0)
     = (2 ^ max_retries - 1)%Z
  /\ (0 < max_retries ->
      List.last (Client.busy_rounds (Z.to_nat max_retries) 0) Client.Posted
      = Client.Slept (2 ^ (max_retries - 1)))%Z.
Proof.
  intros Hmax Hbusy. split; [|split; [|split]].
  - unfold Client.refactor_with_retry.
    apply ClientFacts.retry_from_busy. intros k Hk. apply Hbusy. lia.
  - rewrite ClientFacts.posts_busy_rounds. lia.
  - rewrite ClientFacts.slept_busy_rounds, Nat.add_0_l, Z2Nat.id by exact Hmax.
    reflexivity.
  - intros Hpos.
    assert (Hlast : forall n attempt,
              List.last (Client.busy_rounds (S n) attempt) Client.Posted
              = Client.Slept (2 ^ Z.of_nat (attempt + n))).
    { induction n as [|n IH]; intros attempt.
      - simpl. rewrite Nat.add_0_r. reflexivity.
      - change (Client.busy_rounds (S (S n)) attempt)
          with (Client.Posted :: Client.Slept (2 ^ Z.of_nat attempt)
                  :: Client.busy_rounds (S n) (S attempt)).
        replace (attempt + S n)%nat with (S attempt + n)%nat by lia.
        rewrite <- IH.
        change (Client.busy_rounds (S n) (S attempt))
          with (Client.Posted :: Client.Slept (2 ^ Z.of_nat (S attempt))
                  :: Client.busy_rounds n (S (S attempt))).
        reflexivity. }
    destruct (Z.to_nat max_retries) as [|n] eqn:Hn; [lia|].
    rewrite Hlast. f_equal. f_equal. lia.
Qed.

Lemma refactor_with_retry_always_busy_witness :
  (0 <= 5)%Z
  /\ Client.refactor_with_retry Client.always_busy 5
     = (Client.busy_rounds 5 0, Client.RaisedFailedAfter 5)
  /\ Client.slept (Client.busy_rounds 5 0) = 31%Z.
Proof.
  assert (H : (0 <= 5)%Z) by lia.
  split; [exact H|].
  destruct (refactor_with_retry_always_busy Client.always_busy 5 H
              (fun k _ => ex_intro _ None eq_refl)) as (Hrun & _ & Hslept & _).
  split; [exact Hrun | exact Hslept].
Defined.

(** ** The pipeline as it is built *)

(** X22.  Where the tools are in the pipeline [_create_pipeline]
    builds, for every settings and every tool set: the agents have
    different names; an agent that holds [exit_validation_loop] runs
    inside the validation loop; and every agent with access to the Pharo
    server holds the one tool set the pipeline was built with. *)
Theorem pipeline_tool_placement (settings : Settings) (toolset : Toolset)
    (a : Agent) :
  In a (llm_agents (_create_pipeline settings toolset)) ->
  NoDup (List.map name_of (llm_agents (_create_pipeline settings toolset)))
  /\ (In ExitValidationLoopTool (tools_of a) ->
      in_loop_context (_create_pipeline settings toolset) (name_of a) = true)
  /\ (forall ts, In (McpTool ts) (tools_of a) -> ts = toolset).
Proof.
  intros Hin. split; [|split].
  - cbn. repeat (apply NoDup_cons; split;
                 [rewrite ?elem_of_cons, elem_of_nil; intros H;
                  decompose [or] H; first [discriminate | contradiction]|]).
    apply NoDup_nil_2.
  - cbn in Hin. decompose [or] Hin; try contradiction; subst a; cbn;
      intros H; decompose [or] H; try discriminate; try contradiction;
      reflexivity.
  - intros ts. cbn in Hin. decompose [or] Hin; try contradiction; subst a; cbn;
      intros H; decompose [or] H; try discriminate; try contradiction;
      congruence.
Qed.

Lemma pipeline_tool_placement_witness :
  In _create_refiner_agent
    (llm_agents (_create_pipeline default_settings (make_toolset default_settings)))
  /\ in_loop_context
       (_create_pipeline default_settings (make_toolset default_settings))
       "RefinerAgent" = true.
Proof.
  assert (H : In _create_refiner_agent
                (llm_agents (_create_pipeline default_settings
                               (make_toolset default_settings)))).
  { cbn. right. right. right. left. reflexivity. }
  split; [exact H|].
  exact (proj1 (proj2 (pipeline_tool_placement default_settings
                         (make_toolset default_settings) _ H))
           (or_introl eq_refl)).
Defined.

(** X23.  Every state key an instruction of the pipeline refers to in
    braces can have been written when the agent runs for the first
    time: it is the output key of an agent that stands before it in the
    pipeline, or a key of [save_context] with an agent before it
    holding that tool. *)
Theorem pipeline_reads_written_before (settings : Settings) (toolset : Toolset)
    (before after : list Agent) (a : Agent) (key : string) :
  llm_agents (_create_pipeline settings toolset) = before ++ a :: after ->
  In key (reads_of a) ->
  In key (keys_written before).
Proof.
  cbn. intros Hsplit.
  repeat (destruct before as [|? before];
          [injection Hsplit as <- _; cbn; intros Hk;
           decompose [or] Hk; try contradiction; subst key; cbn; tauto
          |injection Hsplit as <- Hsplit]).
  destruct before; discriminate Hsplit.
Qed.

Lemma pipeline_reads_written_before_witness :
  In "class_name"%string
    (keys_written [_create_reviewer_agent (make_toolset default_settings);
                   _create_initial_writer_agent;
                   _create_validator_agent (make_toolset default_settings);
                   _create_refiner_agent]).
Proof.
  exact (pipeline_reads_written_before default_settings
           (make_toolset default_settings)
           [_create_reviewer_agent (make_toolset default_settings);
            _create_initial_writer_agent;
            _create_validator_agent (make_toolset default_settings);
            _create_refiner_agent] []
           (_create_release_agent (make_toolset default_settings))
           "class_name" eq_refl (or_introl eq_refl)).
Defined.
